(** * AntiLLM detection and scoring engine: a shallow embedding

    The definitions below follow the JavaScript sources of the extension:
    - [content/detectors/utils.js]           (VigilUtils.levenshteinDistance)
    - [background/serviceWorker.js]          (levenshtein, scoreDomainRisk, computeTyposquat)
    - the DomainReputation class             (advancedTyposquatAnalysis and friends)
    - the JailbreakDetector class            (calculateRiskScore, detection history)
    - the AITextAnalyzer class               (analyzeText and its sub-scores)
    - [content/detectors/llmFingerprinter.js] (LLMFingerprinter.detectAIPhishing)
    - [content/notifier.js]                  (computeAdvancedCompositeScore,
                                              countIndependentSignals, deriveEnhancedRiskLevel)

    Conventions.
    - A JavaScript string is the list of its UTF-16 code units ([list N]);
      ASCII literals are written with [Js.lit].
    - A JavaScript number that carries a score is a real number ([R]): the
      arithmetic is the exact one, IEEE-754 rounding is not modelled.  Counts
      and lengths are [nat].
    - Where a result depends on the rounding -- the hits and the risk score
      of the jailbreak detector, whose heuristic increments 0.5, 0.3, 0.4 and
      0.6 put [totalHits * 15] on the ties of [Math.round] -- the numbers are
      binary64 floating-point numbers ([Binary64], [JailbreakDetector64]).
    - The regular-expression engine is part of the JavaScript runtime, not of
      the extension: it is a parameter ([Js.Engine]) of the text detectors. *)

From stdpp Require Import base option list gmap strings.
From Stdlib Require Import Reals Lra Lia ZArith.
From Stdlib Require Floats.

Set Default Proof Using "Type".

(** ** Loops *)

(** [for (let k = start; k < start + n; k += 1) body] as a fold over the
    index range. *)
Definition for_range {S : Type} (start n : nat) (body : S → nat → S) (s : S) : S :=
  foldl body s (seq start n).

(** ** JavaScript numbers and strings *)

#[global] Instance Rlt_decision (x y : R) : Decision (x < y)%R := Rlt_dec x y.
#[global] Instance Rle_decision (x y : R) : Decision (x <= y)%R := Rle_dec x y.
#[global] Instance Rgt_decision (x y : R) : Decision (x > y)%R := Rgt_dec x y.
#[global] Instance Rge_decision (x y : R) : Decision (x >= y)%R := Rge_dec x y.
#[global] Instance Req_decision : EqDecision R := Req_dec_T.

Module Js.

(** A string is the sequence of its UTF-16 code units. *)
Abbreviation jsstring := (list N) (only parsing).

(** The code units of an ASCII literal. *)
Definition lit (s : string) : jsstring :=
  Ascii.N_of_ascii <$> String.list_ascii_of_string s.

(** [Math.pow(x, 1.5)] for [x >= 0]: the real [x^(3/2)].  A negative [x]
    gives [NaN] in JavaScript; no score is negative. *)
Definition Math_pow_1_5 (x : R) : R := (x * sqrt x)%R.

(** [Math.floor] and [Math.round] (halves round up). *)
Definition Math_floor (x : R) : Z := Int_part x.
Definition Math_round (x : R) : Z := Math_floor (x + / 2)%R.

(** [Number(x.toFixed(digits))]: the closest multiple of [10^-digits], the
    larger in magnitude of two equally close ones. *)
Definition toFixed (digits : nat) (x : R) : R :=
  let scale := (10 ^ digits)%R in
  if decide (x < 0)%R
  then (- IZR (Math_round (- x * scale)) / scale)%R
  else (IZR (Math_round (x * scale)) / scale)%R.

(** [n / d > t] for two counts: [n / 0] is [Infinity] for a positive [n]
    and [NaN] for [0 / 0], and a comparison with [NaN] is false. *)
Definition ratio_gt (n d : nat) (t : R) : bool :=
  match d with
  | O => bool_decide (0 < n)
  | _ => bool_decide (INR n / INR d > t)%R
  end.

(** *** Strings *)

Definition unit_eqb (x y : N) : bool := N.eqb x y.

(** [s.startsWith(p)] *)
Fixpoint startsWith (s p : jsstring) : bool :=
  match p, s with
  | [], _ => true
  | x :: p', y :: s' => unit_eqb x y && startsWith s' p'
  | _ :: _, [] => false
  end.

(** [s.includes(sub)] *)
Fixpoint includes (s sub : jsstring) : bool :=
  startsWith s sub ||
  match s with
  | [] => false
  | _ :: s' => includes s' sub
  end.

(** [s === t] on strings. *)
Definition str_eqb (s t : jsstring) : bool := bool_decide (s = t).

(** [s.split(sep)] for a separator of one code unit: never empty. *)
Fixpoint split_on (sep : N) (s : jsstring) : list jsstring :=
  match s with
  | [] => [[]]
  | c :: s' =>
      if unit_eqb c sep then [] :: split_on sep s'
      else match split_on sep s' with
           | h :: t => (c :: h) :: t
           | [] => [[c]]
           end
  end.

(** [s.replace(new RegExp(c, 'g'), r)] where the pattern [c] is one ordinary
    character and the replacement [r] is one character: every occurrence of
    [c] is replaced. *)
Definition replace_all (c r : N) (s : jsstring) : jsstring :=
  (λ u, if unit_eqb u c then r else u) <$> s.

(** [s.toLowerCase()].  Exact for the code units below U+0100 and for U+0130
    (LATIN CAPITAL LETTER I WITH DOT ABOVE), whose lower case is the two code
    units U+0069 U+0307 -- the only unconditional case mapping that changes
    the length of a string.  Other cased letters are left as they are. *)
Definition lower_unit (u : N) : list N :=
  if (65 <=? u)%N && (u <=? 90)%N then [(u + 32)%N]
  else if (192 <=? u)%N && (u <=? 222)%N && negb (u =? 215)%N then [(u + 32)%N]
  else if (u =? 304)%N then [105%N; 775%N]
  else [u].

Definition toLowerCase (s : jsstring) : jsstring := s ≫= lower_unit.

(** White space and line terminators, as [trim] and [\s] see them. *)
Definition is_space (u : N) : bool :=
  bool_decide (u ∈ [9; 10; 11; 12; 13; 32; 160; 5760; 8232; 8233; 8239; 8287;
                    12288; 65279]%N)
  || ((8192 <=? u)%N && (u <=? 8202)%N).

Fixpoint trimStart (s : jsstring) : jsstring :=
  match s with
  | [] => []
  | u :: s' => if is_space u then trimStart s' else s
  end.

(** [s.trim()] *)
Definition trim (s : jsstring) : jsstring :=
  reverse (trimStart (reverse (trimStart s))).

(** [[...new Set(xs)]]: first occurrences, in order. *)
Fixpoint dedupe {A : Type} `{EqDecision A} (xs : list A) : list A :=
  match xs with
  | [] => []
  | x :: xs' => x :: filter (λ y, y ≠ x) (dedupe xs')
  end.

(** *** Regular expressions *)

(** A regular-expression literal: its source text and flags. *)
Record Regex : Type := { source : string; flags : string }.

#[global] Instance Regex_eq_dec : EqDecision Regex.
Proof. solve_decision. Defined.

(** A [RegExp] object: a regular expression and its mutable [lastIndex]. *)
Record RegExp : Type := { regex : Regex; lastIndex : nat }.

(** A literal evaluates to a new object, [lastIndex] 0. *)
Definition literal (source flags : string) : RegExp :=
  {| regex := {| source := source; flags := flags |}; lastIndex := 0 |}.

(** The matcher of the JavaScript runtime.
    - [match_all re s]: the matches a global [re] finds in [s], in order;
    - [exec re s i]: a search of [s] from index [i]: the end index of the
      match found, if any;
    - [split re s]: [s.split(re)]. *)
Record Engine : Type := {
  match_all : Regex → jsstring → list jsstring;
  exec : Regex → jsstring → nat → option nat;
  split : Regex → jsstring → list jsstring
}.

Definition is_global (re : Regex) : bool :=
  bool_decide (String.index 0 "g" (flags re) ≠ None).

(** [s.match(re) || []] for a global [re]: [lastIndex] is set to 0 before the
    search and is 0 again after it. *)
Definition str_match (E : Engine) (re : RegExp) (s : jsstring)
  : list jsstring * RegExp :=
  (match_all E (regex re) s, {| regex := regex re; lastIndex := 0 |}).

(** [re.test(s)]: a global [re] searches from its [lastIndex] and moves it to
    the end of the match, or back to 0 when there is none; another [re]
    searches from 0 and keeps its [lastIndex]. *)
Definition regexp_test (E : Engine) (re : RegExp) (s : jsstring) : bool * RegExp :=
  if is_global (regex re) then
    match exec E (regex re) s (lastIndex re) with
    | Some e => (true, {| regex := regex re; lastIndex := e |})
    | None => (false, {| regex := regex re; lastIndex := 0 |})
    end
  else (bool_decide (is_Some (exec E (regex re) s 0)), re).

(** [/source/flags.test(s)] on a literal, whose object is dropped. *)
Definition test (E : Engine) (source flags : string) (s : jsstring) : bool :=
  (regexp_test E (literal source flags) s).1.

(** [(s.match(/source/flags) || []).length] on a literal with the [g] flag. *)
Definition count (E : Engine) (source flags : string) (s : jsstring) : nat :=
  length (str_match E (literal source flags) s).1.

(** The object a search through [str_match] leaves behind. *)
Definition rewound (re : RegExp) : RegExp :=
  {| regex := regex re; lastIndex := 0 |}.

(** The strings "low", "medium", "high" and "critical": severities, and
    (without "critical") risk levels. *)
Inductive Level : Type := low | medium | high | critical.

#[global] Instance Level_eq_dec : EqDecision Level.
Proof. solve_decision. Defined.

End Js.

(** ** Edit distance (utils.js and serviceWorker.js) *)

Module Levenshtein.
Section WithUnits.
  (** The type of string elements: UTF-16 code units for a JavaScript string. *)
Context {A : Type} `{EqDecision A}.

  (** [matrix[i][j]]; an index out of range reads [undefined] in JavaScript,
      which the loops below never do (see [filled_dims]); the model reads 0. *)
Definition matrix_get (m : list (list nat)) (i j : nat) : nat :=
    default 0 (m !! i ≫= (.!! j)).

  (** [matrix[i][j] = v] for an existing row and column. *)
Definition matrix_set (m : list (list nat)) (i j v : nat) : list (list nat) :=
    alter (<[j := v]>) i m.

Definition min3 (x y z : nat) : nat := x `min` (y `min` z).

  (** [a[i - 1] === b[j - 1] ? 0 : 1] *)
Definition subst_cost (a b : list A) (i j : nat) : nat :=
    if decide (a !! (i - 1) = b !! (j - 1)) then 0 else 1.

  (** utils.js, [levenshteinDistance(a = "", b = "")]. *)
Definition levenshteinDistance (a b : list A) : nat :=
    let matrix := replicate (length a + 1) (replicate (length b + 1) 0) in
    let matrix := for_range 0 (length a + 1) (λ m i, matrix_set m i 0 i) matrix in
    let matrix := for_range 0 (length b + 1) (λ m j, matrix_set m 0 j j) matrix in
    let matrix :=
      for_range 1 (length a) (λ m i,
        for_range 1 (length b) (λ m j,
          let cost := subst_cost a b i j in
          matrix_set m i j
            (min3 (matrix_get m (i - 1) j + 1)
                  (matrix_get m i (j - 1) + 1)
                  (matrix_get m (i - 1) (j - 1) + cost))) m) matrix in
    matrix_get matrix (length a) (length b).

  (** serviceWorker.js, [levenshtein(a, b)]: the same text, kept as a
      definition of its own. *)
Definition levenshtein (a b : list A) : nat :=
    let matrix := replicate (length a + 1) (replicate (length b + 1) 0) in
    let matrix := for_range 0 (length a + 1) (λ m i, matrix_set m i 0 i) matrix in
    let matrix := for_range 0 (length b + 1) (λ m j, matrix_set m 0 j j) matrix in
    let matrix :=
      for_range 1 (length a) (λ m i,
        for_range 1 (length b) (λ m j,
          let cost := subst_cost a b i j in
          matrix_set m i j
            (min3 (matrix_get m (i - 1) j + 1)
                  (matrix_get m i (j - 1) + 1)
                  (matrix_get m (i - 1) (j - 1) + cost))) m) matrix in
    matrix_get matrix (length a) (length b).

  (** *** The specification: unit-cost edit distance *)

  (** [edit_script a b n]: [a] is turned into [b] by a left-to-right script of
      [n] unit-cost operations (deletions, insertions, substitutions); equal
      elements are kept for free. *)
Inductive edit_script : list A → list A → nat → Prop :=
  | es_nil : edit_script [] [] 0
  | es_delete x a b n : edit_script a b n → edit_script (x :: a) b (S n)
  | es_insert y a b n : edit_script a b n → edit_script a (y :: b) (S n)
  | es_keep x a b n : edit_script a b n → edit_script (x :: a) (x :: b) n
  | es_subst x y a b n : edit_script a b n → edit_script (x :: a) (y :: b) (S n).

  (** The textbook recursion. *)
Fixpoint edit_distance (a b : list A) : nat :=
    match a with
    | [] => length b
    | x :: a' =>
        (fix inner (b : list A) : nat :=
           match b with
           | [] => length a
           | y :: b' =>
               min3 (edit_distance a' b + 1) (inner b' + 1)
                    (edit_distance a' b' + (if decide (x = y) then 0 else 1))
           end) b
    end.

(** The value the dynamic program stores in cell [(i, j)]: the distance
    between the prefixes of lengths [i] and [j]. *)
Definition prefix_distance (a b : list A) (i j : nat) : nat :=
  edit_distance (take i a) (take j b).

(** Loop invariant of the dynamic program: the matrix has [length a + 1]
    rows of [length b + 1] cells, and every cell in the region [K] already
    holds its final value. *)
Definition filled (a b : list A) (K : nat → nat → Prop) (m : list (list nat)) : Prop :=
  length m = length a + 1 ∧
  (∀ i row, m !! i = Some row → length row = length b + 1) ∧
  (∀ i j, i ≤ length a → j ≤ length b → K i j →
          matrix_get m i j = prefix_distance a b i j).

End WithUnits.
End Levenshtein.

(** ** The other helpers of utils.js *)

Module VigilUtils.
Import Js.

(** [text.slice(0, limit)] for an integer [limit]: a negative [limit] counts
    from the end of the string. *)
Definition slice_to (limit : Z) (text : jsstring) : jsstring :=
  if decide (limit < 0)%Z then take (length text - Z.to_nat (- limit)) text
  else take (Z.to_nat limit) text.

(** [trunc(text, limit)] on a string and an integer limit. *)
Definition trunc (text : jsstring) (limit : Z) : jsstring :=
  if bool_decide (text = []) || bool_decide (Z.of_nat (length text) ≤ limit)%Z
  then text
  else slice_to limit text.

(** [normalizeScore(score, min, max)] *)
Definition normalizeScore (score min max : R) : R :=
  if decide (max = min) then 0%R
  else Rmin (Rmax ((score - min) / (max - min)) 0) 1.

End VigilUtils.

(** ** Detector results *)

Module Technique.
(** An entry of [manipulationTechniques]. *)
Record t : Type := { type : string; severity : Js.Level }.
End Technique.

Module RiskFactor.
(** An entry of the fingerprinter's [riskFactors]. *)
Record t : Type := { type : string; severity : Js.Level }.
End RiskFactor.

Module Typosquat.
(** The result of [advancedTyposquatAnalysis]; [distance = None] is the
    initial [Infinity]. *)
Record t : Type := {
  isTyposquat : bool;
  likelyTarget : option Js.jsstring;
  distance : option nat;
  technique : option string;
  confidence : R
}.
End Typosquat.

(** ** Domain reputation: the DomainReputation class *)

Module DomainReputation.
Import Js.

(** [this.commonDomains] *)
Definition commonDomains : list jsstring :=
  lit <$>
  [ "google"; "facebook"; "microsoft"; "apple"; "amazon"; "netflix"; "twitter";
    "instagram"; "linkedin"; "youtube"; "zoom"; "slack"; "dropbox"; "adobe";
    "paypal"; "chase"; "bankofamerica"; "wellsfargo"; "citibank"; "usbank";
    "capitalone"; "americanexpress"; "discover"; "visa"; "mastercard";
    "ebay"; "walmart"; "target"; "bestbuy"; "costco"; "etsy";
    "outlook"; "gmail"; "yahoo"; "protonmail"; "icloud";
    "coinbase"; "binance"; "kraken"; "blockchain"; "crypto";
    "irs"; "usps"; "fedex"; "ups"; "dhl" ]%string.

(** [this.suspiciousTLDs] *)
Definition suspiciousTLDs : list jsstring :=
  lit <$>
  [ ".tk"; ".ml"; ".ga"; ".cf"; ".gq";
    ".xyz"; ".top"; ".work"; ".click"; ".link";
    ".loan"; ".download"; ".racing"; ".accountant"; ".science";
    ".faith"; ".win"; ".bid"; ".cricket"; ".party" ]%string.

(** [domain.split(".")[0]] *)
Definition baseLabel (domain : jsstring) : jsstring :=
  hd [] (split_on 46 domain).

(** [identifyTyposquatTechnique(squat, target)] *)
Definition identifyTyposquatTechnique (squat target : jsstring) : string :=
  if decide (length squat = length target + 1) then "insertion"
  else if decide (length squat + 1 = length target) then "omission"
  else if decide (length squat = length target) then
    if existsb (λ i,
         bool_decide (squat !! i = target !! (i + 1)) &&
         bool_decide (squat !! (i + 1) = target !! i))
         (seq 0 (length target - 1))
    then "transposition" else "substitution"
  else "unknown".

(** The table of [checkCharacterSubstitution], in the order [Object.entries]
    lists it: the integer-like key '0' first, the others as written. *)
Definition substitutions : list (string * list string) :=
  [ ("0", ["o"]); ("l", ["1"; "i"]); ("i", ["l"; "1"]); ("o", ["0"]);
    ("s", ["5"; "$"]); ("a", ["@"]); ("e", ["3"]); ("g", ["9"]);
    ("b", ["8"]) ]%string.

Definition unit_of (s : string) : N := hd 0%N (lit s).

(** [checkCharacterSubstitution(squat, target)] *)
Definition checkCharacterSubstitution (squat target : jsstring) : bool :=
  existsb (λ entry : string * list string,
    let '(original, replacements) := entry in
    existsb (λ replacement,
      str_eqb squat (replace_all (unit_of original) (unit_of replacement) target))
      replacements)
    substitutions.

(** One iteration of the loop of [advancedTyposquatAnalysis]. *)
Definition typosquatStep (baseDomain : jsstring) (results : Typosquat.t)
    (target : jsstring) : Typosquat.t :=
  let distance := Levenshtein.levenshteinDistance baseDomain target in
  let results :=
    if bool_decide (distance ≤ 2) &&
       match Typosquat.distance results with
       | None => true
       | Some d => bool_decide (distance < d)
       end
    then
      {| Typosquat.isTyposquat := true;
         Typosquat.likelyTarget := Some target;
         Typosquat.distance := Some distance;
         Typosquat.technique :=
           if decide (distance = 1)
           then Some (identifyTyposquatTechnique baseDomain target)
           else Typosquat.technique results;
         Typosquat.confidence :=
           (1 - INR distance / INR (length baseDomain `max` length target))%R |}
    else results in
  let results :=
    if checkCharacterSubstitution baseDomain target then
      {| Typosquat.isTyposquat := true;
         Typosquat.likelyTarget := Some target;
         Typosquat.distance := Typosquat.distance results;
         Typosquat.technique := Some "character_substitution"%string;
         Typosquat.confidence := 0.9%R |}
    else results in
  if includes baseDomain target && negb (str_eqb baseDomain target) then
    {| Typosquat.isTyposquat := true;
       Typosquat.likelyTarget := Some target;
       Typosquat.distance := Typosquat.distance results;
       Typosquat.technique := Some "combosquatting"%string;
       Typosquat.confidence := 0.85%R |}
  else results.

(** [advancedTyposquatAnalysis(domain)] *)
Definition advancedTyposquatAnalysis (domain : jsstring) : Typosquat.t :=
  let baseDomain := baseLabel domain in
  foldl (typosquatStep baseDomain)
    {| Typosquat.isTyposquat := false;
       Typosquat.likelyTarget := None;
       Typosquat.distance := None;
       Typosquat.technique := None;
       Typosquat.confidence := 0%R |}
    commonDomains.

(** [analyzeTyposquatting(domain)] *)
Definition analyzeTyposquatting (domain : jsstring) : bool :=
  let base := baseLabel domain in
  existsb (λ common,
    let distance := Levenshtein.levenshteinDistance base common in
    bool_decide (0 < distance) && bool_decide (distance ≤ 2))
    commonDomains.

(** ASCII letters compared without case, as a regular expression with the
    [i] flag compares them. *)
Definition fold_ascii (u : N) : N :=
  if (65 <=? u)%N && (u <=? 90)%N then (u + 32)%N else u.

Definition endsWith_ci (s suffix : jsstring) : bool :=
  startsWith (reverse (fold_ascii <$> s)) (reverse suffix).

(** The result of [analyzeTLD]: [tld] is [None] for [null]. *)
Record TLDAnalysis : Type := {
  tld : option jsstring;
  tld_suspicious : bool;
  tld_risk : Level;
  tld_reason : option string
}.

(** [parts.slice(-k).join(".")] *)
Definition join_dots (parts : list jsstring) : jsstring :=
  match parts with
  | [] => []
  | p :: ps => foldl (λ acc q, acc ++ [46%N] ++ q) p ps
  end.

Definition last_parts (k : nat) (parts : list jsstring) : list jsstring :=
  drop (length parts - k) parts.

(** [analyzeTLD(domain)] *)
Definition analyzeTLD (domain : jsstring) : TLDAnalysis :=
  let parts := split_on 46 domain in
  if decide (length parts < 2) then
    {| tld := None; tld_suspicious := false; tld_risk := low; tld_reason := None |}
  else
    let tld := 46%N :: join_dots (last_parts 1 parts) in
    let secondLevel :=
      if decide (2 < length parts) then 46%N :: join_dots (last_parts 2 parts)
      else tld in
    let listed :=
      bool_decide (toLowerCase secondLevel ∈ suspiciousTLDs) ||
      bool_decide (toLowerCase tld ∈ suspiciousTLDs) in
    (* /\.(tk|ml|ga|cf|gq)$/i.test(domain) *)
    let free :=
      existsb (λ t, endsWith_ci domain (lit t))
        [".tk"; ".ml"; ".ga"; ".cf"; ".gq"]%string in
    {| tld := Some secondLevel;
       tld_suspicious := listed || free;
       tld_risk := if listed || free then high else low;
       tld_reason :=
         if free then Some "Free domain service often abused"%string
         else if listed then Some "TLD commonly used in phishing/spam"%string
         else None |}.

(** [fallbackRisk(domain)] *)
Definition fallbackRisk (domain : jsstring) : R :=
  let base := 20%R in
  let base := if analyzeTyposquatting domain then (base + 40)%R else base in
  let base := if includes domain (lit "-") then (base + 10)%R else base in
  let base := if tld_suspicious (analyzeTLD domain) then (base + 30)%R else base in
  Rmin base 100.

(** An entry of [impersonation.brands]. *)
Record BrandHit : Type := {
  brand_name : jsstring;
  brand_position : string;
  brand_confidence : R
}.

Record BrandImpersonation : Type := {
  brand_detected : bool;
  brands : list BrandHit;
  impersonation_confidence : R
}.

(** [Math.max(...xs)] for a non-empty [xs]. *)
Definition Math_max_list (xs : list R) : R :=
  match xs with
  | [] => 0%R
  | x :: xs' => foldl Rmax x xs'
  end.

(** [detectBrandImpersonation(domain)] *)
Definition detectBrandImpersonation (domain : jsstring) : BrandImpersonation :=
  let baseDomain := toLowerCase (baseLabel domain) in
  let brands :=
    foldl (λ brands brand,
      let brands :=
        if includes baseDomain brand && negb (str_eqb baseDomain brand)
        then brands ++ [{| brand_name := brand; brand_position := "base_domain";
                           brand_confidence := 0.8%R |}]
        else brands in
      if includes baseDomain (brand ++ lit "-") || includes baseDomain (lit "-" ++ brand)
      then brands ++ [{| brand_name := brand; brand_position := "hyphenated";
                         brand_confidence := 0.9%R |}]
      else brands) [] commonDomains in
  {| brand_detected := bool_decide (brands ≠ []);
     brands := brands;
     impersonation_confidence :=
       if decide (0 < length brands)
       then Math_max_list (brand_confidence <$> brands) else 0%R |}.

Definition is_digit (u : N) : bool := (48 <=? u)%N && (u <=? 57)%N.

(** [/[aeiou]/i] on one code unit. *)
Definition is_vowel (u : N) : bool :=
  bool_decide (fold_ascii u ∈ [97; 101; 105; 111; 117]%N).

(** [looksRandom(str)]: [0 / 0] is [NaN], which compares false. *)
Definition looksRandom (str : jsstring) : bool :=
  let vowels := length (filter (λ u, is_vowel u = true) str) in
  match length str with
  | O => false
  | len =>
      let vowelRatio := (INR vowels / INR len)%R in
      bool_decide (vowelRatio < 0.2)%R || bool_decide (vowelRatio > 0.6)%R
  end.

Record SuspiciousPatterns : Type := {
  hasNumbers : bool;
  hasHyphens : bool;
  excessiveHyphens : bool;
  allNumbers : bool;
  randomLooking : bool;
  shortDomain : bool;
  suspicionScore : R
}.

(** [detectSuspiciousPatterns(domain)] *)
Definition detectSuspiciousPatterns (domain : jsstring) : SuspiciousPatterns :=
  let base := baseLabel domain in
  let hasNumbers := existsb is_digit domain in                   (* /\d/ *)
  let hasHyphens := existsb (unit_eqb 45) domain in              (* /-/ *)
  let excessiveHyphens :=
    bool_decide (2 < length (filter (λ u, u = 45%N) domain)) in
  let allNumbers := bool_decide (base ≠ []) && forallb is_digit base in  (* /^\d+$/ *)
  let randomLooking := looksRandom base in
  let shortDomain := bool_decide (length base < 4) in
  {| hasNumbers := hasNumbers; hasHyphens := hasHyphens;
     excessiveHyphens := excessiveHyphens; allNumbers := allNumbers;
     randomLooking := randomLooking; shortDomain := shortDomain;
     suspicionScore :=
       ((if excessiveHyphens then 0.3 else 0) +
        (if allNumbers then 0.4 else 0) +
        (if randomLooking then 0.2 else 0) +
        (if shortDomain && hasNumbers then 0.1 else 0))%R |}.

(** The part of [performAdvancedAnalysis(domain, response)] that carries
    scores; the age, sub-domain, homoglyph and entropy notes are advisory
    text and are left out. *)
Record AdvancedAnalysis : Type := {
  typosquatting : Typosquat.t;
  suspiciousTLD : TLDAnalysis;
  brandImpersonation : BrandImpersonation;
  patternMatching : SuspiciousPatterns
}.

Definition performAdvancedAnalysis (domain : jsstring) : AdvancedAnalysis :=
  {| typosquatting := advancedTyposquatAnalysis domain;
     suspiciousTLD := analyzeTLD domain;
     brandImpersonation := detectBrandImpersonation domain;
     patternMatching := detectSuspiciousPatterns domain |}.

(** The result of [checkDomain]; [advancedAnalysis] is [None] for the empty
    object of the local-host result. *)
Record DomainResult : Type := {
  domain : jsstring;
  riskScore : R;
  advancedAnalysis : option AdvancedAnalysis
}.

(** What the service worker's answer to REQUEST_DOMAIN_REPUTATION amounts
    to: a computed risk, an answer without one, or a failed exchange. *)
Inductive Response : Type :=
| ComputedRisk (computedRisk : R)
| NoComputedRisk
| SendFailed.

(** [/^\d+\.\d+\.\d+\.\d+$/.test(domain)] *)
Definition is_ipv4 (domain : jsstring) : bool :=
  let parts := split_on 46 domain in
  bool_decide (length parts = 4) &&
  forallb (λ p, bool_decide (p ≠ []) && forallb is_digit p) parts.

(** [checkDomain(domain)] for a domain that is not in the result cache. *)
Definition checkDomain (domain : jsstring) (response : Response) : DomainResult :=
  if bool_decide (domain = []) || str_eqb domain (lit "localhost") || is_ipv4 domain
  then {| domain := domain; riskScore := 0%R; advancedAnalysis := None |}
  else
    match response with
    | ComputedRisk computedRisk =>
        {| domain := domain; riskScore := computedRisk;
           advancedAnalysis := Some (performAdvancedAnalysis domain) |}
    | NoComputedRisk | SendFailed =>
        {| domain := domain; riskScore := fallbackRisk domain;
           advancedAnalysis := Some (performAdvancedAnalysis domain) |}
    end.

(** [calculateEntropy(str)]: the counts of the characters, one per distinct
    character, and the sum over them; no iteration for the empty string.  A
    host name is ASCII: its code points are its code units. *)
Definition calculateEntropy (str : jsstring) : R :=
  let counts := (λ u, length (filter (λ v, v = u) str)) <$> dedupe str in
  let len := INR (length str) in
  foldl (λ entropy count,
    let p := (INR count / len)%R in
    (entropy - p * (ln p / ln 2))%R) 0%R counts.

(** The result of [analyzeEntropy]; the [note] follows the assessment. *)
Record EntropyAnalysis : Type := {
  entropy_value : R;
  assessment : Level
}.

(** [analyzeEntropy(domain)] *)
Definition analyzeEntropy (domain : jsstring) : EntropyAnalysis :=
  let baseDomain := baseLabel domain in
  let entropy := calculateEntropy baseDomain in
  {| entropy_value := toFixed 3 entropy;
     assessment :=
       if decide (entropy > 4.5)%R then high
       else if decide (entropy > 3.5)%R then medium else low |}.

(** *** The result cache *)

(** An entry of [this.domainCache]. *)
Record Cached : Type := {
  cached_result : DomainResult;
  cached_timestamp : Z
}.

(** [this.cacheExpiry]: 30 minutes, in milliseconds. *)
Definition cacheExpiry : Z := 1000 * 60 * 30.

(** [getCachedResult(domain)] at time [now]: the result, if a fresh one is
    cached, and the cache, from which a stale entry is deleted. *)
Definition getCachedResult (domainCache : gmap (list N) Cached)
    (domain : jsstring) (now : Z) : option DomainResult * gmap (list N) Cached :=
  match domainCache !! domain with
  | Some cached =>
      if decide (now - cached_timestamp cached < cacheExpiry)%Z
      then (Some (cached_result cached), domainCache)
      else (None, delete domain domainCache)
  | None => (None, domainCache)
  end.

(** [cacheResult(domain, result)] at time [now] *)
Definition cacheResult (domainCache : gmap (list N) Cached)
    (domain : jsstring) (result : DomainResult) (now : Z) : gmap (list N) Cached :=
  <[domain := {| cached_result := result; cached_timestamp := now |}]> domainCache.

(** [checkDomain(domain)] with its cache: the call starts at time [asked]
    and the service worker's answer, if one is requested, arrives at time
    [answered].  The results for a local host and for an answer without a
    computed risk are not cached. *)
Definition checkDomainThroughCache (domainCache : gmap (list N) Cached)
    (domain : jsstring) (asked answered : Z) (response : Response)
  : DomainResult * gmap (list N) Cached :=
  if bool_decide (domain = []) || str_eqb domain (lit "localhost") || is_ipv4 domain
  then (checkDomain domain response, domainCache)
  else
    match getCachedResult domainCache domain asked with
    | (Some cached, domainCache) => (cached, domainCache)
    | (None, domainCache) =>
        let result := checkDomain domain response in
        match response with
        | ComputedRisk _ | SendFailed =>
            (result, cacheResult domainCache domain result answered)
        | NoComputedRisk => (result, domainCache)
        end
    end.

End DomainReputation.

(** ** The background service worker (serviceWorker.js) *)

Module ServiceWorker.
Import Js.

(** What a call yields: a value, or a thrown [TypeError]. *)
Inductive Outcome (A : Type) : Type :=
| Returned (value : A)
| TypeError (message : string).
Arguments Returned {A} value.
Arguments TypeError {A} message.

(** [computeTyposquat(domain)] *)
Definition computeTyposquat (domain : jsstring) : R :=
  let referenceDomains :=
    lit <$> ["google"; "facebook"; "microsoft"; "apple"; "amazon";
             "bankofamerica"; "wellsfargo"; "paypal"]%string in
  let name := hd [] (split_on 46 domain) in
  let best :=
    foldl (λ best ref,
      let distance := Levenshtein.levenshtein name ref in
      let normalized :=
        (INR distance / INR ((length name `max` length ref) `max` 1))%R in
      Rmin best normalized) 1%R referenceDomains in
  (1 - best)%R.

(** The occurrence counts of [domainEntropy], one per distinct code unit. *)
Definition char_counts (s : jsstring) : list nat :=
  (λ u, length (filter (λ v, v = u) s)) <$> dedupe s.

Definition log2 (x : R) : R := (ln x / ln 2)%R.

(** [domainEntropy(domain)].  A host name is ASCII, so iterating over its
    code points is iterating over its code units. *)
Definition domainEntropy (domain : jsstring) : R :=
  let len := match length domain with O => 1 | n => n end in
  let entropy :=
    foldl (λ entropy count,
      let p := (INR count / INR len)%R in
      (entropy - p * log2 p)%R) 0%R (char_counts domain) in
  toFixed 2 entropy.

Record LocalSignals : Type := {
  typosquatLikelihood : R;
  entropy : R;
  isPunycode : bool;
  parts : list jsstring
}.

(** [buildLocalSignals(domain)] *)
Definition buildLocalSignals (domain : jsstring) : LocalSignals :=
  {| typosquatLikelihood := computeTyposquat domain;
     entropy := domainEntropy domain;
     isPunycode := startsWith domain (lit "xn--");
     parts := split_on 46 domain |}.

(** What [queryVirusTotal] returns: the analysis statistics, or an object
    with only an [error] field. *)
Inductive VtResult : Type :=
| VtStats (harmless malicious suspicious : nat)
| VtError (error : string).

(** What [querySafeBrowsing] returns: the response body, whose [matches]
    array is absent when nothing matched, or an object with only an [error]
    field. *)
Inductive GsbResult : Type :=
| GsbBody (matches : option nat)
| GsbError (error : string).

(** The remote-signal bundle of [fetchRemoteSignals]; a feed that was not
    queried is [null] ([None]). *)
Record RemoteSignals : Type := {
  vtResult : option VtResult;
  gsbResult : option GsbResult
}.

(** [remoteSignals.vtResult?.malicious > 0] *)
Definition vt_flagged (vt : option VtResult) : bool :=
  match vt with
  | Some (VtStats _ malicious _) => bool_decide (0 < malicious)
  | Some (VtError _) | None => false
  end.

(** [remoteSignals.gsbResult?.matches?.length], as a condition *)
Definition gsb_flagged (gsb : option GsbResult) : bool :=
  match gsb with
  | Some (GsbBody (Some n)) => bool_decide (n ≠ 0)
  | Some (GsbBody None) | Some (GsbError _) | None => false
  end.

(** [scoreDomainRisk(localSignals, remoteSignals)].  The remote bundle is
    [None] for [null] or [undefined]: reading [remoteSignals.vtResult] then
    throws, after the three local tests. *)
Definition scoreDomainRisk (localSignals : LocalSignals)
    (remoteSignals : option RemoteSignals) : Outcome R :=
  let score := 0%R in
  let score :=
    if decide (typosquatLikelihood localSignals > 0.6)%R then (score + 35)%R else score in
  let score :=
    if decide (entropy localSignals > 4)%R then (score + 15)%R else score in
  let score := if isPunycode localSignals then (score + 25)%R else score in
  match remoteSignals with
  | None => TypeError "Cannot read properties of null (reading 'vtResult')"
  | Some remote =>
      let score := if vt_flagged (vtResult remote) then (score + 30)%R else score in
      let score := if gsb_flagged (gsbResult remote) then (score + 30)%R else score in
      Returned (Rmin score 100)
  end.

(** [fetchRemoteSignals(domain)], given which API keys are stored and what
    the two feeds answer: always an object. *)
Definition fetchRemoteSignals (vtApiKey gsbApiKey : bool)
    (vtAnswer : VtResult) (gsbAnswer : GsbResult) : RemoteSignals :=
  {| vtResult := if vtApiKey then Some vtAnswer else None;
     gsbResult := if gsbApiKey then Some gsbAnswer else None |}.

(** [resolveDomainReputation(domain)] for a domain that is not in the
    cache, as the content script receives it; a cached answer is one this
    function stored less than an hour earlier. *)
Definition resolveDomainReputation (domain : jsstring) (vtApiKey gsbApiKey : bool)
    (vtAnswer : VtResult) (gsbAnswer : GsbResult) : DomainReputation.Response :=
  if bool_decide (domain = []) then DomainReputation.NoComputedRisk
  else
    let localSignals := buildLocalSignals domain in
    let remoteSignals := fetchRemoteSignals vtApiKey gsbApiKey vtAnswer gsbAnswer in
    match scoreDomainRisk localSignals (Some remoteSignals) with
    | Returned computedRisk => DomainReputation.ComputedRisk computedRisk
    | TypeError _ => DomainReputation.SendFailed
    end.

(** The bundle when no API key is stored: both feeds absent. *)
Definition absentFeeds : RemoteSignals :=
  {| vtResult := None; gsbResult := None |}.

(** A bundle without feed hits: no vendor flags the domain and Safe
    Browsing reports no match. *)
Definition no_feed_hits (remote : RemoteSignals) : Prop :=
  vt_flagged (vtResult remote) = false ∧ gsb_flagged (gsbResult remote) = false.

(** The local contribution to the score. *)
Definition localContribution (localSignals : LocalSignals) : R :=
  ((if decide (typosquatLikelihood localSignals > 0.6)%R then 35 else 0) +
   (if decide (entropy localSignals > 4)%R then 15 else 0) +
   (if isPunycode localSignals then 25 else 0))%R.

(** The local signals of a look-alike of a reference domain. *)
Definition lookalikeSignals : LocalSignals :=
  {| typosquatLikelihood := (8 / 9)%R; entropy := 3.19%R; isPunycode := false;
     parts := [lit "micros0ft"; lit "com"] |}.

(** The [referenceDomains] of [computeTyposquat]. *)
Definition referenceDomains : list jsstring :=
  lit <$> ["google"; "facebook"; "microsoft"; "apple"; "amazon";
           "bankofamerica"; "wellsfargo"; "paypal"]%string.

(** The [data] object [resolveDomainReputation] answers with. *)
Record ReputationData : Type := {
  data_domain : jsstring;
  data_localSignals : LocalSignals;
  data_remoteSignals : RemoteSignals;
  data_computedRisk : R
}.

(** [resolveDomainReputation(domain)] for a domain that is not in the
    cache: the whole answer, [None] for [{ error: "No domain provided." }]. *)
Definition reputationData (domain : jsstring) (vtApiKey gsbApiKey : bool)
    (vtAnswer : VtResult) (gsbAnswer : GsbResult) : option ReputationData :=
  if bool_decide (domain = []) then None
  else
    let localSignals := buildLocalSignals domain in
    let remoteSignals := fetchRemoteSignals vtApiKey gsbApiKey vtAnswer gsbAnswer in
    match scoreDomainRisk localSignals (Some remoteSignals) with
    | Returned computedRisk =>
        Some {| data_domain := domain; data_localSignals := localSignals;
                data_remoteSignals := remoteSignals;
                data_computedRisk := computedRisk |}
    | TypeError _ => None
    end.

(** *** The feedback queue *)

(** An entry of [feedbackQueue]: the feedback with the time it was queued
    (the extension's version, a constant, is left out). *)
Record QueuedFeedback (F : Type) : Type := {
  feedback : F;
  queuedAt : Z
}.
Arguments feedback {F} _.
Arguments queuedAt {F} _.

(** [xs.slice(-n)]: the last [n] elements. *)
Definition slice_last {X : Type} (n : nat) (xs : list X) : list X :=
  drop (length xs - n) xs.

(** [handleFeedback(feedback)] at time [now], when the storage works: the
    queue written back and the [queued] count of the answer.  The stored
    queue is [None] when the key is absent. *)
Definition handleFeedback {F : Type} (stored : option (list (QueuedFeedback F)))
    (fb : F) (now : Z) : list (QueuedFeedback F) * nat :=
  let feedbackQueue := default [] stored in
  let feedbackQueue := feedbackQueue ++ [{| feedback := fb; queuedAt := now |}] in
  let trimmed := slice_last 100 feedbackQueue in
  (trimmed, length trimmed).

(** A sequence of feedback messages handled one after the other, starting
    with no stored queue. *)
Definition feedbackSession {F : Type} (messages : list (F * Z))
  : option (list (QueuedFeedback F)) :=
  foldl (λ stored message,
    Some (handleFeedback stored message.1 message.2).1) None messages.

(** *** The assessments of the tabs *)

(** The badge of [BADGE_SETTINGS]: text and colour. *)
Definition BADGE_SETTINGS (level : option Level) : string * string :=
  match level with
  | Some low => ("OK", "#2e7d32")
  | Some medium => ("!", "#f9a825")
  | Some high => ("!!", "#c62828")
  | Some critical | None => ("", "#4a4a4a")
  end%string.

(** The stored assessment of a tab: the payload, the tab and the time. *)
Record Enriched (P : Type) : Type := {
  payload : P;
  enriched_tabId : Z;
  lastUpdated : Z
}.
Arguments payload {P} _.
Arguments enriched_tabId {P} _.
Arguments lastUpdated {P} _.

(** The state the handlers share: the [tabAssessments] map, the
    [assessment:<tabId>] keys of [chrome.storage.local], and the badge of
    each tab. *)
Record Tabs (P : Type) : Type := {
  tabAssessments : gmap Z (Enriched P);
  stored : gmap Z (Enriched P);
  badges : gmap Z (string * string)
}.
Arguments tabAssessments {P} _.
Arguments stored {P} _.
Arguments badges {P} _.

(** [applyBadgeState(tabId, level)]; a level that is no key of
    [BADGE_SETTINGS] is [None]. *)
Definition applyBadgeState {P : Type} (tabId : Z) (level : option Level)
    (tabs : Tabs P) : Tabs P :=
  {| tabAssessments := tabAssessments tabs; stored := stored tabs;
     badges := <[tabId := BADGE_SETTINGS level]> (badges tabs) |}.

(** [handleDetectionResult(payload, tabId)] at time [now].  The tab is
    [None] when the sender has none, the payload when it is missing;
    a tab id of 0 is falsy as well. *)
Definition handleDetectionResult {P : Type} (riskLevel : P → option Level)
    (message : option P) (tabId : option Z) (now : Z) (tabs : Tabs P) : Tabs P :=
  match tabId, message with
  | Some tabId, Some body =>
      if decide (tabId = 0)%Z then tabs
      else
        let enriched :=
          {| payload := body; enriched_tabId := tabId; lastUpdated := now |} in
        applyBadgeState tabId (riskLevel body)
          {| tabAssessments := <[tabId := enriched]> (tabAssessments tabs);
             stored := <[tabId := enriched]> (stored tabs);
             badges := badges tabs |}
  | _, _ => tabs
  end.

(** [getAssessmentForTab(tabId)]: the answer and the state, whose map may
    have been filled from the storage. *)
Definition getAssessmentForTab {P : Type} (tabId : option Z) (tabs : Tabs P)
  : option (Enriched P) * Tabs P :=
  match tabId with
  | None => (None, tabs)
  | Some tabId =>
      if decide (tabId = 0)%Z then (None, tabs)
      else
        match tabAssessments tabs !! tabId with
        | Some assessment => (Some assessment, tabs)
        | None =>
            match stored tabs !! tabId with
            | Some assessment =>
                (Some assessment,
                 {| tabAssessments := <[tabId := assessment]> (tabAssessments tabs);
                    stored := stored tabs; badges := badges tabs |})
            | None => (None, tabs)
            end
        end
  end.

(** The listener of [chrome.tabs.onRemoved]. *)
Definition onRemoved {P : Type} (tabId : Z) (tabs : Tabs P) : Tabs P :=
  {| tabAssessments := delete tabId (tabAssessments tabs);
     stored := delete tabId (stored tabs);
     badges := badges tabs |}.

(** The listener of [chrome.tabs.onActivated]. *)
Definition onActivated {P : Type} (riskLevel : P → option Level) (tabId : Z)
    (tabs : Tabs P) : Tabs P :=
  let '(assessment, tabs) := getAssessmentForTab (Some tabId) tabs in
  applyBadgeState tabId (assessment ≫= λ a, riskLevel (payload a)) tabs.

(** What the service worker does with its tabs.  The handlers are
    asynchronous; an event is handled here when the handler of the one
    before has run to its end. *)
Inductive TabEvent (P : Type) : Type :=
| DetectionResult (message : option P) (tabId : option Z) (now : Z)
| GetTabAssessment (tabId : option Z)
| Removed (tabId : Z)
| Activated (tabId : Z).
Arguments DetectionResult {P} _ _ _.
Arguments GetTabAssessment {P} _.
Arguments Removed {P} _.
Arguments Activated {P} _.

Definition tabStep {P : Type} (riskLevel : P → option Level) (tabs : Tabs P)
    (event : TabEvent P) : Tabs P :=
  match event with
  | DetectionResult message tabId now =>
      handleDetectionResult riskLevel message tabId now tabs
  | GetTabAssessment tabId => (getAssessmentForTab tabId tabs).2
  | Removed tabId => onRemoved tabId tabs
  | Activated tabId => onActivated riskLevel tabId tabs
  end.

(** The state when the service worker starts: an empty map, and whatever
    the storage holds. *)
Definition startTabs {P : Type} (storage : gmap Z (Enriched P)) : Tabs P :=
  {| tabAssessments := ∅; stored := storage; badges := ∅ |}.

End ServiceWorker.

(** ** The explanation of a domain's score (DomainReputation) *)

Module RiskBreakdown.
Import Js ServiceWorker.

(** An entry of [localFactors] or [remoteFactors]; the [evidence] text is
    left out. *)
Record Factor : Type := {
  factor : string;
  contribution : R
}.

Record t : Type := {
  localFactors : list Factor;
  remoteFactors : list Factor;
  totalScore : R
}.

(** [createRiskBreakdown(response, domain)] for a response that carries its
    signals. *)
Definition createRiskBreakdown (response : ReputationData) : t :=
  let localSignals := data_localSignals response in
  let remoteSignals := data_remoteSignals response in
  let localFactors := [] in
  let localFactors :=
    if decide (typosquatLikelihood localSignals > 0.6)%R
    then localFactors ++ [{| factor := "Typosquatting"; contribution := 35%R |}]
    else localFactors in
  let localFactors :=
    if decide (entropy localSignals > 4)%R
    then localFactors ++ [{| factor := "High Entropy"; contribution := 15%R |}]
    else localFactors in
  let localFactors :=
    if isPunycode localSignals
    then localFactors ++ [{| factor := "Punycode"; contribution := 25%R |}]
    else localFactors in
  let remoteFactors := [] in
  let remoteFactors :=
    if vt_flagged (vtResult remoteSignals)
    then remoteFactors ++ [{| factor := "VirusTotal"; contribution := 30%R |}]
    else remoteFactors in
  let remoteFactors :=
    if gsb_flagged (gsbResult remoteSignals)
    then remoteFactors ++ [{| factor := "Google Safe Browsing"; contribution := 30%R |}]
    else remoteFactors in
  {| localFactors := localFactors; remoteFactors := remoteFactors;
     totalScore := data_computedRisk response |}.

End RiskBreakdown.

(** ** Prompt-injection scanning: the JailbreakDetector class *)

Module JailbreakDetector.
Import Js.

(** A category of [this.patterns].  A pattern is only ever used through
    [text.match(pattern)], which does not read [lastIndex] and leaves it at 0
    (see [Js.str_match]), so the table holds the expressions themselves. *)
Record Category : Type := {
  name : string;
  patterns : list Regex;
  severity : Level;
  weight : R
}.

Definition gi (source : string) : Regex := {| source := source; flags := "gi" |}.

(** [this.patterns], in the order of its keys. *)
Definition patternTable : list Category :=
  [ {| name := "instructionOverride";
       patterns :=
         [ gi "ignore\s+(?:all\s+)?(?:previous|prior|above|system)\s+(?:instructions|prompts|commands|rules)";
           gi "disregard\s+(?:previous|prior|all)\s+(?:instructions|prompts)";
           gi "forget\s+(?:everything|all|previous|instructions)";
           gi "override\s+(?:system|default|previous)\s+(?:settings|instructions|prompts)" ];
       severity := critical; weight := 0.3%R |};
    {| name := "rolePlay";
       patterns :=
         [ gi "(?:you are now|act as|pretend to be|role[\-\s]?play as)\s+(?:a |an )?(?:jailbroken|unrestricted|unfiltered)";
           gi "(?:DAN|developer mode|god mode|sudo mode|admin mode)";
           gi "in this (?:hypothetical|fictional) scenario";
           gi "(?:enable|activate|switch to)\s+(?:developer|debug|admin|god|sudo)\s+mode" ];
       severity := critical; weight := 0.25%R |};
    {| name := "promptExtraction";
       patterns :=
         [ gi "(?:show|reveal|display|output|print)\s+(?:your|the)\s+(?:system\s+)?(?:prompt|instructions|rules)";
           gi "what\s+(?:are|were)\s+your\s+(?:initial|original|system)\s+(?:instructions|prompts)";
           gi "repeat\s+your\s+(?:instructions|system prompt|rules)" ];
       severity := critical; weight := 0.25%R |};
    {| name := "delimiterInjection";
       patterns :=
         [ gi "\[SYSTEM\]|\[INST\]|\[\/INST\]|<\|endoftext\|>|<\|im_start\|>|<\|im_end\|>";
           gi "```system|```assistant|```user";
           gi "<system>|<\/system>|<assistant>|<\/assistant>" ];
       severity := critical; weight := 0.30%R |};
    {| name := "hypotheticalScenarios";
       patterns :=
         [ gi "imagine\s+(?:a scenario|you are|we are in a world)";
           gi "in\s+a\s+(?:hypothetical|fictional|alternate)\s+(?:world|universe|scenario|reality)";
           gi "let's\s+(?:pretend|assume|say)\s+(?:that|for|you)" ];
       severity := medium; weight := 0.15%R |};
    {| name := "encodingAttempts";
       patterns :=
         [ gi "base64|rot13|hex|unicode|url[\-\s]?encode";
           gi "\\x[0-9a-f]{2}|\\u[0-9a-f]{4}";
           gi "%[0-9a-f]{2}" ];
       severity := high; weight := 0.20%R |};
    {| name := "reversePsychology";
       patterns :=
         [ gi "(?:don't|do not)\s+(?:tell|say|mention|think about)";
           gi "i\s+(?:bet|guarantee)\s+you\s+(?:can't|cannot|won't)";
           gi "you're\s+(?:not\s+allowed|forbidden|prohibited)\s+to" ];
       severity := low; weight := 0.10%R |};
    {| name := "contextManipulation";
       patterns :=
         [ gi "reset\s+(?:context|conversation|memory)";
           gi "clear\s+(?:history|context|memory)";
           gi "start\s+(?:over|fresh|new)";
           gi "new\s+(?:session|conversation|context)" ];
       severity := medium; weight := 0.15%R |} ]%string.

(** [this.scriptBehaviors] *)
Definition eventHandlers : list string :=
  ["onerror"; "onload"; "onclick"; "onmouseover"; "onfocus"]%string.
Definition suspiciousAttributes : list string :=
  ["data-instructions"; "data-prompt"; "data-system"]%string.

(** [compareSeverity(sev1, sev2)] *)
Definition severityLevel (s : Level) : Z :=
  match s with low => 1 | medium => 2 | high => 3 | critical => 4 end.
Definition compareSeverity (sev1 sev2 : Level) : Z :=
  (severityLevel sev1 - severityLevel sev2)%Z.

(** The result of [performHeuristicAnalysis]. *)
Record Heuristics : Type := {
  suspicious : bool;
  suspicionScore : R;
  flags : list string
}.

(** [performHeuristicAnalysis(text)] *)
Definition performHeuristicAnalysis (E : Engine) (text : jsstring) : Heuristics :=
  let h := {| suspicious := false; suspicionScore := 0%R; flags := [] |} in
  let h :=
    if decide (2 < count E "[A-Za-z0-9+/]{20,}={0,2}" "g" text)
    then {| suspicious := true; suspicionScore := (suspicionScore h + 0.5)%R;
            flags := flags h ++ ["Multiple base64-like strings"%string] |}
    else h in
  let h :=
    if decide (5 < count E "\\[xun][0-9a-f]{2,4}" "gi" text)
    then {| suspicious := true; suspicionScore := (suspicionScore h + 0.3)%R;
            flags := flags h ++ ["Excessive escape sequences"%string] |}
    else h in
  let h :=
    if decide (2 < count E "\b(execute|run|eval|compile|interpret|process)\s+" "gi" text)
    then {| suspicious := true; suspicionScore := (suspicionScore h + 0.4)%R;
            flags := flags h ++ ["Instruction-like commands"%string] |}
    else h in
  if includes text (lit "###") || includes text (lit "User:")
     || includes text (lit "Assistant:")
  then {| suspicious := true; suspicionScore := (suspicionScore h + 0.6)%R;
          flags := flags h ++ ["Prompt-like structure"%string] |}
  else h.

(** A value of the [patterns] object of a node analysis: a matched category,
    or, under the key "heuristics", the heuristic findings. *)
Inductive PatternEntry : Type :=
| Matched (matches : list jsstring) (severity : Level) (weight : R)
| HeuristicFindings (heuristics : Heuristics).

(** The result of [analyzeNode]; the [matches] contexts, excerpts of the text
    around each match, are left out. *)
Record NodeAnalysis : Type := {
  source : string;
  hits : R;
  maxSeverity : Level;
  nodePatterns : list (string * PatternEntry)
}.

(** A DOM node as [analyzeNode] reads it. *)
Record Node : Type := {
  isScript : bool;
  textContent : jsstring;
  innerHTML : jsstring;
  getAttribute : string → option jsstring
}.

(** [node.textContent || node.innerHTML || ''], or the attribute's value *)
Definition nodeText (node : Node) (sourceTag : string) : jsstring :=
  if isScript node then
    if bool_decide (textContent node ≠ []) then textContent node else innerHTML node
  else default [] (getAttribute node sourceTag).

(** The body of the loop over the pattern categories. *)
Definition analyzeCategory (E : Engine) (text : jsstring)
    (result : NodeAnalysis) (config : Category) : NodeAnalysis :=
  let '(categoryMatches, result) :=
    foldl (λ (acc : list jsstring * NodeAnalysis) pattern,
      let '(categoryMatches, result) := acc in
      let matches := match_all E pattern text in
      if decide (0 < length matches) then
        (categoryMatches ++ matches,
         {| source := source result;
            hits := (hits result + INR (length matches))%R;
            maxSeverity :=
              if decide (0 < compareSeverity (severity config) (maxSeverity result))%Z
              then severity config else maxSeverity result;
            nodePatterns := nodePatterns result |})
      else acc) ([], result) (patterns config) in
  if decide (0 < length categoryMatches) then
    {| source := source result; hits := hits result;
       maxSeverity := maxSeverity result;
       nodePatterns :=
         nodePatterns result ++
         [(name config, Matched (dedupe categoryMatches) (severity config) (weight config))] |}
  else result.

(** [analyzeNode(node, source)] *)
Definition analyzeNode (E : Engine) (node : Node) (sourceTag : string) : NodeAnalysis :=
  let result :=
    {| source := sourceTag; hits := 0%R; maxSeverity := low; nodePatterns := [] |} in
  let text := nodeText node sourceTag in
  if bool_decide (text = []) then result
  else
    let result := foldl (analyzeCategory E text) result patternTable in
    let heuristics := performHeuristicAnalysis E text in
    if suspicious heuristics then
      {| source := source result;
         hits := (hits result + suspicionScore heuristics)%R;
         maxSeverity := maxSeverity result;
         nodePatterns :=
           nodePatterns result ++ [("heuristics"%string, HeuristicFindings heuristics)] |}
    else result.

(** The [results] object of [scanPage]. *)
Record Results : Type := {
  totalHits : R;
  criticalHits : nat;
  detections : list NodeAnalysis;
  riskScore : R
}.

(** [calculateRiskScore(results)] *)
Definition calculateRiskScore (results : Results) : R :=
  let score := 0%R in
  let score := (score + Rmin (totalHits results * 15) 50)%R in
  let score := (score + INR (criticalHits results) * 30)%R in
  let score :=
    foldl (λ score detection,
      foldl (λ score (entry : string * PatternEntry),
        if bool_decide (entry.1 = "heuristics"%string) then score
        else match entry.2 with
             | Matched _ _ weight => (score + weight * 20)%R
             | HeuristicFindings _ => score
             end) score (nodePatterns detection))
      score (detections results) in
  Rmin (IZR (Math_round score)) 100.

(** What the page offers to [scanPage]: its script elements, and for an
    attribute name the elements that carry it, both in document order. *)
Record Page : Type := {
  scripts : list Node;
  elementsWith : string → list Node
}.

(** An entry of a detection history: [{ timestamp, ...results }]. *)
Record HistoryEntry : Type := {
  timestamp : Z;
  entry : Results
}.

(** [this.detectionHistory]: host name to history. *)
Abbreviation History := (gmap (list N) (list HistoryEntry)) (only parsing).

(** [detectEscalatingThreat(history)] *)
Definition detectEscalatingThreat (history : list HistoryEntry) : bool :=
  if decide (length history < 3) then false
  else
    let recentScores :=
      (λ h, riskScore (entry h)) <$> drop (length history - 3) history in
    match recentScores !! 0, recentScores !! 1, recentScores !! 2 with
    | Some s0, Some s1, Some s2 =>
        bool_decide (s0 < s1)%R && bool_decide (s1 < s2)%R
    | _, _, _ => false
    end.

(** The warnings handed to the notifier. *)
Inductive Warning : Type :=
| CriticalPayloads (criticalHits : nat)
| SuspiciousPatterns (totalHits : R)
| EscalatingThreat.

(** [updateDetectionHistory(results)]: the new map, and whether the
    escalation warning is raised. *)
Definition updateDetectionHistory (detectionHistory : History)
    (hostname : jsstring) (now : Z) (results : Results) : History * list Warning :=
  let key := hostname in
  let detectionHistory :=
    if decide (is_Some (detectionHistory !! key)) then detectionHistory
    else <[key := []]> detectionHistory in
  let history := default [] (detectionHistory !! key) in
  let history := history ++ [{| timestamp := now; entry := results |}] in
  let history := if decide (10 < length history) then drop 1 history else history in
  (<[key := history]> detectionHistory,
   if detectEscalatingThreat history then [EscalatingThreat] else []).

(** The three scanning loops of [scanPage]. *)
Definition scanScripts (E : Engine) (page : Page) (results : Results) : Results :=
  foldl (λ results script,
    let analysis := analyzeNode E script "script" in
    if decide (hits analysis > 0)%R then
      {| totalHits := (totalHits results + hits analysis)%R;
         criticalHits :=
           if decide (maxSeverity analysis = critical)
           then S (criticalHits results) else criticalHits results;
         detections := detections results ++ [analysis];
         riskScore := riskScore results |}
    else results) results (scripts page).

Definition scanEventHandlers (E : Engine) (page : Page) (results : Results) : Results :=
  foldl (λ results handler,
    foldl (λ results element,
      let analysis := analyzeNode E element handler in
      if decide (hits analysis > 0)%R then
        {| totalHits := (totalHits results + hits analysis)%R;
           criticalHits :=
             if decide (maxSeverity analysis = critical)
             then S (criticalHits results) else criticalHits results;
           detections := detections results ++ [analysis];
           riskScore := riskScore results |}
      else results) results (elementsWith page handler))
    results eventHandlers.

Definition scanSuspiciousAttributes (E : Engine) (page : Page) (results : Results)
  : Results :=
  foldl (λ results attr,
    foldl (λ results element,
      let analysis := analyzeNode E element attr in
      if decide (hits analysis > 0)%R then
        {| totalHits := (totalHits results + hits analysis)%R;
           criticalHits := S (criticalHits results);
           detections := detections results ++ [analysis];
           riskScore := riskScore results |}
      else results) results (elementsWith page attr))
    results suspiciousAttributes.

(** What a call of [scanPage] leaves behind. *)
Record Scan : Type := {
  returned : R;
  results : Results;
  warnings : list Warning;
  detectionHistory : History
}.

(** [scanPage()], on a page served by [hostname] at time [now]. *)
Definition scanPage (E : Engine) (page : Page) (hostname : jsstring) (now : Z)
    (history : History) : Scan :=
  let results :=
    {| totalHits := 0%R; criticalHits := 0; detections := []; riskScore := 0%R |} in
  let results := scanScripts E page results in
  let results := scanEventHandlers E page results in
  let results := scanSuspiciousAttributes E page results in
  let results :=
    {| totalHits := totalHits results; criticalHits := criticalHits results;
       detections := detections results;
       riskScore := calculateRiskScore results |} in
  let warned :=
    if decide (2 ≤ criticalHits results) then [CriticalPayloads (criticalHits results)]
    else if decide (totalHits results >= 5)%R then [SuspiciousPatterns (totalHits results)]
    else [] in
  let '(history, escalation) := updateDetectionHistory history hostname now results in
  {| returned := totalHits results; results := results;
     warnings := warned ++ escalation; detectionHistory := history |}.

(** *** The aggregate, stated over the scanned fragments *)

Definition sum_R (xs : list R) : R := foldr Rplus 0%R xs.

(** The analyses with hits, in the order [scanPage] visits the nodes. *)
Definition scriptFragments (E : Engine) (page : Page) : list NodeAnalysis :=
  filter (λ a, hits a > 0)%R ((λ n, analyzeNode E n "script") <$> scripts page).

Definition handlerFragments (E : Engine) (page : Page) : list NodeAnalysis :=
  eventHandlers ≫= λ handler,
    filter (λ a, hits a > 0)%R
      ((λ n, analyzeNode E n handler) <$> elementsWith page handler).

Definition attributeFragments (E : Engine) (page : Page) : list NodeAnalysis :=
  suspiciousAttributes ≫= λ attr,
    filter (λ a, hits a > 0)%R
      ((λ n, analyzeNode E n attr) <$> elementsWith page attr).

(** The weights of the pattern categories matched in a fragment. *)
Definition matchedWeights (a : NodeAnalysis) : list R :=
  omap (λ e : string * PatternEntry,
          match e.2 with
          | Matched _ _ weight => Some weight
          | HeuristicFindings _ => None
          end) (nodePatterns a).

(** The risk score as the specification words it:
    [min(round(totalHits*15 + criticalHits*30 + sum(categoryWeight*20)), 100)]. *)
Definition riskScore_as_specified (totalHits : R) (criticalHits : nat)
    (categoryWeights : list R) : R :=
  Rmin (IZR (Math_round (totalHits * 15 + INR criticalHits * 30
                         + sum_R ((λ w, w * 20) <$> categoryWeights))%R)) 100.

(** The same with the contribution of the hits capped at 50. *)
Definition riskScore_capped (totalHits : R) (criticalHits : nat)
    (categoryWeights : list R) : R :=
  Rmin (IZR (Math_round (Rmin (totalHits * 15) 50 + INR criticalHits * 30
                         + sum_R ((λ w, w * 20) <$> categoryWeights))%R)) 100.

(** In the [patterns] object of an analysis the key "heuristics" holds the
    heuristic findings, and only it does. *)
Definition well_keyed (e : string * PatternEntry) : Prop :=
  match e.2 with
  | Matched _ _ _ => e.1 ≠ "heuristics"%string
  | HeuristicFindings _ => e.1 = "heuristics"%string
  end.

(** A page with one script in which the reverse-psychology patterns match
    four times: the fragment's analysis and the aggregate of the scan. *)
Definition fourLowHits : NodeAnalysis :=
  {| source := "script"; hits := 4%R; maxSeverity := low;
     nodePatterns :=
       [("reversePsychology"%string,
         Matched [lit "don't tell"; lit "do not say"] low 0.10%R)] |}.

Definition fourLowHitsResults : Results :=
  {| totalHits := 4%R; criticalHits := 0; detections := [fourLowHits];
     riskScore := 0%R |}.

(** A session: the scans of a detector instance, oldest first, each with the
    host name of the page, the time and the results. *)
Definition replay (scans : list (jsstring * Z * Results)) : History :=
  foldl (λ history scan,
    let '(hostname, now, results) := scan in
    (updateDetectionHistory history hostname now results).1) ∅ scans.

End JailbreakDetector.

(** ** Binary64 numbers *)

(** A JavaScript number is an IEEE 754 binary64 value.  [float] is the type
    of these values, and its operations round to nearest, ties to even, as
    JavaScript's do; a decimal literal denotes the closest value. *)
Module Binary64.
Import Floats.
#[local] Set Warnings "-inexact-float".
#[local] Open Scope float_scope.

(** The number of an integer: exact up to [2^53]. *)
Definition ofZ (z : Z) : float := SF2Prim (binary_normalize prec emax z 0 false).
Definition ofNat (n : nat) : float := ofZ (Z.of_nat n).

(** [Math.min(x, y)]: [NaN] when an argument is; [-0] is below [+0]. *)
Definition Math_min (x y : float) : float :=
  if is_nan x || is_nan y then nan
  else if x <? y then x
  else if y <? x then y
  else if is_zero x && get_sign x then x else y.

(** [Math.round(x)]: [x] itself when it is not finite or is an integer, and
    otherwise the integer closest to [x], the greater of two equally close
    ones: the floor of [x + 1/2], computed exactly from the mantissa and the
    exponent of [x = ±m * 2^e]; a result of zero keeps the sign of [x]. *)
Definition Math_round (x : float) : float :=
  match Prim2SF x with
  | S754_finite s m e =>
      if (0 <=? e)%Z then x
      else
        let twice := ((if s then Z.neg m else Z.pos m) * 2 + 2 ^ (- e))%Z in
        let n := (twice / 2 ^ (1 - e))%Z in
        if (n =? 0)%Z then (if s then neg_zero else zero) else ofZ n
  | _ => x
  end.

End Binary64.

(** ** The jailbreak detector in binary64 *)

(** The numbers of [analyzeNode], [scanPage] and [calculateRiskScore] as the
    program computes them.  The nodes, the page, the severities and the
    patterns are those of [JailbreakDetector]. *)
Module JailbreakDetector64.
Import Floats Js Binary64 JailbreakDetector.
#[local] Set Warnings "-inexact-float".
#[local] Open Scope float_scope.

(** A category of [this.patterns], with its weight as a binary64 number. *)
Record Category : Type := {
  name : string;
  patterns : list Regex;
  severity : Level;
  weight : float
}.

(** [this.patterns], in the order of its keys: the names, patterns and
    severities of [JailbreakDetector.patternTable], and the weights. *)
Definition patternTable : list Category :=
  zip_with (λ (config : JailbreakDetector.Category) (weight : float),
      {| name := JailbreakDetector.name config;
         patterns := JailbreakDetector.patterns config;
         severity := JailbreakDetector.severity config;
         weight := weight |})
    JailbreakDetector.patternTable
    [0.3; 0.25; 0.25; 0.30; 0.15; 0.20; 0.10; 0.15].

(** The result of [performHeuristicAnalysis]. *)
Record Heuristics : Type := {
  suspicious : bool;
  suspicionScore : float;
  flags : list string
}.

(** [performHeuristicAnalysis(text)] *)
Definition performHeuristicAnalysis (E : Engine) (text : jsstring) : Heuristics :=
  let h := {| suspicious := false; suspicionScore := 0; flags := [] |} in
  let h :=
    if decide (2 < count E "[A-Za-z0-9+/]{20,}={0,2}" "g" text)%nat
    then {| suspicious := true; suspicionScore := suspicionScore h + 0.5;
            flags := flags h ++ ["Multiple base64-like strings"%string] |}
    else h in
  let h :=
    if decide (5 < count E "\\[xun][0-9a-f]{2,4}" "gi" text)%nat
    then {| suspicious := true; suspicionScore := suspicionScore h + 0.3;
            flags := flags h ++ ["Excessive escape sequences"%string] |}
    else h in
  let h :=
    if decide (2 < count E "\b(execute|run|eval|compile|interpret|process)\s+" "gi" text)%nat
    then {| suspicious := true; suspicionScore := suspicionScore h + 0.4;
            flags := flags h ++ ["Instruction-like commands"%string] |}
    else h in
  if includes text (lit "###") || includes text (lit "User:")
     || includes text (lit "Assistant:")
  then {| suspicious := true; suspicionScore := suspicionScore h + 0.6;
          flags := flags h ++ ["Prompt-like structure"%string] |}
  else h.

(** A value of the [patterns] object of a node analysis: a matched category,
    or, under the key "heuristics", the heuristic findings. *)
Inductive PatternEntry : Type :=
| Matched (matches : list jsstring) (severity : Level) (weight : float)
| HeuristicFindings (heuristics : Heuristics).

(** The result of [analyzeNode]; the [matches] contexts are left out. *)
Record NodeAnalysis : Type := {
  source : string;
  hits : float;
  maxSeverity : Level;
  nodePatterns : list (string * PatternEntry)
}.

(** The body of the loop over the pattern categories. *)
Definition analyzeCategory (E : Engine) (text : jsstring)
    (result : NodeAnalysis) (config : Category) : NodeAnalysis :=
  let '(categoryMatches, result) :=
    foldl (λ (acc : list jsstring * NodeAnalysis) pattern,
      let '(categoryMatches, result) := acc in
      let matches := match_all E pattern text in
      if decide (0 < length matches)%nat then
        (categoryMatches ++ matches,
         {| source := source result;
            hits := hits result + ofNat (length matches);
            maxSeverity :=
              if decide (0 < compareSeverity (severity config) (maxSeverity result))%Z
              then severity config else maxSeverity result;
            nodePatterns := nodePatterns result |})
      else acc) ([], result) (patterns config) in
  if decide (0 < length categoryMatches)%nat then
    {| source := source result; hits := hits result;
       maxSeverity := maxSeverity result;
       nodePatterns :=
         nodePatterns result ++
         [(name config, Matched (dedupe categoryMatches) (severity config) (weight config))] |}
  else result.

(** [analyzeNode(node, source)] *)
Definition analyzeNode (E : Engine) (node : Node) (sourceTag : string) : NodeAnalysis :=
  let result :=
    {| source := sourceTag; hits := 0; maxSeverity := low; nodePatterns := [] |} in
  let text := nodeText node sourceTag in
  if bool_decide (text = []) then result
  else
    let result := foldl (analyzeCategory E text) result patternTable in
    let heuristics := performHeuristicAnalysis E text in
    if suspicious heuristics then
      {| source := source result;
         hits := hits result + suspicionScore heuristics;
         maxSeverity := maxSeverity result;
         nodePatterns :=
           nodePatterns result ++ [("heuristics"%string, HeuristicFindings heuristics)] |}
    else result.

(** The [results] object of [scanPage].  [criticalHits] only ever counts up
    from 0 by 1: it is the number of its count. *)
Record Results : Type := {
  totalHits : float;
  criticalHits : nat;
  detections : list NodeAnalysis;
  riskScore : float
}.

(** [calculateRiskScore(results)] *)
Definition calculateRiskScore (results : Results) : float :=
  let score := 0 in
  let score := score + Math_min (totalHits results * 15) 50 in
  let score := score + ofNat (criticalHits results) * 30 in
  let score :=
    foldl (λ score detection,
      foldl (λ score (entry : string * PatternEntry),
        if bool_decide (entry.1 = "heuristics"%string) then score
        else match entry.2 with
             | Matched _ _ weight => score + weight * 20
             | HeuristicFindings _ => score
             end) score (nodePatterns detection))
      score (detections results) in
  Math_min (Math_round score) 100.

(** An entry of a detection history: [{ timestamp, ...results }]. *)
Record HistoryEntry : Type := {
  timestamp : Z;
  entry : Results
}.

(** [this.detectionHistory]: host name to history. *)
Abbreviation History := (gmap (list N) (list HistoryEntry)) (only parsing).

(** [detectEscalatingThreat(history)] *)
Definition detectEscalatingThreat (history : list HistoryEntry) : bool :=
  if decide (length history < 3)%nat then false
  else
    let recentScores :=
      (λ h, riskScore (entry h)) <$> drop (length history - 3) history in
    match recentScores !! 0%nat, recentScores !! 1%nat, recentScores !! 2%nat with
    | Some s0, Some s1, Some s2 => (s0 <? s1) && (s1 <? s2)
    | _, _, _ => false
    end.

(** The warnings handed to the notifier. *)
Inductive Warning : Type :=
| CriticalPayloads (criticalHits : nat)
| SuspiciousPatterns (totalHits : float)
| EscalatingThreat.

(** [updateDetectionHistory(results)]: the new map, and whether the
    escalation warning is raised. *)
Definition updateDetectionHistory (detectionHistory : History)
    (hostname : jsstring) (now : Z) (results : Results) : History * list Warning :=
  let key := hostname in
  let detectionHistory :=
    if decide (is_Some (detectionHistory !! key)) then detectionHistory
    else <[key := []]> detectionHistory in
  let history := default [] (detectionHistory !! key) in
  let history := history ++ [{| timestamp := now; entry := results |}] in
  let history := if decide (10 < length history)%nat then drop 1 history else history in
  (<[key := history]> detectionHistory,
   if detectEscalatingThreat history then [EscalatingThreat] else []).

(** The three scanning loops of [scanPage]. *)
Definition scanScripts (E : Engine) (page : Page) (results : Results) : Results :=
  foldl (λ results script,
    let analysis := analyzeNode E script "script" in
    if 0 <? hits analysis then
      {| totalHits := totalHits results + hits analysis;
         criticalHits :=
           if decide (maxSeverity analysis = critical)
           then S (criticalHits results) else criticalHits results;
         detections := detections results ++ [analysis];
         riskScore := riskScore results |}
    else results) results (scripts page).

Definition scanEventHandlers (E : Engine) (page : Page) (results : Results) : Results :=
  foldl (λ results handler,
    foldl (λ results element,
      let analysis := analyzeNode E element handler in
      if 0 <? hits analysis then
        {| totalHits := totalHits results + hits analysis;
           criticalHits :=
             if decide (maxSeverity analysis = critical)
             then S (criticalHits results) else criticalHits results;
           detections := detections results ++ [analysis];
           riskScore := riskScore results |}
      else results) results (elementsWith page handler))
    results eventHandlers.

Definition scanSuspiciousAttributes (E : Engine) (page : Page) (results : Results)
  : Results :=
  foldl (λ results attr,
    foldl (λ results element,
      let analysis := analyzeNode E element attr in
      if 0 <? hits analysis then
        {| totalHits := totalHits results + hits analysis;
           criticalHits := S (criticalHits results);
           detections := detections results ++ [analysis];
           riskScore := riskScore results |}
      else results) results (elementsWith page attr))
    results suspiciousAttributes.

(** What a call of [scanPage] leaves behind. *)
Record Scan : Type := {
  returned : float;
  results : Results;
  warnings : list Warning;
  detectionHistory : History
}.

(** [scanPage()], on a page served by [hostname] at time [now]. *)
Definition scanPage (E : Engine) (page : Page) (hostname : jsstring) (now : Z)
    (history : History) : Scan :=
  let results :=
    {| totalHits := 0; criticalHits := 0; detections := []; riskScore := 0 |} in
  let results := scanScripts E page results in
  let results := scanEventHandlers E page results in
  let results := scanSuspiciousAttributes E page results in
  let results :=
    {| totalHits := totalHits results; criticalHits := criticalHits results;
       detections := detections results;
       riskScore := calculateRiskScore results |} in
  let warned :=
    if decide (2 ≤ criticalHits results)%nat
    then [CriticalPayloads (criticalHits results)]
    else if 5 <=? totalHits results then [SuspiciousPatterns (totalHits results)]
    else [] in
  let '(history, escalation) := updateDetectionHistory history hostname now results in
  {| returned := totalHits results; results := results;
     warnings := warned ++ escalation; detectionHistory := history |}.

(** *** The aggregate, stated over the scanned fragments *)

(** The analyses with hits, in the order [scanPage] visits the nodes. *)
Definition scriptFragments (E : Engine) (page : Page) : list NodeAnalysis :=
  filter (λ a, Is_true (0 <? hits a)) ((λ n, analyzeNode E n "script") <$> scripts page).

Definition handlerFragments (E : Engine) (page : Page) : list NodeAnalysis :=
  eventHandlers ≫= λ handler,
    filter (λ a, Is_true (0 <? hits a))
      ((λ n, analyzeNode E n handler) <$> elementsWith page handler).

Definition attributeFragments (E : Engine) (page : Page) : list NodeAnalysis :=
  suspiciousAttributes ≫= λ attr,
    filter (λ a, Is_true (0 <? hits a))
      ((λ n, analyzeNode E n attr) <$> elementsWith page attr).

(** The weights of the pattern categories matched in a fragment. *)
Definition matchedWeights (a : NodeAnalysis) : list float :=
  omap (λ e : string * PatternEntry,
          match e.2 with
          | Matched _ _ weight => Some weight
          | HeuristicFindings _ => None
          end) (nodePatterns a).

(** The risk score with the contribution of the hits capped at 50:
    [min(round(min(totalHits*15, 50) + criticalHits*30 + sum(categoryWeight*20)), 100)],
    in binary64, the terms added from the left, starting from 0. *)
Definition riskScore_capped (totalHits : float) (criticalHits : nat)
    (categoryWeights : list float) : float :=
  Math_min
    (Math_round
       (foldl (λ score weight, score + weight * 20)
          (0 + Math_min (totalHits * 15) 50 + ofNat criticalHits * 30)
          categoryWeights)) 100.

(** The same without the cap, as the specification words it. *)
Definition riskScore_as_specified (totalHits : float) (criticalHits : nat)
    (categoryWeights : list float) : float :=
  Math_min
    (Math_round
       (foldl (λ score weight, score + weight * 20)
          (totalHits * 15 + ofNat criticalHits * 30)
          categoryWeights)) 100.

(** In the [patterns] object of an analysis the key "heuristics" holds the
    heuristic findings, and only it does. *)
Definition well_keyed (e : string * PatternEntry) : Prop :=
  match e.2 with
  | Matched _ _ _ => e.1 ≠ "heuristics"%string
  | HeuristicFindings _ => e.1 = "heuristics"%string
  end.

(** A runtime whose matcher finds six escape sequences, and nothing else. *)
Definition sixEscapes : Engine :=
  {| match_all := λ re _,
       if bool_decide (re = {| Js.source := "\\[xun][0-9a-f]{2,4}"; Js.flags := "gi" |})
       then lit <$> ["\n00"; "\n01"; "\n02"; "\n03"; "\n04"; "\n05"]%string else [];
     exec := λ _ _ _, None;
     split := λ _ s, [s] |}.

(** A page with one script, which holds six escape sequences and "###". *)
Definition escapedScript : Node :=
  {| isScript := true;
     textContent := lit "### \n00 \n01 \n02 \n03 \n04 \n05";
     innerHTML := [];
     getAttribute := λ _, None |}.

Definition escapedPage : Page :=
  {| scripts := [escapedScript]; elementsWith := λ _, [] |}.

(** A page with one script in which the reverse-psychology patterns match
    four times: the fragment's analysis and the aggregate of the scan. *)
Definition fourLowHits : NodeAnalysis :=
  {| source := "script"; hits := 4; maxSeverity := low;
     nodePatterns :=
       [("reversePsychology"%string,
         Matched [lit "don't tell"; lit "do not say"] low 0.10)] |}.

Definition fourLowHitsResults : Results :=
  {| totalHits := 4; criticalHits := 0; detections := [fourLowHits];
     riskScore := 0 |}.

End JailbreakDetector64.

(** ** AI-text likelihood: the AITextAnalyzer class *)

Module AITextAnalyzer.
Import Js.

(** A category of [this.aiSignatures]: its patterns are [RegExp] objects that
    live as long as the analyzer. *)
Record Signature : Type := {
  name : string;
  patterns : list RegExp;
  weight : R
}.

(** The analyzer instance ([this]); [this.thresholds] is never read. *)
Record Analyzer : Type := { aiSignatures : list Signature }.

Definition gi (source : string) : RegExp := literal source "gi".
Definition g (source : string) : RegExp := literal source "g".

(** The instance the constructor builds. *)
Definition constructor : Analyzer :=
  {| aiSignatures :=
    [ {| name := "politenessMarkers";
         patterns :=
           [ gi "\b(?:kindly|please note|thank you for your prompt|we appreciate|we sincerely|we kindly ask)\b";
             gi "\b(?:i understand that|i apologize for|i'd be happy to|i'm here to help)\b";
             gi "\b(?:rest assured|please be assured|you can be confident)\b" ];
         weight := 0.15%R |};
      {| name := "structureMarkers";
         patterns :=
           [ gi "\b(?:in conclusion|as a reminder|furthermore|in addition|moreover|additionally)\b";
             gi "\b(?:to summarize|in summary|first and foremost|it's important to note)\b";
             gi "\b(?:moving forward|going forward|with that being said|having said that)\b";
             gi "\b(?:alternatively|conversely|on the other hand|in contrast)\b" ];
         weight := 0.12%R |};
      {| name := "formalityMarkers";
         patterns :=
           [ gi "\b(?:utilize|facilitate|endeavor|ascertain|aforementioned)\b";
             gi "\b(?:pursuant to|in accordance with|notwithstanding|henceforth)\b";
             gi "\b(?:at your earliest convenience|please do not hesitate|should you require)\b" ];
         weight := 0.10%R |};
      {| name := "hedgingMarkers";
         patterns :=
           [ gi "\b(?:it's worth noting|it appears that|it seems that|potentially|possibly)\b";
             gi "\b(?:you might want to|you may wish to|you could consider|it may be helpful)\b";
             gi "\b(?:generally speaking|in most cases|typically)\b" ];
         weight := 0.08%R |};
      {| name := "enumerationMarkers";
         patterns :=
           [ gi "(?:first|second|third|finally|lastly)[,:]?\s+";
             g "(?:\d+\.|[a-z]\))\s+[A-Z]";
             g "(?:•|\*|\-)\s+[A-Z]" ];
         weight := 0.05%R |} ]%string |}.

(** [calculateVariance(numbers)] *)
Definition sum_R (xs : list R) : R := foldl Rplus 0%R xs.

Definition calculateVariance (numbers : list R) : R :=
  match numbers with
  | [] => 0%R
  | _ =>
      let mean := (sum_R numbers / INR (length numbers))%R in
      (foldl (λ sum num, sum + (num - mean) * (num - mean)) 0 numbers
       / INR (length numbers))%R
  end.

(** A sub-score with the hit counts behind it. *)
Record Linguistic : Type := {
  linguistic_score : R;
  linguistic_details : list (string * (nat * R))
}.

(** The inner loop of [calculateLinguisticAIScore]: the hits of a category,
    and its patterns after the searches. *)
Definition categoryHits (E : Engine) (text : jsstring) (patterns : list RegExp)
  : nat * list RegExp :=
  foldl (λ (acc : nat * list RegExp) pattern,
    let '(matches, pattern) := str_match E pattern text in
    (acc.1 + length matches, acc.2 ++ [pattern])) (0, []) patterns.

(** [calculateLinguisticAIScore(text, originalText)] *)
Definition calculateLinguisticAIScore (E : Engine) (this : Analyzer)
    (text originalText : jsstring) : Linguistic * Analyzer :=
  let '(score, details, signatures) :=
    foldl (λ (acc : R * list (string * (nat * R)) * list Signature) config,
      let '(score, details, signatures) := acc in
      let '(hits, patterns) := categoryHits E text (patterns config) in
      let categoryScore := Rmin (INR hits / 10 * weight config) (weight config) in
      ((score + categoryScore)%R,
       details ++ [(name config, (hits, toFixed 3 categoryScore))],
       signatures ++ [{| name := name config; patterns := patterns;
                         weight := weight config |}]))
      (0%R, [], []) (aiSignatures this) in
  ({| linguistic_score := Rmin score 1; linguistic_details := details |},
   {| aiSignatures := signatures |}).

(** [x / y < t] for [x >= 0]: when [y] is 0 the quotient is [NaN] or
    [Infinity] and the comparison is false. *)
Definition quotient_lt (x y t : R) : bool :=
  if decide (y = 0)%R then false else bool_decide (x / y < t)%R.

(** [lo <= n / d && n / d <= hi] for two counts, false for [0 / 0]. *)
Definition ratio_between (n d : nat) (lo hi : R) : bool :=
  match d with
  | O => false
  | _ => bool_decide (lo <= INR n / INR d)%R && bool_decide (INR n / INR d <= hi)%R
  end.

(** [calculateStatisticalAIScore(text)]: the score. *)
Definition calculateStatisticalAIScore (E : Engine) (text : jsstring) : R :=
  let sentences :=
    filter (λ s, 5 < length (trim s))
      (split E {| source := "[.!?]+"; flags := "" |} text) in
  if decide (length sentences < 3) then 0%R
  else
    let sentenceLengths :=
      (λ s, INR (length (split E {| source := "\s+"; flags := "" |} (trim s))))
        <$> sentences in
    let avgLength := (sum_R sentenceLengths / INR (length sentenceLengths))%R in
    let variance := calculateVariance sentenceLengths in
    let stdDev := sqrt variance in
    let consistencyScore := if decide (variance < 20)%R then 0.2%R else 0%R in
    let lengthScore :=
      if bool_decide (avgLength >= 15)%R && bool_decide (avgLength <= 25)%R
      then 0.15%R else 0%R in
    let variabilityScore :=
      if quotient_lt stdDev avgLength 0.4 then 0.15%R else 0%R in
    let words :=
      filter (λ w, 2 < length w)
        (split E {| source := "\s+"; flags := "" |} text) in
    let uniqueWords := dedupe (toLowerCase <$> words) in
    let diversityScore :=
      if ratio_between (length uniqueWords) (length words) 0.4 0.6
      then 0.1%R else 0%R in
    (consistencyScore + lengthScore + variabilityScore + diversityScore)%R.

(** [calculateSemanticAIScore(text)]: the score. *)
Definition calculateSemanticAIScore (E : Engine) (text : jsstring) : R :=
  let words := length (split E {| source := "\s+"; flags := "" |} text) in
  let score := 0%R in
  let repetitiveStartMatches :=
    count E "\b(it is|it's|there is|there are|this is|these are)\b" "gi" text in
  let score :=
    if ratio_gt repetitiveStartMatches words 0.05 then (score + 0.1)%R else score in
  let weakVerbMatches :=
    count E "\b(is|are|was|were|be|being|been|have|has|had)\b" "gi" text in
  let score :=
    if ratio_gt weakVerbMatches words 0.15 then (score + 0.1)%R else score in
  let passiveMatches :=
    count E "\b(is|are|was|were|be|being|been)\s+\w+ed\b" "gi" text in
  let score := if decide (2 < passiveMatches) then (score + 0.1)%R else score in
  Rmin score 0.3.

(** [calculateStructuralAIScore(originalText)]: the score. *)
Definition calculateStructuralAIScore (E : Engine) (originalText : jsstring) : R :=
  let paragraphs :=
    filter (λ p, 0 < length (trim p))
      (split E {| source := "\n\n+"; flags := "" |} originalText) in
  let hasBulletPoints := test E "(?:•|\*|\-|\d+\.)\s+" "g" originalText in
  let hasNumberedLists := test E "\d+\.\s+[A-Z]" "g" originalText in
  let score := 0%R in
  let score := if hasBulletPoints then (score + 0.1)%R else score in
  let score := if hasNumberedLists then (score + 0.1)%R else score in
  let avgParaLength :=
    if decide (0 < length paragraphs) then
      (foldl (λ sum p,
         sum + INR (length (split E {| source := "[.!?]+"; flags := "" |} p)))
         0 paragraphs / INR (length paragraphs))%R
    else 0%R in
  let score :=
    if bool_decide (avgParaLength >= 3)%R && bool_decide (avgParaLength <= 6)%R
    then (score + 0.1)%R else score in
  Rmin score 0.3.

(** The four sub-scores handed to [calculateCompositeAIScore]. *)
Record Components : Type := {
  linguistic : R;
  statistical : R;
  semantic : R;
  structural : R
}.

(** An entry of the [breakdown] object; its [details] are left out. *)
Record Contribution : Type := {
  component : string;
  component_score : R;
  component_weight : R;
  contribution : R
}.

Record CompositeAI : Type := {
  probability : R;
  composite_confidence : R;
  composite_breakdown : list Contribution
}.

(** [calculateCompositeAIScore(components)] *)
Definition calculateCompositeAIScore (components : Components) : CompositeAI :=
  let weights :=
    [ ("linguistic"%string, linguistic components, 0.35%R);
      ("statistical"%string, statistical components, 0.30%R);
      ("semantic"%string, semantic components, 0.20%R);
      ("structural"%string, structural components, 0.15%R) ] in
  let '(totalScore, breakdown) :=
    foldl (λ (acc : R * list Contribution) (entry : string * R * R),
      let '(component, componentScore, weight) := entry in
      ((acc.1 + componentScore * weight)%R,
       acc.2 ++ [{| component := component;
                    component_score := toFixed 3 componentScore;
                    component_weight := weight;
                    contribution := toFixed 3 (componentScore * weight) |}]))
      (0%R, []) weights in
  let scores :=
    [linguistic components; statistical components; semantic components;
     structural components] in
  let variance := calculateVariance scores in
  let confidence := Rmax 0 (1 - variance) in
  {| probability := Rmin totalScore 1;
     composite_confidence := toFixed 3 confidence;
     composite_breakdown := breakdown |}.

(** [persuasionTechniques], in the order of its keys. *)
Definition persuasionTechniques : list (string * list string) :=
  [ ("urgency",
     [ "urgent"; "immediately"; "right now"; "asap"; "hurry";
       "limited time"; "expires soon"; "act now"; "don't wait";
       "time-sensitive"; "last chance" ]);
    ("scarcity",
     [ "limited supply"; "only a few left"; "exclusive offer";
       "while supplies last"; "limited availability"; "rare opportunity" ]);
    ("authority",
     [ "official"; "verified"; "certified"; "authorized";
       "government"; "legal notice"; "compliance required" ]);
    ("fear",
     [ "account suspended"; "security breach"; "unauthorized access";
       "fraud detected"; "suspicious activity"; "locked out";
       "compromised"; "at risk"; "warning"; "alert" ]);
    ("reward",
     [ "free gift"; "bonus"; "prize"; "winner"; "congratulations";
       "reward"; "cash back"; "discount"; "special offer" ]);
    ("social",
     [ "everyone is"; "most people"; "join millions";
       "trending"; "popular choice"; "highly rated" ]);
    ("action",
     [ "click here"; "verify now"; "confirm identity"; "update immediately";
       "act now"; "respond now"; "call now"; "download now" ]) ]%string.

Record Persuasion : Type := {
  persuasion_flags : list string;
  persuasion_score : R;
  persuasion_categories : list (string * nat)
}.

(** [detectPersuasionPatterns(text, originalText)] *)
Definition detectPersuasionPatterns (text originalText : jsstring) : Persuasion :=
  let '(flags, categoryScores, totalScore) :=
    foldl (λ (acc : list string * list (string * nat) * R)
             (entry : string * list string),
      let '(flags, categoryScores, totalScore) := acc in
      let '(category, keywords) := entry in
      let matches :=
        filter (λ keyword, includes text (toLowerCase (lit keyword)) = true)
          keywords in
      if decide (0 < length matches) then
        (flags ++ matches, categoryScores ++ [(category, length matches)],
         (totalScore + INR (length matches) * 0.15)%R)
      else acc) ([], [], 0%R) persuasionTechniques in
  {| persuasion_flags := dedupe flags;
     persuasion_score := Rmin totalScore 1;
     persuasion_categories := categoryScores |}.

(** [urgencyIndicators], in the order of its keys; every pattern is a
    literal of the function body. *)
Definition urgencyIndicators : list (string * list RegExp) :=
  [ ("timeConstraints",
     [ gi "(?:within|in the next)\s+\d+\s+(?:minutes?|hours?|days?)";
       gi "expires?\s+(?:in|within)";
       gi "deadline\s*:\s*";
       gi "(?:by|before)\s+\d{1,2}(?:am|pm)" ]);
    ("consequenceThreats",
     [ gi "(?:will be|shall be)\s+(?:closed|suspended|terminated|deleted|locked)";
       gi "failure to\s+(?:respond|comply|act|verify)";
       gi "if you (?:do not|don't|fail to)";
       gi "consequences\s+(?:of|for|include)" ]);
    ("imperativeLanguage",
     [ gi "(?:you must|you need to|you should|you have to)\s+(?:immediately|urgently|now|asap)";
       gi "(?:immediate|urgent|critical)\s+(?:action|response|attention)\s+required";
       gi "do\s+(?:this|it)\s+now" ]);
    ("stressMarkers",
     [ g "!{2,}";
       g "\b[A-Z]{4,}\b";
       g "\*{2,}.+?\*{2,}" ]) ]%string.

(** An entry of the [indicators] array. *)
Record Indicator : Type := {
  category : string;
  indicator_count : nat;
  examples : list jsstring
}.

Record Urgency : Type := {
  urgency_score : R;
  indicators : list Indicator;
  exclamationCount : nat
}.

(** [measureUrgencyTactics(text, originalText)] *)
Definition measureUrgencyTactics (E : Engine) (text originalText : jsstring) : Urgency :=
  let '(indicators, score) :=
    foldl (λ (acc : list Indicator * R) (entry : string * list RegExp),
      let '(category, patterns) := entry in
      foldl (λ (acc : list Indicator * R) pattern,
        let matches := (str_match E pattern originalText).1 in
        if decide (0 < length matches) then
          (acc.1 ++ [{| category := category; indicator_count := length matches;
                        examples := take 2 matches |}],
           (acc.2 + INR (length matches) * 0.2)%R)
        else acc) acc patterns) ([], 0%R) urgencyIndicators in
  let exclamationCount := count E "!" "g" originalText in
  let score :=
    if decide (3 < exclamationCount)
    then (score + Rmin (INR exclamationCount * 0.05) 0.3)%R else score in
  {| urgency_score := Rmin score 1; indicators := indicators;
     exclamationCount := exclamationCount |}.

(** [detectManipulationTechniques(text, originalText)] *)
Definition detectManipulationTechniques (E : Engine) (text originalText : jsstring)
  : list Technique.t :=
  let techniques := [] in
  let techniques :=
    if test E "(?:thousands|millions)\s+(?:of\s+)?(?:people|users|customers)" "gi" text
    then techniques ++ [{| Technique.type := "social_proof"; Technique.severity := medium |}]
    else techniques in
  let techniques :=
    if test E "(?:official|government|legal)\s+(?:notice|notification|requirement|compliance)" "gi" text
    then techniques ++ [{| Technique.type := "false_authority"; Technique.severity := high |}]
    else techniques in
  let techniques :=
    if test E "(?:free\s+gift|exclusive\s+offer)" "gi" text
       && test E "(?:limited|expire|hurry)" "gi" text
    then techniques ++ [{| Technique.type := "reciprocity"; Technique.severity := low |}]
    else techniques in
  if test E "(?:immediately\s+(?:worried|concerned)|urgent.*(?:fear|panic))" "gi" text
  then techniques ++ [{| Technique.type := "emotional_manipulation";
                         Technique.severity := high |}]
  else techniques.

Record Credibility : Type := {
  credibility_score : R;
  factors : list (string * string)
}.

(** [assessCredibilitySignals(text, originalText)] *)
Definition assessCredibilitySignals (E : Engine) (text originalText : jsstring)
  : Credibility :=
  let c := (1%R, @nil (string * string)) in
  let c :=
    if test E "(?:click here|click now)" "gi" text
    then ((c.1 - 0.15)%R, c.2 ++ [("negative", "Generic 'click here' links")%string])
    else c in
  let c :=
    if test E "dear\s+(?:customer|user|member)" "gi" text
    then ((c.1 - 0.2)%R, c.2 ++ [("negative", "Generic greeting (not personalized)")%string])
    else c in
  let c :=
    if decide (5 < count E "!" "g" originalText)
    then ((c.1 - 0.1)%R, c.2 ++ [("negative", "Excessive exclamation marks")%string])
    else c in
  let c :=
    if test E "https:\/\/" "gi" originalText
    then ((c.1 + 0.05)%R, c.2 ++ [("positive", "Uses HTTPS links")%string])
    else c in
  {| credibility_score := Rmax 0 (Rmin c.1 1); factors := c.2 |}.

(** [generateWarningLevel(aiScore, urgency, persuasion, manipulation)] *)
Definition generateWarningLevel (aiScore urgency : R) (persuasion : list string)
    (manipulation : list Technique.t) : Level :=
  let highRiskManipulation :=
    existsb (λ m, bool_decide (Technique.severity m = high)) manipulation in
  let criticalUrgency := bool_decide (urgency > 0.7)%R in
  let excessivePersuasion := bool_decide (4 < length persuasion) in
  let highAIScore := bool_decide (aiScore > 0.7)%R in
  if (highRiskManipulation && criticalUrgency)
     || (highAIScore && excessivePersuasion && bool_decide (urgency > 0.5)%R)
  then high
  else if bool_decide (urgency > 0.5)%R || bool_decide (2 < length persuasion)
          || (bool_decide (aiScore > 0.6)%R && bool_decide (0 < length manipulation))
  then medium
  else low.

(** The result of [analyzeText]; [textStats], the word and sentence counts
    of the text, is left out. *)
Record Result : Type := {
  aiProbability : R;
  confidence : R;
  breakdown : list Contribution;
  persuasionFlags : list string;
  persuasionScore : R;
  urgencyScore : R;
  resultIndicators : list Indicator;
  manipulationTechniques : list Technique.t;
  credibilityScore : R;
  credibilityFactors : list (string * string);
  recommendation : Level
}.

(** [createEmptyResult()] *)
Definition createEmptyResult : Result :=
  {| aiProbability := 0; confidence := 0; breakdown := [];
     persuasionFlags := []; persuasionScore := 0; urgencyScore := 0;
     resultIndicators := []; manipulationTechniques := [];
     credibilityScore := 1; credibilityFactors := []; recommendation := low |}.

(** [analyzeText(content)]: the result, and the analyzer afterwards. *)
Definition analyzeText (E : Engine) (this : Analyzer) (content : jsstring)
  : Result * Analyzer :=
  let text := toLowerCase content in
  let originalText := content in
  if bool_decide (text = []) || bool_decide (length text < 100)
  then (createEmptyResult, this)
  else
    let '(linguisticScore, this) := calculateLinguisticAIScore E this text originalText in
    let statisticalScore := calculateStatisticalAIScore E text in
    let semanticScore := calculateSemanticAIScore E text in
    let structuralScore := calculateStructuralAIScore E originalText in
    let aiScore :=
      calculateCompositeAIScore
        {| linguistic := linguistic_score linguisticScore;
           statistical := statisticalScore;
           semantic := semanticScore;
           structural := structuralScore |} in
    let persuasion := detectPersuasionPatterns text originalText in
    let urgency := measureUrgencyTactics E text originalText in
    let manipulation := detectManipulationTechniques E text originalText in
    let credibility := assessCredibilitySignals E text originalText in
    ({| aiProbability := toFixed 3 (probability aiScore);
        confidence := toFixed 3 (composite_confidence aiScore);
        breakdown := composite_breakdown aiScore;
        persuasionFlags := persuasion_flags persuasion;
        persuasionScore := toFixed 3 (persuasion_score persuasion);
        urgencyScore := toFixed 3 (urgency_score urgency);
        resultIndicators := indicators urgency;
        manipulationTechniques := manipulation;
        credibilityScore := toFixed 3 (credibility_score credibility);
        credibilityFactors := factors credibility;
        recommendation :=
          generateWarningLevel (probability aiScore) (urgency_score urgency)
            (persuasion_flags persuasion) manipulation |},
     this).

(** The hits of a category and its score, as functions of the text. *)
Definition hitsOf (E : Engine) (text : jsstring) (patterns : list RegExp) : nat :=
  foldl (λ n p, n + length (match_all E (regex p) text)) 0 patterns.

Definition categoryScoreOf (E : Engine) (text : jsstring) (config : Signature) : R :=
  Rmin (INR (hitsOf E text (patterns config)) / 10 * weight config) (weight config).

Definition rewoundSignature (config : Signature) : Signature :=
  {| name := name config; patterns := rewound <$> patterns config;
     weight := weight config |}.

(** The analyzer with every pattern rewound: what a full analysis leaves
    behind, and what the constructor builds. *)
Definition rewoundAnalyzer (this : Analyzer) : Analyzer :=
  {| aiSignatures := rewoundSignature <$> aiSignatures this |}.

(** An analyzer the constructor built, whatever searches it went through. *)
Definition constructed (this : Analyzer) : Prop :=
  rewoundAnalyzer this = constructor.

(** Fifty times U+0130, LATIN CAPITAL LETTER I WITH DOT ABOVE. *)
Definition fiftyDottedI : jsstring := replicate 50 304%N.

End AITextAnalyzer.

(** ** Model fingerprinting: the LLMFingerprinter class (llmFingerprinter.js) *)

Module LLMFingerprinter.
Import Js.

(** A category of [this.patterns]. *)
Record Signature : Type := {
  name : string;
  patterns : list RegExp;
  weight : R;
  modelType : string
}.

(** The fingerprinter instance ([this]); [this.contextMultipliers] is a
    constant table. *)
Record Fingerprinter : Type := { signatures : list Signature }.

Definition gi (source : string) : RegExp := literal source "gi".

(** The instance the constructor builds. *)
Definition constructor : Fingerprinter :=
  {| signatures :=
    [ {| name := "gptSignatures";
         patterns :=
           [ gi "\b(?:as an ai|as a language model|i don't have|i cannot|i'm unable to)\b";
             gi "\b(?:i apologize, but|i'm sorry, but|unfortunately, i|i must inform you)\b";
             gi "\b(?:it's important to note|it's worth mentioning|keep in mind that)\b";
             gi "\b(?:in conclusion|to sum up|to summarize|in summary)\b" ];
         weight := 0.25%R; modelType := "GPT" |};
      {| name := "claudeSignatures";
         patterns :=
           [ gi "\b(?:i aim to|i strive to|i'll be direct|let me be clear)\b";
             gi "\b(?:i should clarify|to be precise|more specifically)\b" ];
         weight := 0.20%R; modelType := "Claude" |};
      {| name := "unnaturalPoliteness";
         patterns :=
           [ gi "\b(?:kindly|please note|we kindly ask|we sincerely apologize)\b";
             gi "\b(?:we appreciate your|thank you for your prompt|rest assured)\b";
             gi "\b(?:please be advised|please be informed|we regret to inform)\b" ];
         weight := 0.15%R; modelType := "Generic" |};
      {| name := "genericGreetings";
         patterns :=
           [ gi "\b(?:valued customer|dear user|dear client|dear customer|dear member)\b";
             gi "\b(?:hello user|greetings customer|attention account holder)\b" ];
         weight := 0.20%R; modelType := "Phishing" |};
      {| name := "urgencyMarkers";
         patterns :=
           [ gi "\b(?:immediate action|verify now|act immediately|urgent response)\b";
             gi "\b(?:account suspension|security alert|suspicious activity)\b";
             gi "\b(?:final warning|last chance|expires soon|time-sensitive)\b" ];
         weight := 0.25%R; modelType := "Phishing" |};
      {| name := "signaturePatterns";
         patterns :=
           [ gi "\b(?:customer service team|support department|security team|compliance unit)\b";
             gi "\b(?:fraud prevention|account verification|identity verification)\b";
             gi "\b(?:technical support|help desk|service desk)\b" ];
         weight := 0.18%R; modelType := "Impersonation" |};
      {| name := "structuredPatterns";
         patterns :=
           [ gi "(?:first|firstly|1\.|step 1)[,:]";
             gi "(?:second|secondly|2\.|step 2)[,:]";
             gi "(?:finally|lastly|in conclusion)[,:]";
             gi "(?:here's what|here are|below are|following are)" ];
         weight := 0.12%R; modelType := "Generic" |};
      {| name := "overExplanation";
         patterns :=
           [ gi "\b(?:in other words|that is to say|to put it another way)\b";
             gi "\b(?:specifically|more precisely|to be more specific)\b";
             gi "\b(?:essentially|basically|fundamentally)\b" ];
         weight := 0.10%R; modelType := "Generic" |} ]%string |}.

(** [this.contextMultipliers], in the order of its keys. *)
Definition contextMultipliers : list (string * (list string * R)) :=
  [ ("financialContext",
     (["bank"; "account"; "payment"; "credit card"; "transaction"; "money";
       "funds"; "wire transfer"], 1.5%R));
    ("credentialContext",
     (["password"; "login"; "verify"; "authenticate"; "credentials"; "access";
       "sign in"], 1.4%R));
    ("urgentContext",
     (["urgent"; "immediately"; "now"; "asap"; "expire"; "deadline"; "suspend"],
      1.3%R)) ]%string.

(** [calculateContextMultiplier(text)] *)
Definition calculateContextMultiplier (text : jsstring) : R :=
  foldl (λ maxMultiplier (entry : string * (list string * R)),
    let '(_, (keywords, multiplier)) := entry in
    let hasContext := existsb (λ keyword, includes text (lit keyword)) keywords in
    if hasContext then Rmax maxMultiplier multiplier else maxMultiplier)
    1%R contextMultipliers.

(** [calculateVariance(numbers)] *)
Definition calculateVariance (numbers : list R) : R :=
  AITextAnalyzer.calculateVariance numbers.

(** The sentences both heuristics look at. *)
Definition longSentences (E : Engine) (content : jsstring) : list jsstring :=
  filter (λ s, 10 < length (trim s))
    (split E {| source := "[.!?]+"; flags := "" |} content).

(** [words.slice(0, 3).join(' ')] *)
Definition join_spaces (words : list jsstring) : jsstring :=
  match words with
  | [] => []
  | w :: ws => foldl (λ acc v, acc ++ [32%N] ++ v) w ws
  end.

(** [findRepetitivePhrases(content)]: the sentence openers that occur more
    than once, listed in the order of their first occurrence (JavaScript
    lists the keys that look like array indices first; the order is not
    used). *)
Definition findRepetitivePhrases (E : Engine) (content : jsstring) : list jsstring :=
  let sentences := longSentences E content in
  let starts :=
    (λ s,
       let words := split E {| source := "\s+"; flags := "" |} (trim s) in
       toLowerCase (join_spaces (take 3 words))) <$> sentences in
  filter (λ phrase, 1 < length (filter (λ start, start = phrase) starts))
    (dedupe starts).

(** [assessGrammarQuality(text)] *)
Definition assessGrammarQuality (E : Engine) (text : jsstring) : bool :=
  let commonErrors :=
    [ "\byour\s+are\b"; "\bits\s+is\b"; "\btheir\s+is\b"; "\bwanna\b";
      "\bgonna\b" ]%string in
  negb (existsb (λ pattern, test E pattern "gi" text) commonErrors).

(** The [details] of the heuristics: which checks fired. *)
Record Details : Type := {
  excessiveFormality : option nat;
  suspiciousGrammar : bool;
  unnaturalRhythm : option R;
  overStructured : option nat;
  repetitivePhrases : option (list jsstring)
}.

Record Heuristics : Type := {
  heuristics_score : R;
  details : Details
}.

(** [analyzeHeuristics(content, text)] *)
Definition analyzeHeuristics (E : Engine) (content text : jsstring) : Heuristics :=
  let score := 0%R in
  let formalWords :=
    count E "\b(?:utilize|facilitate|endeavor|commence|thereafter|hereby)\b" "gi" text in
  let formal := bool_decide (2 < formalWords) in
  let score := if formal then (score + 0.1)%R else score in
  let hasUrgency := test E "\b(?:urgent|immediate|now|asap)\b" "gi" text in
  let hasPerfectGrammar := assessGrammarQuality E content in
  let grammar := hasUrgency && hasPerfectGrammar in
  let score := if grammar then (score + 0.15)%R else score in
  let sentences := longSentences E content in
  let variance :=
    calculateVariance
      ((λ s, INR (length (split E {| source := "\s+"; flags := "" |} (trim s))))
         <$> sentences) in
  let rhythm := bool_decide (3 ≤ length sentences) && bool_decide (variance < 15)%R in
  let score := if rhythm then (score + 0.1)%R else score in
  let hasBullets := test E "(?:â€¢|\*|\-)\s+" "g" content in
  let hasNumbers := test E "\d+\.\s+" "g" content in
  let hasHeaders := test E "^(?:#+|\*\*).+$" "gm" content in
  let structureCount :=
    length (filter (λ b, b = true) [hasBullets; hasNumbers; hasHeaders]) in
  let structured := bool_decide (2 ≤ structureCount) in
  let score := if structured then (score + 0.08)%R else score in
  let commonPhrases := findRepetitivePhrases E content in
  let repetitive := bool_decide (2 < length commonPhrases) in
  let score := if repetitive then (score + 0.1)%R else score in
  {| heuristics_score := Rmin score 0.4;
     details :=
       {| excessiveFormality := if formal then Some formalWords else None;
          suspiciousGrammar := grammar;
          unnaturalRhythm := if rhythm then Some (toFixed 2 variance) else None;
          overStructured := if structured then Some structureCount else None;
          repetitivePhrases := if repetitive then Some commonPhrases else None |} |}.

(** [signatures.sort(([, a], [, b]) => b - a)]: by decreasing score, entries
    of equal score in their original order. *)
Fixpoint insert_by_score (x : string * R) (sorted : list (string * R))
  : list (string * R) :=
  match sorted with
  | [] => [x]
  | y :: rest =>
      if decide (x.2 >= y.2)%R then x :: y :: rest
      else y :: insert_by_score x rest
  end.

Definition sort_by_score (entries : list (string * R)) : list (string * R) :=
  foldr insert_by_score [] entries.

Record LikelyModel : Type := {
  type : string;
  model_confidence : R;
  allSignatures : list (string * R)
}.

(** [identifyLikelyModel(signatures, heuristics)] *)
Definition identifyLikelyModel (signatures : list (string * R)) : option LikelyModel :=
  match sort_by_score signatures with
  | [] => None
  | (topModel, topScore) :: _ as sorted =>
      if decide (topScore > 0.15)%R then
        Some {| type := topModel;
                model_confidence := toFixed 3 (Rmin (topScore * 2) 1);
                allSignatures := (λ entry, (entry.1, toFixed 3 entry.2)) <$> sorted |}
      else None
  end.

(** [matches[category]], absent ([undefined]) as the empty list. *)
Definition matchesOf (matches : list (string * list jsstring)) (category : string)
  : list jsstring :=
  match list_find (λ entry, entry.1 = category) matches with
  | Some (_, (_, found)) => found
  | None => []
  end.

(** [identifyRiskFactors(matches, heuristics, contextMultiplier)] *)
Definition identifyRiskFactors (matches : list (string * list jsstring))
    (heuristics : Heuristics) (contextMultiplier : R) : list RiskFactor.t :=
  let factors := [] in
  let factors :=
    if decide (0 < length (matchesOf matches "urgencyMarkers"))
    then factors ++ [{| RiskFactor.type := "high_urgency_ai_combo";
                        RiskFactor.severity := high |}]
    else factors in
  let factors :=
    if decide (0 < length (matchesOf matches "genericGreetings"))
    then factors ++ [{| RiskFactor.type := "impersonal_greeting";
                        RiskFactor.severity := medium |}]
    else factors in
  let factors :=
    if decide (0 < length (matchesOf matches "signaturePatterns"))
    then factors ++ [{| RiskFactor.type := "authority_impersonation";
                        RiskFactor.severity := high |}]
    else factors in
  let factors :=
    if decide (contextMultiplier > 1.3)%R
    then factors ++ [{| RiskFactor.type := "high_risk_context";
                        RiskFactor.severity := high |}]
    else factors in
  if suspiciousGrammar (details heuristics)
  then factors ++ [{| RiskFactor.type := "suspicious_grammar";
                      RiskFactor.severity := medium |}]
  else factors.

(** [modelSignatures[type] += score], the entry starting at 0. *)
Fixpoint addSignature (signatures : list (string * R)) (type : string) (score : R)
  : list (string * R) :=
  match signatures with
  | [] => [(type, (0 + score)%R)]
  | (t, s) :: rest =>
      if decide (t = type) then (t, (s + score)%R) :: rest
      else (t, s) :: addSignature rest type score
  end.

(** The result of [detectAIPhishing]; [heuristics] is [None] for the empty
    object of the empty result. *)
Record Result : Type := {
  score : R;
  matches : list (string * list jsstring);
  totalHits : nat;
  modelSignatures : list (string * R);
  likelyModel : option LikelyModel;
  contextMultiplier : R;
  heuristics : option Heuristics;
  riskFactors : list RiskFactor.t
}.

(** [createEmptyResult()] *)
Definition createEmptyResult : Result :=
  {| score := 0; matches := []; totalHits := 0; modelSignatures := [];
     likelyModel := None; contextMultiplier := 1; heuristics := None;
     riskFactors := [] |}.

(** The inner loop of [detectAIPhishing]: the matches of a category, and its
    patterns after the searches. *)
Definition categoryMatches (E : Engine) (content : jsstring) (patterns : list RegExp)
  : list jsstring * list RegExp :=
  foldl (λ (acc : list jsstring * list RegExp) pattern,
    let '(found, pattern) := str_match E pattern content in
    (acc.1 ++ found, acc.2 ++ [pattern])) ([], []) patterns.

(** What the loop over the categories accumulates. *)
Record Tally : Type := {
  tally_matches : list (string * list jsstring);
  tally_signatures : list (string * R);
  tally_score : R;
  tally_hits : nat;
  tally_patterns : list Signature
}.

(** The body of the loop over the categories. *)
Definition tallyCategory (E : Engine) (content : jsstring) (tally : Tally)
    (config : Signature) : Tally :=
  let '(found, patterns) := categoryMatches E content (patterns config) in
  let categoryHits := length found in
  let config :=
    {| name := name config; patterns := patterns; weight := weight config;
       modelType := modelType config |} in
  if decide (0 < length found) then
    let categoryScore :=
      Rmin (INR categoryHits * 0.1 * weight config) (weight config) in
    {| tally_matches := tally_matches tally ++ [(name config, dedupe found)];
       tally_signatures :=
         addSignature (tally_signatures tally) (modelType config) categoryScore;
       tally_score := (tally_score tally + categoryScore)%R;
       tally_hits := tally_hits tally + categoryHits;
       tally_patterns := tally_patterns tally ++ [config] |}
  else
    {| tally_matches := tally_matches tally;
       tally_signatures := tally_signatures tally;
       tally_score := tally_score tally;
       tally_hits := tally_hits tally;
       tally_patterns := tally_patterns tally ++ [config] |}.

Definition emptyTally : Tally :=
  {| tally_matches := []; tally_signatures := []; tally_score := 0%R;
     tally_hits := 0; tally_patterns := [] |}.

(** [detectAIPhishing(content)]: the result, and the fingerprinter
    afterwards. *)
Definition detectAIPhishing (E : Engine) (this : Fingerprinter) (content : jsstring)
  : Result * Fingerprinter :=
  if bool_decide (content = []) || bool_decide (length content < 30)
  then (createEmptyResult, this)
  else
    let text := toLowerCase content in
    let tally := foldl (tallyCategory E content) emptyTally (signatures this) in
    let totalScore := tally_score tally in
    let contextMultiplier := calculateContextMultiplier text in
    let totalScore := (totalScore * contextMultiplier)%R in
    let heuristics := analyzeHeuristics E content text in
    let totalScore := (totalScore + heuristics_score heuristics)%R in
    let likelyModel := identifyLikelyModel (tally_signatures tally) in
    ({| score := toFixed 3 (Rmin totalScore 1);
        matches := tally_matches tally;
        totalHits := tally_hits tally;
        modelSignatures := tally_signatures tally;
        likelyModel := likelyModel;
        contextMultiplier := toFixed 2 contextMultiplier;
        heuristics := Some heuristics;
        riskFactors :=
          identifyRiskFactors (tally_matches tally) heuristics contextMultiplier |},
     {| signatures := tally_patterns tally |}).

(** The matches of a category, as a function of the text. *)
Definition foundOf (E : Engine) (content : jsstring) (patterns : list RegExp)
  : list jsstring :=
  foldl (λ found p, found ++ match_all E (regex p) content) [] patterns.

Definition rewoundSignature (config : Signature) : Signature :=
  {| name := name config; patterns := rewound <$> patterns config;
     weight := weight config; modelType := modelType config |}.

(** What a tally holds besides the patterns. *)
Definition tally_view (tally : Tally)
  : list (string * list jsstring) * list (string * R) * R * nat :=
  (tally_matches tally, tally_signatures tally, tally_score tally, tally_hits tally).

(** The fingerprinter with every pattern rewound. *)
Definition rewoundFingerprinter (this : Fingerprinter) : Fingerprinter :=
  {| signatures := rewoundSignature <$> signatures this |}.

(** A fingerprinter the constructor built, whatever searches it went
    through. *)
Definition constructed (this : Fingerprinter) : Prop :=
  rewoundFingerprinter this = constructor.

End LLMFingerprinter.

(** ** The composite aggregator (content/notifier.js) *)

(** ** The toasts of the content script (notifier.js) *)

Module ThreatNotifier.
Import Js.

(** A toast in the container. *)
Record Toast : Type := {
  message : jsstring;
  intent : string;
  timeout : Z
}.

(** The notifier: the times at which the messages were last shown, by
    lower-cased and trimmed message, and the toasts in the container. *)
Record t : Type := {
  recentMessages : gmap (list N) Z;
  toasts : list Toast
}.

Definition messageDebounceTime : Z := 5000.
Definition maxActiveToasts : nat := 2.

(** [new ThreatNotifier()], with an empty container. *)
Definition constructor : t := {| recentMessages := ∅; toasts := [] |}.

(** [isDuplicate(message)] at time [now] *)
Definition isDuplicate (this : t) (text : jsstring) (now : Z) : bool :=
  let messageKey := trim (toLowerCase text) in
  match recentMessages this !! messageKey with
  | Some lastShown => bool_decide (now - lastShown < messageDebounceTime)%Z
  | None => false
  end.

(** [cleanupOldMessages()] at time [now] *)
Definition cleanupOldMessages (this : t) (now : Z) : t :=
  {| recentMessages :=
       filter (λ entry : list N * Z, ¬ (now - entry.2 > messageDebounceTime)%Z)
         (recentMessages this);
     toasts := toasts this |}.

(** [show(message, intent, timeout)]; the clock is read three times, at
    [checked], [recorded] and [cleaned]. *)
Definition show (this : t) (text : jsstring) (kind : string) (delay : Z)
    (checked recorded cleaned : Z) : t :=
  if bool_decide (text = []) then this
  else if isDuplicate this text checked then this
  else if bool_decide (maxActiveToasts ≤ length (toasts this)) then this
  else
    let messageKey := trim (toLowerCase text) in
    let this :=
      {| recentMessages := <[messageKey := recorded]> (recentMessages this);
         toasts := toasts this |} in
    let this := cleanupOldMessages this cleaned in
    {| recentMessages := recentMessages this;
       toasts :=
         toasts this ++
         [{| message := text;
             intent := if bool_decide (kind = "warn"%string) then "warn" else "";
             timeout := delay |}] |}.

(** [warn(message)] and [info(message)] *)
Definition warn (this : t) (text : jsstring) (checked recorded cleaned : Z) : t :=
  show this text "warn" 8000 checked recorded cleaned.
Definition info (this : t) (text : jsstring) (checked recorded cleaned : Z) : t :=
  show this text "info" 5000 checked recorded cleaned.

(** [toast.remove()], by the dismiss button or when the time is out: the
    toast at position [index] leaves the container. *)
Definition removeToast (this : t) (index : nat) : t :=
  {| recentMessages := recentMessages this;
     toasts := delete index (toasts this) |}.

(** What happens to a notifier. *)
Inductive Event : Type :=
| Warn (text : jsstring) (checked recorded cleaned : Z)
| Info (text : jsstring) (checked recorded cleaned : Z)
| Remove (index : nat).

Definition step (this : t) (event : Event) : t :=
  match event with
  | Warn text checked recorded cleaned => warn this text checked recorded cleaned
  | Info text checked recorded cleaned => info this text checked recorded cleaned
  | Remove index => removeToast this index
  end.

(** The times at which the handling of an event reads the clock. *)
Definition clockReadings (event : Event) : list Z :=
  match event with
  | Warn _ checked recorded cleaned | Info _ checked recorded cleaned =>
      [checked; recorded; cleaned]
  | Remove _ => []
  end.

End ThreatNotifier.

(** ** The credential guard (llmFingerprinter.js) *)

Module CredentialGuard.
Import Js.

(** The state [calculateCompositeRisk] reads: [this.suspiciousBehaviors]. *)
Record t : Type := { suspiciousBehaviors : list string }.

(** The part of a form analysis that the risk depends on. *)
Record FormAnalysis : Type := { suspiciousFlags : list string }.

(** [xs.includes(x)] and [set.has(x)] on strings. *)
Definition has (xs : list string) (x : string) : bool := bool_decide (x ∈ xs).

(** [calculateCompositeRisk(domainRisk, formAnalysis, isDynamic)] *)
Definition calculateCompositeRisk (this : t) (domainRisk : R)
    (formAnalysis : FormAnalysis) (isDynamic : bool) : R :=
  let risk := (domainRisk * 0.6)%R in
  let flags := suspiciousFlags formAnalysis in
  let risk := if has flags "insecure_submission" then (risk + 25)%R else risk in
  let risk := if has flags "cross_domain_submission" then (risk + 15)%R else risk in
  let risk := if has flags "hidden_form" then (risk + 20)%R else risk in
  let risk := if has flags "credential_only_form" then (risk + 10)%R else risk in
  let risk := if has flags "suspicious_hidden_field" then (risk + 10)%R else risk in
  let risk := if isDynamic then (risk + 15)%R else risk in
  let risk :=
    if has (suspiciousBehaviors this) "formless_credential_field"
    then (risk + 12)%R else risk in
  let risk :=
    if has (suspiciousBehaviors this) "rapid_field_interaction"
    then (risk + 8)%R else risk in
  Rmin (IZR (Math_round risk)) 100.

(** The warning [evaluateFormSafety] issues for a composite risk and a
    domain risk score, once it is past its cooldowns. *)
Inductive FormWarning : Type :=
| CriticalRisk (compositeRisk : R)
| PotentialRisk (compositeRisk : R).

Definition formWarning (compositeRisk riskScore : R) : option FormWarning :=
  if bool_decide (compositeRisk >= 85)%R || bool_decide (riskScore >= 80)%R
  then Some (CriticalRisk compositeRisk)
  else if bool_decide (compositeRisk >= 75)%R || bool_decide (riskScore >= 70)%R
  then Some (PotentialRisk compositeRisk)
  else None.

End CredentialGuard.

Module Metrics.
(** The argument of [computeAdvancedCompositeScore]. *)
Record t : Type := {
  aiProbability : R;
  aiConfidence : R;
  urgencyScore : R;
  persuasionScore : R;
  persuasionCount : nat;
  llmScore : R;
  llmRiskFactors : nat;
  domainRisk : R;
  jailbreakHits : R;
  jailbreakCritical : nat;
  manipulationTechniques : nat;
  credibilityScore : R
}.
End Metrics.

Module Aggregator.
Import Js.

(** The [weights] table of [computeAdvancedCompositeScore]. *)
Module weights.
Definition aiProbability : R := 20.
Definition urgencyScore : R := 12.
Definition persuasionScore : R := 10.
Definition llmScore : R := 15.
Definition domainRisk : R := 25.
Definition jailbreakBase : R := 12.
Definition manipulation : R := 8.
Definition credibility : R := -12.
End weights.

Record Breakdown : Type := {
  aiAnalysis : R;
  urgency : R;
  persuasion : R;
  llmFingerprint : R;
  domainReputation : R;
  jailbreakAttempts : R;
  manipulationTactics : R;
  credibilityPenalty : R
}.

Record CompositeScore : Type := {
  total : R;
  breakdown : Breakdown;
  confidence : R
}.

(** [computeAdvancedCompositeScore(metrics)] *)
Definition computeAdvancedCompositeScore (metrics : Metrics.t) : CompositeScore :=
  let total := 0%R in
  let aiContribution :=
    (Metrics.aiProbability metrics * Math_pow_1_5 (Metrics.aiConfidence metrics)
     * weights.aiProbability)%R in
  let total := (total + aiContribution)%R in
  let urgencyContribution :=
    if decide (Metrics.urgencyScore metrics > 0.3)%R
    then (Metrics.urgencyScore metrics * weights.urgencyScore)%R else 0%R in
  let total := (total + urgencyContribution)%R in
  let persuasionContribution :=
    if decide (Metrics.persuasionScore metrics > 0.2)%R
    then (Rmin (Metrics.persuasionScore metrics) 1 * weights.persuasionScore)%R
    else 0%R in
  let total := (total + persuasionContribution)%R in
  let llmMultiplier :=
    (1 + Rmin (INR (Metrics.llmRiskFactors metrics) * 0.15) 0.5)%R in
  let llmContribution :=
    if decide (Metrics.llmScore metrics > 0.25)%R
    then (Metrics.llmScore metrics * weights.llmScore * llmMultiplier)%R else 0%R in
  let total := (total + llmContribution)%R in
  let domainContribution :=
    (Metrics.domainRisk metrics / 100 * weights.domainRisk)%R in
  let total := (total + domainContribution)%R in
  let jailbreakContribution :=
    if decide (Metrics.jailbreakHits metrics > 0)%R then
      let jailbreakMultiplier :=
        if decide (0 < Metrics.jailbreakCritical metrics) then 1.8%R else 1%R in
      (Rmin (Metrics.jailbreakHits metrics * 2.5) weights.jailbreakBase
       * jailbreakMultiplier)%R
    else 0%R in
  let total := (total + jailbreakContribution)%R in
  let severeManipulation := Metrics.manipulationTechniques metrics in
  let manipulationContribution :=
    if decide (0 < severeManipulation)
    then Rmin (INR severeManipulation * 2) weights.manipulation else 0%R in
  let total := (total + manipulationContribution)%R in
  let credibilityPenalty :=
    if decide (Metrics.credibilityScore metrics < 0.7)%R
    then ((1 - Metrics.credibilityScore metrics) * Rabs weights.credibility)%R
    else 0%R in
  let total := (total + credibilityPenalty)%R in
  {| total := Rmin total 100;
     breakdown :=
       {| aiAnalysis := toFixed 2 aiContribution;
          urgency := toFixed 2 urgencyContribution;
          persuasion := toFixed 2 persuasionContribution;
          llmFingerprint := toFixed 2 llmContribution;
          domainReputation := toFixed 2 domainContribution;
          jailbreakAttempts := toFixed 2 jailbreakContribution;
          manipulationTactics := toFixed 2 manipulationContribution;
          credibilityPenalty := toFixed 2 credibilityPenalty |};
     confidence := Metrics.aiConfidence metrics |}.

(** The six kinds of independent signal. *)
Inductive SignalType : Type :=
| high_ai_probability
| high_urgency
| domain_risk
| jailbreak_detected
| llm_phishing_pattern
| credential_risk.

Record Signal : Type := { type : SignalType; value : R }.

Record IndependentSignals : Type := {
  count : nat;
  signals : list Signal
}.

(** The argument of [countIndependentSignals]. *)
Record SignalData : Type := {
  aiResult : AITextAnalyzer.Result;
  llmResult : LLMFingerprinter.Result;
  domainResult : option DomainReputation.DomainResult;
  jailbreakHits : R;
  urgencyScore : R;
  credentialRisk : R
}.

(** [countIndependentSignals(data)] *)
Definition countIndependentSignals (data : SignalData) : IndependentSignals :=
  let signals := [] in
  let signals :=
    if bool_decide (AITextAnalyzer.aiProbability (aiResult data) > 0.7)%R
       && bool_decide (AITextAnalyzer.confidence (aiResult data) > 0.6)%R
    then signals ++ [{| type := high_ai_probability;
                        value := AITextAnalyzer.aiProbability (aiResult data) |}]
    else signals in
  let signals :=
    if decide (urgencyScore data > 0.6)%R
    then signals ++ [{| type := high_urgency; value := urgencyScore data |}]
    else signals in
  let signals :=
    match domainResult data with
    | Some domainResult =>
        if decide (DomainReputation.riskScore domainResult > 60)%R
        then signals ++ [{| type := domain_risk;
                            value := DomainReputation.riskScore domainResult |}]
        else signals
    | None => signals
    end in
  let signals :=
    if decide (jailbreakHits data >= 2)%R
    then signals ++ [{| type := jailbreak_detected; value := jailbreakHits data |}]
    else signals in
  let signals :=
    if bool_decide (LLMFingerprinter.score (llmResult data) > 0.6)%R
       && bool_decide (0 < length (LLMFingerprinter.riskFactors (llmResult data)))
    then signals ++ [{| type := llm_phishing_pattern;
                        value := LLMFingerprinter.score (llmResult data) |}]
    else signals in
  let signals :=
    if decide (credentialRisk data > 70)%R
    then signals ++ [{| type := credential_risk; value := credentialRisk data |}]
    else signals in
  {| count := length signals; signals := signals |}.

(** The [criticalConditions] array of [deriveEnhancedRiskLevel]. *)
Definition criticalConditions (aiResult : AITextAnalyzer.Result)
    (llmResult : LLMFingerprinter.Result)
    (domainResult : option DomainReputation.DomainResult)
    (jailbreakHits : R) : list bool :=
  [ match domainResult with
    | Some d => bool_decide (DomainReputation.riskScore d >= 85)%R
    | None => false
    end;
    match domainResult ≫= DomainReputation.advancedAnalysis with
    | Some analysis =>
        let typo := DomainReputation.typosquatting analysis in
        Typosquat.isTyposquat typo && bool_decide (Typosquat.confidence typo > 0.9)%R
    | None => false
    end;
    bool_decide (jailbreakHits >= 5)%R;
    bool_decide (AITextAnalyzer.urgencyScore aiResult > 0.85)%R
      && bool_decide (LLMFingerprinter.score llmResult > 0.75)%R;
    bool_decide
      (2 ≤ length (filter (λ rf, RiskFactor.severity rf = critical)
                     (LLMFingerprinter.riskFactors llmResult)));
    bool_decide
      (2 ≤ length (filter (λ mt, Technique.severity mt = high)
                     (AITextAnalyzer.manipulationTechniques aiResult)))
      && bool_decide (AITextAnalyzer.urgencyScore aiResult > 0.7)%R ].

(** [deriveEnhancedRiskLevel(compositeScore, aiResult, llmResult,
    domainResult, jailbreakHits, independentSignals)] *)
Definition deriveEnhancedRiskLevel (compositeScore : CompositeScore)
    (aiResult : AITextAnalyzer.Result) (llmResult : LLMFingerprinter.Result)
    (domainResult : option DomainReputation.DomainResult)
    (jailbreakHits : R) (independentSignals : IndependentSignals) : Level :=
  let score := total compositeScore in
  if existsb (λ condition, condition)
       (criticalConditions aiResult llmResult domainResult jailbreakHits)
  then high
  else if decide (score >= 80)%R then high
  else if decide (score >= 50)%R then medium
  else if decide (score >= 30)%R then low
  else low.

(** The two risk toasts of [analyzePage]. *)
Inductive Toast : Type :=
| HighRiskWarning (signalCount : nat) (score : Z)
| MediumRiskInfo (signalCount : nat) (score : Z).

(** What [analyzePage] derives from the four detector results. *)
Record Assessment : Type := {
  compositeScore : CompositeScore;
  independentSignals : IndependentSignals;
  riskLevel : Level;
  riskToast : option Toast
}.

(** [x || 1] on a number. *)
Definition or_1 (x : R) : R := if decide (x = 0)%R then 1%R else x.

(** [analyzePage()], from the four results on: the metrics, the composite
    score, the independent signals, the risk level, and the risk toast.
    [scanPage] returns a number, so [jailbreakResult?.criticalHits] is
    [undefined] and the metric [jailbreakCritical] is 0. *)
Definition analyzePage (aiResult : AITextAnalyzer.Result)
    (llmResult : LLMFingerprinter.Result) (jailbreakResult : R)
    (domainResult : option DomainReputation.DomainResult) : Assessment :=
  let jailbreakHits := jailbreakResult in
  let domainRisk := default 0%R (DomainReputation.riskScore <$> domainResult) in
  let compositeScore :=
    computeAdvancedCompositeScore
      {| Metrics.aiProbability := AITextAnalyzer.aiProbability aiResult;
         Metrics.aiConfidence := AITextAnalyzer.confidence aiResult;
         Metrics.urgencyScore := AITextAnalyzer.urgencyScore aiResult;
         Metrics.persuasionScore := AITextAnalyzer.persuasionScore aiResult;
         Metrics.persuasionCount := length (AITextAnalyzer.persuasionFlags aiResult);
         Metrics.llmScore := LLMFingerprinter.score llmResult;
         Metrics.llmRiskFactors := length (LLMFingerprinter.riskFactors llmResult);
         Metrics.domainRisk := domainRisk;
         Metrics.jailbreakHits := jailbreakHits;
         Metrics.jailbreakCritical := 0;
         Metrics.manipulationTechniques :=
           length (AITextAnalyzer.manipulationTechniques aiResult);
         Metrics.credibilityScore := or_1 (AITextAnalyzer.credibilityScore aiResult) |} in
  let independentSignals :=
    countIndependentSignals
      {| aiResult := aiResult; llmResult := llmResult; domainResult := domainResult;
         jailbreakHits := jailbreakHits;
         urgencyScore := AITextAnalyzer.urgencyScore aiResult;
         credentialRisk := domainRisk |} in
  let riskLevel :=
    deriveEnhancedRiskLevel compositeScore aiResult llmResult domainResult
      jailbreakHits independentSignals in
  let riskToast :=
    if bool_decide (riskLevel = high) && bool_decide (total compositeScore >= 80)%R
       && bool_decide (2 ≤ count independentSignals)
    then Some (HighRiskWarning (count independentSignals)
                 (Math_round (total compositeScore)))
    else if bool_decide (riskLevel = medium)
            && bool_decide (total compositeScore >= 60)%R
            && bool_decide (2 ≤ count independentSignals)
    then Some (MediumRiskInfo (count independentSignals)
                 (Math_round (total compositeScore)))
    else None in
  {| compositeScore := compositeScore; independentSignals := independentSignals;
     riskLevel := riskLevel; riskToast := riskToast |}.

(** The four results [analyzePage] awaits, for the visible text
    [textContent] of a page served by [hostname]. *)
Definition detectorResults (E : Engine) (aiAnalyzer : AITextAnalyzer.Analyzer)
    (llmFingerprinter : LLMFingerprinter.Fingerprinter)
    (detectionHistory : gmap (list N) (list JailbreakDetector.HistoryEntry))
    (textContent : jsstring) (page : JailbreakDetector.Page)
    (hostname : jsstring) (now : Z) (response : DomainReputation.Response)
  : AITextAnalyzer.Result * LLMFingerprinter.Result * R
    * option DomainReputation.DomainResult :=
  ((AITextAnalyzer.analyzeText E aiAnalyzer textContent).1,
   (LLMFingerprinter.detectAIPhishing E llmFingerprinter textContent).1,
   JailbreakDetector.returned
     (JailbreakDetector.scanPage E page hostname now detectionHistory),
   Some (DomainReputation.checkDomain hostname response)).

(** *** The weighted sum as the specification words it *)


(** The eight terms of the documented sum. *)
Definition weightedSum (m : Metrics.t) : R :=
  (Metrics.aiProbability m * Math_pow_1_5 (Metrics.aiConfidence m) * 20
   + (if decide (Metrics.urgencyScore m > 0.3) then Metrics.urgencyScore m * 12 else 0)
   + (if decide (Metrics.persuasionScore m > 0.2)
      then Rmin (Metrics.persuasionScore m) 1 * 10 else 0)
   + (if decide (Metrics.llmScore m > 0.25)
      then Metrics.llmScore m * 15
           * (1 + Rmin (INR (Metrics.llmRiskFactors m) * 0.15) 0.5)
      else 0)
   + Metrics.domainRisk m / 100 * 25
   + (if decide (Metrics.jailbreakHits m > 0)
      then Rmin (Metrics.jailbreakHits m * 2.5) 12
           * (if decide (0 < Metrics.jailbreakCritical m)%nat then 1.8 else 1)
      else 0)
   + Rmin (INR (Metrics.manipulationTechniques m) * 2) 8
   + (if decide (Metrics.credibilityScore m < 0.7)
      then (1 - Metrics.credibilityScore m) * 12 else 0))%R.


(** The documented ranges of the component sub-scores. *)
Definition sub_scores_in_range (m : Metrics.t) : Prop :=
  (0 <= Metrics.aiProbability m <= 1)%R ∧
  (0 <= Metrics.aiConfidence m <= 1)%R ∧
  (0 <= Metrics.urgencyScore m <= 1)%R ∧
  (0 <= Metrics.persuasionScore m <= 1)%R ∧
  (0 <= Metrics.llmScore m <= 1)%R ∧
  (0 <= Metrics.domainRisk m <= 100)%R ∧
  (0 <= Metrics.jailbreakHits m)%R ∧
  (0 <= Metrics.credibilityScore m <= 1)%R.

(** *** A page with pressure tactics and no independent signal *)

(** The analysis of a text without AI markers (fewer than three sentences,
    so all four sub-scores are 0 and agree): three urgency matches, nine
    persuasion keywords, three manipulation techniques of which one is of
    high severity, and a "click here" link. *)
Definition pressureText : AITextAnalyzer.Result :=
  {| AITextAnalyzer.aiProbability := 0;
     AITextAnalyzer.confidence := 1;
     AITextAnalyzer.breakdown :=
       [ {| AITextAnalyzer.component := "linguistic";
            AITextAnalyzer.component_score := 0;
            AITextAnalyzer.component_weight := 0.35;
            AITextAnalyzer.contribution := 0 |};
         {| AITextAnalyzer.component := "statistical";
            AITextAnalyzer.component_score := 0;
            AITextAnalyzer.component_weight := 0.30;
            AITextAnalyzer.contribution := 0 |};
         {| AITextAnalyzer.component := "semantic";
            AITextAnalyzer.component_score := 0;
            AITextAnalyzer.component_weight := 0.20;
            AITextAnalyzer.contribution := 0 |};
         {| AITextAnalyzer.component := "structural";
            AITextAnalyzer.component_score := 0;
            AITextAnalyzer.component_weight := 0.15;
            AITextAnalyzer.contribution := 0 |} ];
     AITextAnalyzer.persuasionFlags :=
       ["urgent"; "immediately"; "hurry"; "act now"; "official"; "warning";
        "alert"; "free gift"; "click here"]%string;
     AITextAnalyzer.persuasionScore := 1;
     AITextAnalyzer.urgencyScore := 0.6;
     AITextAnalyzer.resultIndicators :=
       [ {| AITextAnalyzer.category := "consequenceThreats";
            AITextAnalyzer.indicator_count := 3;
            AITextAnalyzer.examples :=
              [lit "will be suspended"; lit "failure to respond"] |} ];
     AITextAnalyzer.manipulationTechniques :=
       [ {| Technique.type := "social_proof"; Technique.severity := medium |};
         {| Technique.type := "false_authority"; Technique.severity := high |};
         {| Technique.type := "reciprocity"; Technique.severity := low |} ];
     AITextAnalyzer.credibilityScore := 0.85;
     AITextAnalyzer.credibilityFactors :=
       [ ("negative", "Generic 'click here' links") ]%string;
     AITextAnalyzer.recommendation := medium |}.

(** Its fingerprint: ten urgency markers and two GPT-style phrases in a
    financial context, with flawless grammar: score
    (0.25 + 0.05) * 1.5 + 0.15 = 0.6 and three risk factors, none critical. *)
Definition pressureFingerprint : LLMFingerprinter.Result :=
  {| LLMFingerprinter.score := 0.6;
     LLMFingerprinter.matches :=
       [ ("gptSignatures"%string, [lit "i must inform you"; lit "keep in mind that"]);
         ("urgencyMarkers"%string,
          [lit "immediate action"; lit "account suspension"; lit "final warning"]) ];
     LLMFingerprinter.totalHits := 12;
     LLMFingerprinter.modelSignatures :=
       [ ("GPT"%string, 0.05%R); ("Phishing"%string, 0.25%R) ];
     LLMFingerprinter.likelyModel :=
       Some {| LLMFingerprinter.type := "Phishing";
               LLMFingerprinter.model_confidence := 0.5;
               LLMFingerprinter.allSignatures :=
                 [ ("Phishing"%string, 0.25%R); ("GPT"%string, 0.05%R) ] |};
     LLMFingerprinter.contextMultiplier := 1.5;
     LLMFingerprinter.heuristics :=
       Some {| LLMFingerprinter.heuristics_score := 0.15;
               LLMFingerprinter.details :=
                 {| LLMFingerprinter.excessiveFormality := None;
                    LLMFingerprinter.suspiciousGrammar := true;
                    LLMFingerprinter.unnaturalRhythm := None;
                    LLMFingerprinter.overStructured := None;
                    LLMFingerprinter.repetitivePhrases := None |} |};
     LLMFingerprinter.riskFactors :=
       [ {| RiskFactor.type := "high_urgency_ai_combo"; RiskFactor.severity := high |};
         {| RiskFactor.type := "high_risk_context"; RiskFactor.severity := high |};
         {| RiskFactor.type := "suspicious_grammar"; RiskFactor.severity := medium |} ] |}.

(** Its host, which both remote feeds flag: computed risk 30 + 30. *)
Definition flaggedHost : DomainReputation.DomainResult :=
  DomainReputation.checkDomain (lit "example.org") (DomainReputation.ComputedRisk 60).

(** The metrics [analyzePage] builds from these results. *)
Definition pressureMetrics : Metrics.t :=
  {| Metrics.aiProbability := 0; Metrics.aiConfidence := 1;
     Metrics.urgencyScore := 0.6; Metrics.persuasionScore := 1;
     Metrics.persuasionCount := 9; Metrics.llmScore := 0.6;
     Metrics.llmRiskFactors := 3; Metrics.domainRisk := 60;
     Metrics.jailbreakHits := 0; Metrics.jailbreakCritical := 0;
     Metrics.manipulationTechniques := 3;
     Metrics.credibilityScore := 0.85 |}.

End Aggregator.

(** * Theorems *)

(** ** Loops *)

Lemma for_range_S {S : Type} start n (body : S → nat → S) s :
  for_range start (Datatypes.S n) body s = body (for_range start n body s) (start + n).
Proof.
  unfold for_range. rewrite seq_S, foldl_app. reflexivity.
Qed.

(** Loop invariant rule: [P k] holds before the iteration of index
    [start + k]. *)
Lemma for_range_invariant {S : Type} (P : nat → S → Prop) start n body s :
  P 0 s →
  (∀ k st, k < n → P k st → P (Datatypes.S k) (body st (start + k))) →
  P n (for_range start n body s).
Proof.
  intros H0 Hstep. induction n as [|n IH].
  - exact H0.
  - rewrite for_range_S. apply Hstep; [lia|]. apply IH.
    intros k st Hk. apply Hstep. lia.
Qed.

(** ** Edit distance *)

Section LevenshteinFacts.
Context {A : Type} `{EqDecision A}.
Import Levenshtein.

Implicit Types a b : list A.

Lemma edit_distance_nil_r a : edit_distance a [] = length a.
Proof. destruct a; reflexivity. Qed.

Lemma edit_distance_cons x a y b :
  edit_distance (x :: a) (y :: b) =
  min3 (edit_distance a (y :: b) + 1) (edit_distance (x :: a) b + 1)
       (edit_distance a b + (if decide (x = y) then 0 else 1)).
Proof. reflexivity. Qed.

(** Deleting all of [a], or inserting all of [b]. *)
Lemma edit_script_delete_all a : edit_script a [] (length a).
Proof. induction a; simpl; constructor; assumption. Qed.

Lemma edit_script_insert_all b : edit_script [] b (length b).
Proof. induction b; simpl; constructor; assumption. Qed.

(** The recursion is realised by a script... *)
Lemma edit_distance_script a b : edit_script a b (edit_distance a b).
Proof.
  revert b. induction a as [|x a IHa]; intros b.
  - apply edit_script_insert_all.
  - induction b as [|y b IHb].
    + rewrite edit_distance_nil_r. apply edit_script_delete_all.
    + rewrite edit_distance_cons. unfold min3.
      pose proof (IHa (y :: b)) as Hdel. pose proof (IHa b) as Hsub.
      apply es_delete with (x := x) in Hdel.
      apply es_insert with (y := y) in IHb.
      destruct (decide (x = y)) as [->|Hne].
      * apply es_keep with (x := y) in Hsub.
        rewrite Nat.add_0_r, !Nat.add_1_r.
        destruct (Nat.min_spec (S (edit_distance a (y :: b)))
                    (S (edit_distance (y :: a) b) `min` edit_distance a b))
          as [[_ ->]|[_ ->]]; [assumption|].
        destruct (Nat.min_spec (S (edit_distance (y :: a) b)) (edit_distance a b))
          as [[_ ->]|[_ ->]]; assumption.
      * apply es_subst with (x := x) (y := y) in Hsub.
        rewrite !Nat.add_1_r.
        destruct (Nat.min_spec (S (edit_distance a (y :: b)))
                    (S (edit_distance (x :: a) b) `min` S (edit_distance a b)))
          as [[_ ->]|[_ ->]]; [assumption|].
        destruct (Nat.min_spec (S (edit_distance (x :: a) b)) (S (edit_distance a b)))
          as [[_ ->]|[_ ->]]; assumption.
Qed.

(** ... and no script is shorter. *)
Lemma edit_distance_least a b n : edit_script a b n → edit_distance a b ≤ n.
Proof.
  induction 1 as [|x a b n _ IH|y a b n _ IH|x a b n _ IH|x y a b n _ IH].
  - reflexivity.
  - destruct b as [|y b].
    + rewrite edit_distance_nil_r in *. simpl. lia.
    + rewrite edit_distance_cons. unfold min3. lia.
  - destruct a as [|x a].
    + simpl in *. lia.
    + rewrite edit_distance_cons. unfold min3. lia.
  - rewrite edit_distance_cons. unfold min3.
    destruct (decide (x = x)); [lia|congruence].
  - rewrite edit_distance_cons. unfold min3.
    destruct (decide (x = y)); lia.
Qed.

(** Scripts can be extended at the right end as well. *)
Lemma edit_script_snoc_delete a b n x :
  edit_script a b n → edit_script (a ++ [x]) b (S n).
Proof.
  induction 1; simpl; try (constructor; assumption).
  apply es_delete, es_nil.
Qed.

Lemma edit_script_snoc_insert a b n y :
  edit_script a b n → edit_script a (b ++ [y]) (S n).
Proof.
  induction 1; simpl; try (constructor; assumption).
  apply es_insert, es_nil.
Qed.

Lemma edit_script_snoc_keep a b n x :
  edit_script a b n → edit_script (a ++ [x]) (b ++ [x]) n.
Proof.
  induction 1; simpl; try (constructor; assumption).
  apply es_keep, es_nil.
Qed.

Lemma edit_script_snoc_subst a b n x y :
  edit_script a b n → edit_script (a ++ [x]) (b ++ [y]) (S n).
Proof.
  induction 1; simpl; try (constructor; assumption).
  apply es_subst, es_nil.
Qed.

Lemma edit_script_reverse a b n :
  edit_script a b n → edit_script (reverse a) (reverse b) n.
Proof.
  induction 1; rewrite ?reverse_cons.
  - constructor.
  - by apply edit_script_snoc_delete.
  - by apply edit_script_snoc_insert.
  - by apply edit_script_snoc_keep.
  - by apply edit_script_snoc_subst.
Qed.

Lemma edit_distance_reverse a b :
  edit_distance (reverse a) (reverse b) = edit_distance a b.
Proof.
  apply Nat.le_antisymm.
  - apply edit_distance_least, edit_script_reverse, edit_distance_script.
  - rewrite <- (reverse_involutive a), <- (reverse_involutive b) at 1.
    apply edit_distance_least, edit_script_reverse, edit_distance_script.
Qed.

(** *** The matrix of the dynamic program *)

Lemma prefix_distance_0_r a b i : i ≤ length a → prefix_distance a b i 0 = i.
Proof.
  intros Hi. unfold prefix_distance. rewrite take_0, edit_distance_nil_r.
  by apply length_take_le.
Qed.

Lemma prefix_distance_0_l a b j : j ≤ length b → prefix_distance a b 0 j = j.
Proof.
  intros Hj. unfold prefix_distance. rewrite take_0. simpl.
  by apply length_take_le.
Qed.

Lemma edit_distance_snoc a b x y :
  edit_distance (a ++ [x]) (b ++ [y]) =
  min3 (edit_distance a (b ++ [y]) + 1) (edit_distance (a ++ [x]) b + 1)
       (edit_distance a b + (if decide (x = y) then 0 else 1)).
Proof.
  rewrite <- (edit_distance_reverse (a ++ [x]) (b ++ [y])).
  rewrite <- (edit_distance_reverse a (b ++ [y])).
  rewrite <- (edit_distance_reverse (a ++ [x]) b).
  rewrite <- (edit_distance_reverse a b).
  rewrite !reverse_snoc. apply edit_distance_cons.
Qed.

Lemma prefix_distance_step a b i j :
  i < length a → j < length b →
  prefix_distance a b (S i) (S j) =
  min3 (prefix_distance a b i (S j) + 1) (prefix_distance a b (S i) j + 1)
       (prefix_distance a b i j + subst_cost a b (S i) (S j)).
Proof.
  intros Hi Hj. unfold prefix_distance, subst_cost.
  destruct (lookup_lt_is_Some_2 a i Hi) as [x Hx].
  destruct (lookup_lt_is_Some_2 b j Hj) as [y Hy].
  rewrite !Nat.sub_succ, !Nat.sub_0_r, Hx, Hy.
  rewrite (take_S_r a i x Hx), (take_S_r b j y Hy), edit_distance_snoc.
  destruct (decide (x = y)), (decide (Some x = Some y)); congruence.
Qed.

Lemma matrix_get_set_eq (m : list (list nat)) i j v row :
  m !! i = Some row → j < length row →
  matrix_get (matrix_set m i j v) i j = v.
Proof.
  intros Hrow Hj. unfold matrix_get, matrix_set.
  rewrite list_lookup_alter_eq, Hrow. simpl.
  by rewrite list_lookup_insert_eq.
Qed.

Lemma matrix_get_set_ne (m : list (list nat)) i j v i' j' :
  (i, j) ≠ (i', j') →
  matrix_get (matrix_set m i j v) i' j' = matrix_get m i' j'.
Proof.
  intros Hne. unfold matrix_get, matrix_set.
  destruct (decide (i = i')) as [->|Hi].
  - rewrite list_lookup_alter_eq. destruct (m !! i') as [row|]; [|done]. simpl.
    rewrite list_lookup_insert_ne; [done|congruence].
  - by rewrite list_lookup_alter_ne.
Qed.

Lemma filled_init a b :
  filled a b (λ _ _, False)
    (replicate (length a + 1) (replicate (length b + 1) 0)).
Proof.
  split; [apply length_replicate|]. split; [|tauto].
  intros i row [-> _]%lookup_replicate. apply length_replicate.
Qed.

Lemma filled_weaken a b (K K' : nat → nat → Prop) m :
  (∀ i j, i ≤ length a → j ≤ length b → K' i j → K i j) →
  filled a b K m → filled a b K' m.
Proof.
  intros HK (Hlen & Hrows & Hcells). repeat split; auto.
Qed.

(** Writing the final value of one more cell. *)
Lemma filled_set a b (K : nat → nat → Prop) m i j v :
  filled a b K m → i ≤ length a → j ≤ length b →
  v = prefix_distance a b i j →
  filled a b (λ i' j', K i' j' ∨ (i' = i ∧ j' = j)) (matrix_set m i j v).
Proof.
  intros (Hlen & Hrows & Hcells) Hi Hj ->. split; [|split].
  - unfold matrix_set. by rewrite length_alter.
  - intros i' row. unfold matrix_set. rewrite list_lookup_alter.
    case_decide as Hii.
    + intros (row' & Hrow' & ->)%fmap_Some.
      rewrite length_insert. eauto.
    + apply Hrows.
  - intros i' j' Hi' Hj' HK.
    destruct (decide ((i, j) = (i', j'))) as [[= <- <-]|Hne].
    + destruct (lookup_lt_is_Some_2 m i) as [row Hrow]; [lia|].
      apply (matrix_get_set_eq m i j _ row Hrow).
      rewrite (Hrows i row Hrow). lia.
    + rewrite matrix_get_set_ne by done. apply Hcells; [done..|].
      destruct HK as [HK|[-> ->]]; [done|congruence].
Qed.

(** First loop: column 0. *)
Lemma filled_first_column a b m :
  filled a b (λ _ _, False) m →
  filled a b (λ i j, j = 0)
    (for_range 0 (length a + 1) (λ m i, matrix_set m i 0 i) m).
Proof.
  intros Hm.
  apply (filled_weaken a b (λ i j, j = 0 ∧ i < length a + 1)); [lia|].
  apply (for_range_invariant (λ k m, filled a b (λ i j, j = 0 ∧ i < k) m)).
  - eapply filled_weaken; [|exact Hm]. cbv beta. lia.
  - intros k st Hk Hst. simpl.
    eapply filled_weaken; [|apply (filled_set a b _ st k 0 k Hst)]; try lia.
    + cbv beta. lia.
    + symmetry. apply prefix_distance_0_r. lia.
Qed.

(** Second loop: row 0. *)
Lemma filled_first_row a b m :
  filled a b (λ i j, j = 0) m →
  filled a b (λ i j, i = 0 ∨ j = 0)
    (for_range 0 (length b + 1) (λ m j, matrix_set m 0 j j) m).
Proof.
  intros Hm.
  apply (filled_weaken a b (λ i j, j = 0 ∨ (i = 0 ∧ j < length b + 1))); [lia|].
  apply (for_range_invariant
           (λ k m, filled a b (λ i j, j = 0 ∨ (i = 0 ∧ j < k)) m)).
  - eapply filled_weaken; [|exact Hm]. cbv beta. lia.
  - intros k st Hk Hst. simpl.
    eapply filled_weaken; [|apply (filled_set a b _ st 0 k k Hst)]; try lia.
    + cbv beta. lia.
    + symmetry. apply prefix_distance_0_l. lia.
Qed.

(** The nested loops: rows [1 .. length a], each from column 1 on. *)
Lemma filled_body a b m :
  filled a b (λ i j, i = 0 ∨ j = 0) m →
  filled a b (λ _ _, True)
    (for_range 1 (length a) (λ m i,
       for_range 1 (length b) (λ m j,
         let cost := subst_cost a b i j in
         matrix_set m i j
           (min3 (matrix_get m (i - 1) j + 1)
                 (matrix_get m i (j - 1) + 1)
                 (matrix_get m (i - 1) (j - 1) + cost))) m) m).
Proof.
  intros Hm.
  apply (filled_weaken a b (λ i j, i = 0 ∨ j = 0 ∨ i ≤ length a)); [lia|].
  apply (for_range_invariant
           (λ r m, filled a b (λ i j, i = 0 ∨ j = 0 ∨ i ≤ r) m)).
  { eapply filled_weaken; [|exact Hm]. cbv beta. lia. }
  intros r st Hr Hst.
  apply (filled_weaken a b
           (λ i j, i = 0 ∨ j = 0 ∨ i ≤ r ∨ (i = S r ∧ j ≤ length b))); [lia|].
  apply (for_range_invariant
           (λ c m, filled a b (λ i j, i = 0 ∨ j = 0 ∨ i ≤ r ∨ (i = S r ∧ j ≤ c)) m)).
  { eapply filled_weaken; [|exact Hst]. cbv beta. lia. }
  intros c st' Hc Hst'. simpl.
  eapply filled_weaken;
    [|apply (filled_set a b _ st' (S r) (S c) _ Hst')]; try lia.
  { cbv beta. lia. }
  destruct Hst' as (_ & _ & Hcells).
  rewrite prefix_distance_step by lia.
  rewrite !Nat.sub_0_r, !Hcells by lia. reflexivity.
Qed.

Lemma levenshteinDistance_correct a b :
  levenshteinDistance a b = edit_distance a b.
Proof.
  unfold levenshteinDistance.
  pose proof (filled_body a b _
    (filled_first_row a b _ (filled_first_column a b _ (filled_init a b))))
    as (_ & _ & Hcells).
  rewrite Hcells by done. unfold prefix_distance.
  by rewrite !take_ge.
Qed.

Lemma levenshtein_correct a b : levenshtein a b = edit_distance a b.
Proof.
  unfold levenshtein.
  pose proof (filled_body a b _
    (filled_first_row a b _ (filled_first_column a b _ (filled_init a b))))
    as (_ & _ & Hcells).
  rewrite Hcells by done. unfold prefix_distance.
  by rewrite !take_ge.
Qed.

(** C10. The content-script utility [levenshteinDistance] and the service
    worker's [levenshtein] return the same value on every pair of strings,
    and that value is the unit-cost edit distance: it is the value of the
    textbook recursion, some script of insertions, deletions and
    substitutions has that many operations, and no script has fewer. *)
Theorem levenshtein_implementations_agree a b :
  levenshteinDistance a b = levenshtein a b ∧
  levenshteinDistance a b = edit_distance a b ∧
  edit_script a b (levenshteinDistance a b) ∧
  (∀ n, edit_script a b n → levenshteinDistance a b ≤ n).
Proof.
  rewrite levenshteinDistance_correct, levenshtein_correct.
  repeat split.
  - apply edit_distance_script.
  - apply edit_distance_least.
Qed.

End LevenshteinFacts.


(** ** Numbers *)

Section Numbers.
Import Js.
Open Scope R_scope.

Lemma Math_floor_spec (x : R) :
  IZR (Math_floor x) <= x < IZR (Math_floor x) + 1.
Proof.
  unfold Math_floor. destruct (base_Int_part x). lra.
Qed.

Lemma Math_floor_unique (x : R) (z : Z) :
  IZR z <= x < IZR z + 1 → Math_floor x = z.
Proof.
  intros Hz. symmetry. apply Int_part_spec. lra.
Qed.

Lemma Math_round_IZR (z : Z) : Math_round (IZR z) = z.
Proof. apply Math_floor_unique. lra. Qed.

Lemma Math_round_nonneg (x : R) : 0 <= x → (0 ≤ Math_round x)%Z.
Proof.
  intros Hx. unfold Math_round.
  pose proof (Math_floor_spec (x + / 2)) as [_ Hlt].
  apply Z.lt_succ_r, lt_IZR. rewrite succ_IZR. lra.
Qed.

Lemma Math_round_le (x : R) (z : Z) : x <= IZR z → (Math_round x ≤ z)%Z.
Proof.
  intros Hx. unfold Math_round.
  pose proof (Math_floor_spec (x + / 2)) as [Hle _].
  apply Z.lt_succ_r, lt_IZR. rewrite succ_IZR. lra.
Qed.

Lemma pow_10_pos (d : nat) : 0 < 10 ^ d.
Proof. apply pow_lt. lra. Qed.

Lemma pow_10_IZR (d : nat) : 10 ^ d = IZR (10 ^ Z.of_nat d).
Proof.
  induction d as [|d IH].
  - reflexivity.
  - rewrite Nat2Z.inj_succ, Z.pow_succ_r, mult_IZR by lia.
    simpl. rewrite IH. reflexivity.
Qed.

(** Rounding to [d] decimals keeps a value between 0 and an integer bound. *)
Lemma toFixed_bounds (d : nat) (x : R) (n : Z) :
  0 <= x <= IZR n → 0 <= toFixed d x <= IZR n.
Proof.
  intros [H0 Hn]. unfold toFixed.
  destruct (decide (x < 0)) as [Hneg|_]; [lra|].
  pose proof (pow_10_pos d) as Hpos.
  assert (0 <= x * 10 ^ d) as Hx0 by (apply Rmult_le_pos; lra).
  assert (x * 10 ^ d <= IZR (n * 10 ^ Z.of_nat d)) as Hxn.
  { rewrite mult_IZR, <- pow_10_IZR. apply Rmult_le_compat_r; lra. }
  pose proof (Math_round_nonneg _ Hx0) as Hr0.
  pose proof (Math_round_le _ _ Hxn) as Hrn.
  apply IZR_le in Hr0, Hrn. rewrite mult_IZR, <- pow_10_IZR in Hrn.
  split.
  - apply Rmult_le_pos; [lra|]. apply Rlt_le, Rinv_0_lt_compat, Hpos.
  - apply (Rmult_le_reg_r (10 ^ d)); [exact Hpos|].
    unfold Rdiv. rewrite Rmult_assoc, Rinv_l by lra. lra.
Qed.

(** A value at or above a multiple of [10^-d] stays there when rounded. *)
Lemma toFixed_ge (d : nat) (x : R) (k : Z) :
  0 <= x → IZR k <= x * 10 ^ d → IZR k / 10 ^ d <= toFixed d x.
Proof.
  intros H0 Hk. unfold toFixed.
  destruct (decide (x < 0)) as [Hneg|_]; [lra|].
  pose proof (pow_10_pos d) as Hpos.
  assert (k ≤ Math_round (x * 10 ^ d))%Z as Hle.
  { unfold Math_round.
    pose proof (Math_floor_spec (x * 10 ^ d + / 2)) as [_ Hlt].
    apply Z.lt_succ_r, lt_IZR. rewrite succ_IZR. lra. }
  apply IZR_le in Hle.
  apply (Rmult_le_reg_r (10 ^ d)); [exact Hpos|].
  unfold Rdiv. rewrite !Rmult_assoc, Rinv_l by lra. lra.
Qed.

Lemma toFixed_unit (d : nat) (x : R) : 0 <= x <= 1 → 0 <= toFixed d x <= 1.
Proof. apply (toFixed_bounds d x 1). Qed.

(** An invariant of a fold. *)
Lemma foldl_invariant {A B : Type} (P : A → Prop) (f : A → B → A) (a : A)
    (l : list B) :
  P a → (∀ a x, P a → P (f a x)) → P (foldl f a l).
Proof.
  intros Ha Hstep. revert a Ha.
  induction l as [|x l IH]; intros a Ha; [exact Ha|].
  cbn. apply IH, Hstep, Ha.
Qed.

Lemma foldl_invariant_Forall {A B : Type} (P : A → Prop) (Q : B → Prop)
    (f : A → B → A) (a : A) (l : list B) :
  Forall Q l → P a → (∀ a x, Q x → P a → P (f a x)) → P (foldl f a l).
Proof.
  intros Hl Ha Hstep. revert a Ha.
  induction Hl as [|x l Hx _ IH]; intros a Ha; [exact Ha|].
  cbn. apply IH, Hstep; assumption.
Qed.

Lemma Math_pow_1_5_nonneg (x : R) : 0 <= x → 0 <= Math_pow_1_5 x.
Proof.
  intros Hx. unfold Math_pow_1_5. apply Rmult_le_pos; [exact Hx|apply sqrt_pos].
Qed.

Lemma Math_pow_1_5_le_1 (x : R) : 0 <= x <= 1 → Math_pow_1_5 x <= 1.
Proof.
  intros [H0 H1]. unfold Math_pow_1_5.
  assert (sqrt x <= 1) by (rewrite <- sqrt_1; apply sqrt_le_1; lra).
  pose proof (sqrt_pos x). nra.
Qed.

(** For a positive base, [Math_pow_1_5] is the real power of exponent 3/2. *)
Lemma Math_pow_1_5_Rpower (x : R) : 0 < x → Math_pow_1_5 x = Rpower x (3 / 2).
Proof.
  intros Hx. unfold Math_pow_1_5.
  replace (3 / 2) with (1 + / 2) by lra.
  rewrite Rpower_plus, Rpower_1, Rpower_sqrt by exact Hx. reflexivity.
Qed.

Lemma Math_pow_1_5_0 : Math_pow_1_5 0 = 0.
Proof. unfold Math_pow_1_5. lra. Qed.

Lemma Math_pow_1_5_1 : Math_pow_1_5 1 = 1.
Proof. unfold Math_pow_1_5. rewrite sqrt_1. lra. Qed.

End Numbers.


(** ** The jailbreak scanner *)

Section JailbreakFacts.
Import Js JailbreakDetector.
Open Scope R_scope.

Lemma sum_R_app (xs ys : list R) : sum_R (xs ++ ys) = sum_R xs + sum_R ys.
Proof.
  unfold sum_R. induction xs as [|x xs IH]; simpl; lra.
Qed.

Lemma sum_R_cons (x : R) (xs : list R) : sum_R (x :: xs) = x + sum_R xs.
Proof. reflexivity. Qed.

Lemma Results_eq (r : Results) (t : R) (c : nat) (d : list NodeAnalysis) (s : R) :
  totalHits r = t → criticalHits r = c → detections r = d → riskScore r = s →
  r = {| totalHits := t; criticalHits := c; detections := d; riskScore := s |}.
Proof. destruct r; simpl; intros; subst; reflexivity. Qed.

(** *** What [analyzeNode] records *)

Lemma patternTable_names :
  Forall (λ config, name config ≠ "heuristics"%string ∧ 0 <= weight config)
    patternTable.
Proof. unfold patternTable. repeat constructor; try discriminate; cbn; lra. Qed.

(** What holds of every matched category of the table and of the heuristic
    findings holds of every entry an analysis records. *)
Lemma analyzeCategory_entries (P : string * PatternEntry → Prop)
    E text result config :
  (∀ ms, P (name config, Matched ms (severity config) (weight config))) →
  Forall P (nodePatterns result) →
  Forall P (nodePatterns (analyzeCategory E text result config)).
Proof.
  intros Hconfig Hres. unfold analyzeCategory.
  set (step := λ (acc : list (list N) * NodeAnalysis) pattern, _).
  assert (∀ ps acc, Forall P (nodePatterns acc.2) →
            Forall P (nodePatterns (foldl step acc ps).2)) as Hfold.
  { induction ps as [|p ps IH]; intros acc Hacc; [exact Hacc|].
    simpl. apply IH. unfold step. destruct acc as [ms res].
    destruct (decide (0 < length (match_all E p text)))%nat; exact Hacc. }
  specialize (Hfold (patterns config) ([], result) Hres).
  destruct (foldl step ([], result) (patterns config)) as [ms res].
  destruct (decide (0 < length ms))%nat; [|exact Hfold].
  simpl. apply Forall_app. split; [exact Hfold|].
  constructor; [apply Hconfig|constructor].
Qed.

Lemma analyzeNode_entries (P : string * PatternEntry → Prop) E node tag :
  Forall (λ config, ∀ ms, P (name config, Matched ms (severity config) (weight config)))
    patternTable →
  (∀ h, P ("heuristics"%string, HeuristicFindings h)) →
  Forall P (nodePatterns (analyzeNode E node tag)).
Proof.
  intros Htable Hheur.
  unfold analyzeNode. case_bool_decide; [constructor|].
  set (result0 := {| source := tag; hits := 0; maxSeverity := low; nodePatterns := [] |}).
  assert (∀ table result,
            Forall (λ config, ∀ ms,
                      P (name config, Matched ms (severity config) (weight config)))
              table →
            Forall P (nodePatterns result) →
            Forall P (nodePatterns
                        (foldl (analyzeCategory E (nodeText node tag)) result table)))
    as Hfold.
  { induction table as [|c table IH]; intros result Htab Hres; [exact Hres|].
    simpl. inversion Htab; subst. apply IH; [assumption|].
    by apply analyzeCategory_entries. }
  specialize (Hfold patternTable result0 Htable (Forall_nil_2 _)).
  destruct (suspicious _); [|exact Hfold].
  simpl. apply Forall_app. split; [exact Hfold|].
  constructor; [apply Hheur|constructor].
Qed.

Lemma analyzeNode_well_keyed E node tag :
  Forall well_keyed (nodePatterns (analyzeNode E node tag)).
Proof.
  apply analyzeNode_entries; [|reflexivity].
  eapply Forall_impl; [apply patternTable_names|].
  intros config [Hname _] ms. exact Hname.
Qed.

Lemma analyzeNode_weights E node tag :
  Forall (λ w, 0 <= w) (matchedWeights (analyzeNode E node tag)).
Proof.
  unfold matchedWeights.
  assert (Forall (λ e : string * PatternEntry,
                    match e.2 with
                    | Matched _ _ w => 0 <= w
                    | HeuristicFindings _ => True
                    end) (nodePatterns (analyzeNode E node tag))) as Hentries.
  { apply (analyzeNode_entries
             (λ e, match e.2 with
                   | Matched _ _ w => 0 <= w
                   | HeuristicFindings _ => True
                   end)); [|done].
    eapply Forall_impl; [apply patternTable_names|].
    intros config [_ Hw] ms. exact Hw. }
  induction Hentries as [|[key e] entries He _ IH]; [constructor|].
  cbn. destruct e as [ms sev w|h]; cbn; [constructor; assumption|assumption].
Qed.

(** The inner loop of [calculateRiskScore] adds 20 times each matched weight. *)
Lemma weights_fold (a : NodeAnalysis) (score : R) :
  Forall well_keyed (nodePatterns a) →
  foldl (λ score (entry : string * PatternEntry),
      if bool_decide (entry.1 = "heuristics"%string) then score
      else match entry.2 with
           | Matched _ _ weight => score + weight * 20
           | HeuristicFindings _ => score
           end) score (nodePatterns a)
  = score + sum_R ((λ w, w * 20) <$> matchedWeights a).
Proof.
  unfold matchedWeights. generalize (nodePatterns a). clear a.
  intros entries. revert score.
  induction entries as [|[key e] entries IH]; intros score Hkeys.
  - simpl. unfold sum_R. simpl. lra.
  - inversion Hkeys as [|? ? Hkey Hrest]; subst. simpl.
    rewrite IH by assumption. unfold well_keyed in Hkey. simpl in Hkey.
    destruct e as [ms sev w|h]; simpl.
    + rewrite bool_decide_eq_false_2 by assumption.
      unfold sum_R. simpl. rewrite Rplus_assoc. reflexivity.
    + rewrite bool_decide_eq_true_2 by assumption. reflexivity.
Qed.

Lemma detections_fold (ds : list NodeAnalysis) (score : R) :
  Forall (λ a, Forall well_keyed (nodePatterns a)) ds →
  foldl (λ score detection,
      foldl (λ score (entry : string * PatternEntry),
        if bool_decide (entry.1 = "heuristics"%string) then score
        else match entry.2 with
             | Matched _ _ weight => score + weight * 20
             | HeuristicFindings _ => score
             end) score (nodePatterns detection)) score ds
  = score + sum_R ((λ w, w * 20) <$> (ds ≫= matchedWeights)).
Proof.
  intros Hkeys. revert score.
  induction Hkeys as [|a ds Ha _ IH]; intros score.
  - cbn. unfold sum_R. cbn. lra.
  - cbn [foldl]. rewrite weights_fold by assumption. rewrite IH.
    rewrite bind_cons, fmap_app, sum_R_app. lra.
Qed.

Lemma calculateRiskScore_capped (results : Results) :
  Forall (λ a, Forall well_keyed (nodePatterns a)) (detections results) →
  calculateRiskScore results =
  riskScore_capped (totalHits results) (criticalHits results)
    (detections results ≫= matchedWeights).
Proof.
  intros Hkeys. unfold calculateRiskScore, riskScore_capped.
  rewrite detections_fold by assumption.
  do 3 f_equal. lra.
Qed.

(** *** The scanning loops *)

Lemma scan_nodes_fold E (tag : string) (nodes : list Node) (r : Results) :
  foldl (λ results element,
      let analysis := analyzeNode E element tag in
      if decide (hits analysis > 0) then
        {| totalHits := totalHits results + hits analysis;
           criticalHits :=
             if decide (maxSeverity analysis = critical)
             then S (criticalHits results) else criticalHits results;
           detections := detections results ++ [analysis];
           riskScore := riskScore results |}
      else results) r nodes
  = let fragments :=
      filter (λ a, hits a > 0) ((λ n, analyzeNode E n tag) <$> nodes) in
    {| totalHits := totalHits r + sum_R (hits <$> fragments);
       criticalHits :=
         (criticalHits r + length (filter (λ a, maxSeverity a = critical) fragments))%nat;
       detections := detections r ++ fragments;
       riskScore := riskScore r |}.
Proof.
  revert r. induction nodes as [|n nodes IH]; intros r.
  - cbn. apply Results_eq; cbn; [unfold sum_R; cbn; lra|lia|by rewrite app_nil_r|done].
  - cbn [foldl fmap list_fmap]. rewrite IH. cbn zeta.
    rewrite filter_cons.
    destruct (decide (hits (analyzeNode E n tag) > 0)) as [Hhit|Hhit].
    + rewrite fmap_cons, sum_R_cons, filter_cons. cbn [totalHits criticalHits detections riskScore].
      f_equal.
      * lra.
      * destruct (decide (maxSeverity (analyzeNode E n tag) = critical)); cbn; lia.
      * by rewrite <- app_assoc.
    + reflexivity.
Qed.

Lemma scan_attribute_nodes_fold E (tag : string) (nodes : list Node) (r : Results) :
  foldl (λ results element,
      let analysis := analyzeNode E element tag in
      if decide (hits analysis > 0) then
        {| totalHits := totalHits results + hits analysis;
           criticalHits := S (criticalHits results);
           detections := detections results ++ [analysis];
           riskScore := riskScore results |}
      else results) r nodes
  = let fragments :=
      filter (λ a, hits a > 0) ((λ n, analyzeNode E n tag) <$> nodes) in
    {| totalHits := totalHits r + sum_R (hits <$> fragments);
       criticalHits := (criticalHits r + length fragments)%nat;
       detections := detections r ++ fragments;
       riskScore := riskScore r |}.
Proof.
  revert r. induction nodes as [|n nodes IH]; intros r.
  - cbn. apply Results_eq; cbn; [unfold sum_R; cbn; lra|lia|by rewrite app_nil_r|done].
  - cbn [foldl fmap list_fmap]. rewrite IH. cbn zeta.
    rewrite filter_cons.
    destruct (decide (hits (analyzeNode E n tag) > 0)) as [Hhit|Hhit].
    + rewrite fmap_cons, sum_R_cons. cbn [totalHits criticalHits detections riskScore length].
      f_equal; [lra|lia|by rewrite <- app_assoc].
    + reflexivity.
Qed.

Lemma scanScripts_spec E page r :
  scanScripts E page r =
  {| totalHits := totalHits r + sum_R (hits <$> scriptFragments E page);
     criticalHits :=
       (criticalHits r +
        length (filter (λ a, maxSeverity a = critical) (scriptFragments E page)))%nat;
     detections := detections r ++ scriptFragments E page;
     riskScore := riskScore r |}.
Proof. apply scan_nodes_fold. Qed.

Lemma scanEventHandlers_spec E page r :
  scanEventHandlers E page r =
  {| totalHits := totalHits r + sum_R (hits <$> handlerFragments E page);
     criticalHits :=
       (criticalHits r +
        length (filter (λ a, maxSeverity a = critical) (handlerFragments E page)))%nat;
     detections := detections r ++ handlerFragments E page;
     riskScore := riskScore r |}.
Proof.
  unfold scanEventHandlers, handlerFragments.
  generalize eventHandlers. intros tags. revert r.
  induction tags as [|tag tags IH]; intros r.
  - cbn. apply Results_eq; cbn; [unfold sum_R; cbn; lra|lia|by rewrite app_nil_r|done].
  - cbn [foldl]. rewrite scan_nodes_fold, IH. cbn zeta.
    cbn [totalHits criticalHits detections riskScore].
    rewrite bind_cons, fmap_app, sum_R_app, filter_app, length_app.
    f_equal; [lra|lia|by rewrite <- app_assoc].
Qed.

Lemma scanSuspiciousAttributes_spec E page r :
  scanSuspiciousAttributes E page r =
  {| totalHits := totalHits r + sum_R (hits <$> attributeFragments E page);
     criticalHits := (criticalHits r + length (attributeFragments E page))%nat;
     detections := detections r ++ attributeFragments E page;
     riskScore := riskScore r |}.
Proof.
  unfold scanSuspiciousAttributes, attributeFragments.
  generalize suspiciousAttributes. intros tags. revert r.
  induction tags as [|tag tags IH]; intros r.
  - cbn. apply Results_eq; cbn; [unfold sum_R; cbn; lra|lia|by rewrite app_nil_r|done].
  - cbn [foldl]. rewrite scan_attribute_nodes_fold, IH. cbn zeta.
    cbn [totalHits criticalHits detections riskScore].
    rewrite bind_cons, fmap_app, sum_R_app, length_app.
    f_equal; [lra|lia|by rewrite <- app_assoc].
Qed.

Lemma fragments_well_keyed E (tags : list string) (nodes_of : string → list Node) :
  Forall (λ a, Forall well_keyed (nodePatterns a))
    (tags ≫= λ tag,
       filter (λ a, hits a > 0) ((λ n, analyzeNode E n tag) <$> nodes_of tag)).
Proof.
  apply Forall_forall. intros a (tag & Ha & _)%list_elem_of_bind.
  apply list_elem_of_filter in Ha as [_ Ha].
  apply list_elem_of_fmap in Ha as (n & -> & _).
  apply analyzeNode_well_keyed.
Qed.

(** The aggregate of a scan, in terms of the fragments. *)
Lemma scanPage_aggregate E page hostname now history :
  let r := results (scanPage E page hostname now history) in
  let fragments :=
    scriptFragments E page ++ handlerFragments E page ++ attributeFragments E page in
  detections r = fragments ∧
  totalHits r = sum_R (hits <$> fragments) ∧
  criticalHits r =
    (length (filter (λ a, maxSeverity a = critical)
               (scriptFragments E page ++ handlerFragments E page))
     + length (attributeFragments E page))%nat ∧
  riskScore r =
    riskScore_capped (totalHits r) (criticalHits r) (fragments ≫= matchedWeights).
Proof.
  cbn zeta. unfold scanPage.
  rewrite scanSuspiciousAttributes_spec, scanEventHandlers_spec, scanScripts_spec.
  cbn [totalHits criticalHits detections riskScore].
  destruct (updateDetectionHistory _ _ _ _) as [h w].
  cbn [results totalHits criticalHits detections riskScore].
  rewrite !app_nil_l, <- !app_assoc.
  assert (Forall (λ a, Forall well_keyed (nodePatterns a))
            (scriptFragments E page ++ handlerFragments E page
             ++ attributeFragments E page)) as Hkeys.
  { rewrite !Forall_app. split; [|split].
    - pose proof (fragments_well_keyed E ["script"%string] (λ _, scripts page)) as H.
      cbn in H. rewrite app_nil_r in H. exact H.
    - apply (fragments_well_keyed E eventHandlers (elementsWith page)).
    - apply (fragments_well_keyed E suspiciousAttributes (elementsWith page)). }
  repeat split.
  - rewrite !fmap_app, !sum_R_app. lra.
  - rewrite filter_app, length_app. lia.
  - rewrite calculateRiskScore_capped by exact Hkeys. reflexivity.
Qed.


Lemma sum_R_nonneg (xs : list R) : Forall (λ x, 0 <= x) xs → 0 <= sum_R xs.
Proof.
  induction 1 as [|x xs Hx _ IH]; [unfold sum_R; cbn; lra|].
  rewrite sum_R_cons. lra.
Qed.

Lemma fragments_hits E (tags : list string) (nodes_of : string → list Node) :
  Forall (λ a, 0 <= hits a ∧ Forall (λ w, 0 <= w) (matchedWeights a))
    (tags ≫= λ tag,
       filter (λ a, hits a > 0) ((λ n, analyzeNode E n tag) <$> nodes_of tag)).
Proof.
  apply Forall_forall. intros a (tag & Ha & _)%list_elem_of_bind.
  apply list_elem_of_filter in Ha as [Hhit Ha].
  apply list_elem_of_fmap in Ha as (n & -> & _).
  split; [lra|apply analyzeNode_weights].
Qed.

(** The scanner's risk score lies between 0 and 100, and the number of hits
    it returns is not negative. *)
Lemma scanPage_bounds E page hostname now history :
  let scan := scanPage E page hostname now history in
  0 <= riskScore (results scan) <= 100 ∧ 0 <= returned scan.
Proof.
  cbn zeta.
  destruct (scanPage_aggregate E page hostname now history)
    as (Hdet & Htotal & _ & Hrisk).
  assert (returned (scanPage E page hostname now history) =
          totalHits (results (scanPage E page hostname now history))) as Hret.
  { unfold scanPage. destruct (updateDetectionHistory _ _ _ _). reflexivity. }
  assert (Forall (λ a, 0 <= hits a ∧ Forall (λ w, 0 <= w) (matchedWeights a))
            (scriptFragments E page ++ handlerFragments E page
             ++ attributeFragments E page)) as Hfrag.
  { rewrite !Forall_app. split; [|split].
    - pose proof (fragments_hits E ["script"%string] (λ _, scripts page)) as H.
      cbn in H. rewrite app_nil_r in H. exact H.
    - apply (fragments_hits E eventHandlers (elementsWith page)).
    - apply (fragments_hits E suspiciousAttributes (elementsWith page)). }
  assert (0 <= totalHits (results (scanPage E page hostname now history))) as Hhits.
  { rewrite Htotal. apply sum_R_nonneg. apply Forall_fmap.
    eapply Forall_impl; [exact Hfrag|]. intros a [Ha _]. exact Ha. }
  split; [|rewrite Hret; exact Hhits].
  rewrite Hrisk. unfold riskScore_capped. split; [|apply Rmin_r].
  apply Rmin_glb; [|lra]. apply IZR_le, Math_round_nonneg.
  assert (0 <= sum_R ((λ w, w * 20) <$>
            ((scriptFragments E page ++ handlerFragments E page
              ++ attributeFragments E page) ≫= matchedWeights))) as Hweights.
  { apply sum_R_nonneg. apply Forall_fmap.
    apply Forall_forall. intros w (a & Hw & Ha)%list_elem_of_bind.
    rewrite Forall_forall in Hfrag. destruct (Hfrag a Ha) as [_ Hall].
    rewrite Forall_forall in Hall. specialize (Hall w Hw). cbn. lra. }
  assert (0 <= Rmin (totalHits (results (scanPage E page hostname now history)) * 15) 50)
    by (apply Rmin_glb; lra).
  pose proof (pos_INR (criticalHits (results (scanPage E page hostname now history)))).
  lra.
Qed.

(** C3, as stated, fails: with four low-severity hits in one script the code
    returns 52, the uncapped formula 62. *)
Lemma riskScore_uncapped_counterexample :
  calculateRiskScore fourLowHitsResults = 52 ∧
  riskScore_as_specified (totalHits fourLowHitsResults)
    (criticalHits fourLowHitsResults)
    (detections fourLowHitsResults ≫= matchedWeights) = 62 ∧
  calculateRiskScore fourLowHitsResults ≠
  riskScore_as_specified (totalHits fourLowHitsResults)
    (criticalHits fourLowHitsResults)
    (detections fourLowHitsResults ≫= matchedWeights).
Proof.
  assert (calculateRiskScore fourLowHitsResults = 52) as Hcode.
  { unfold calculateRiskScore, fourLowHitsResults, fourLowHits. cbn.
    rewrite bool_decide_eq_false_2 by discriminate.
    rewrite (Rmin_right (4 * 15) 50) by lra.
    replace (0 + 50 + 0 * 30 + 0.10 * 20) with (IZR 52) by lra.
    rewrite Math_round_IZR. apply Rmin_left. lra. }
  assert (riskScore_as_specified (totalHits fourLowHitsResults)
            (criticalHits fourLowHitsResults)
            (detections fourLowHitsResults ≫= matchedWeights) = 62) as Hspec.
  { unfold riskScore_as_specified, fourLowHitsResults, fourLowHits, sum_R. cbn.
    replace (4 * 15 + 0 * 30 + (0.10 * 20 + 0)) with (IZR 62) by lra.
    rewrite Math_round_IZR. apply Rmin_left. lra. }
  rewrite Hcode, Hspec. repeat split. lra.
Qed.

(** *** The detection history *)

Lemma last_three (history : list HistoryEntry) :
  3 ≤ length history →
  ∃ older a b c, history = older ++ [a; b; c] ∧
                 drop (length history - 3) history = [a; b; c].
Proof.
  intros Hlen.
  pose proof (take_drop (length history - 3) history) as Hsplit.
  pose proof (length_drop history (length history - 3)) as Hdrop.
  destruct (drop (length history - 3) history) as [|a [|b [|c [|d rest]]]];
    simpl in Hdrop; try lia.
  exists (take (length history - 3) history), a, b, c. by rewrite Hsplit.
Qed.

Lemma detectEscalatingThreat_spec (history : list HistoryEntry) :
  detectEscalatingThreat history = true ↔
  3 ≤ length history ∧
  ∃ older a b c, history = older ++ [a; b; c] ∧
    riskScore (entry a) < riskScore (entry b) ∧
    riskScore (entry b) < riskScore (entry c).
Proof.
  unfold detectEscalatingThreat.
  destruct (decide (length history < 3)%nat) as [Hshort|Hlong].
  - split; [discriminate|]. intros [? _]. lia.
  - destruct (last_three history) as (older & a & b & c & Heq & Hdrop); [lia|].
    rewrite Hdrop. cbn.
    rewrite andb_true_iff, !bool_decide_eq_true.
    split.
    + intros [Hab Hbc]. split; [lia|]. by exists older, a, b, c.
    + intros (_ & older' & a' & b' & c' & Heq' & Hab & Hbc).
      rewrite Heq in Heq'.
      assert (older = older' ∧ [a; b; c] = [a'; b'; c']) as [_ Hlast].
      { apply app_inj_2; [reflexivity|exact Heq']. }
      by simplify_eq.
Qed.

Lemma updateDetectionHistory_lookup detectionHistory hostname now results :
  (updateDetectionHistory detectionHistory hostname now results).1 !! hostname =
  let old := default [] (detectionHistory !! hostname) in
  let new := old ++ [{| timestamp := now; entry := results |}] in
  Some (if decide (10 < length new)%nat then drop 1 new else new).
Proof.
  unfold updateDetectionHistory. cbv zeta. cbn [fst].
  rewrite lookup_insert_eq.
  destruct (decide (is_Some _)) as [Hsome|Hnone].
  - reflexivity.
  - rewrite lookup_insert_eq.
    destruct (detectionHistory !! hostname) eqn:Hlook; [|reflexivity].
    exfalso. apply Hnone. eauto.
Qed.

Lemma updateDetectionHistory_lookup_ne detectionHistory hostname now results other :
  other ≠ hostname →
  (updateDetectionHistory detectionHistory hostname now results).1 !! other =
  detectionHistory !! other.
Proof.
  intros Hne. unfold updateDetectionHistory. cbv zeta. cbn [fst].
  rewrite lookup_insert_ne by done.
  destruct (decide (is_Some _)); [done|].
  by rewrite lookup_insert_ne.
Qed.

Lemma updateDetectionHistory_bounded detectionHistory hostname now results :
  map_Forall (λ (_ : list N) (h : list HistoryEntry), length h ≤ 10) detectionHistory →
  map_Forall (λ (_ : list N) (h : list HistoryEntry), length h ≤ 10)
    (updateDetectionHistory detectionHistory hostname now results).1.
Proof.
  intros Hinv other h.
  destruct (decide (other = hostname)) as [->|Hne].
  - rewrite updateDetectionHistory_lookup. cbn zeta. intros [= <-].
    assert (length (default [] (detectionHistory !! hostname)) ≤ 10) as Hold.
    { destruct (detectionHistory !! hostname) as [old|] eqn:Hlook; cbn; [|lia].
      by apply (Hinv hostname). }
    case_decide as Hc; rewrite ?length_drop, ?length_app in *; cbn [length] in *; lia.
  - rewrite updateDetectionHistory_lookup_ne by done. apply Hinv.
Qed.

Lemma replay_bounded scans :
  map_Forall (λ (_ : list N) (h : list HistoryEntry), length h ≤ 10) (replay scans).
Proof.
  unfold replay. induction scans as [|[[hostname now] results] scans IH] using rev_ind.
  - apply map_Forall_empty.
  - rewrite foldl_snoc. by apply updateDetectionHistory_bounded.
Qed.

(** C8.  Over any session, no host's detection history holds more than 10
    entries; a scan appends its entry and, when that makes 11, drops the
    oldest one; and the escalation test is true exactly when the history has
    at least 3 entries and the risk scores of the last three are strictly
    increasing -- which is when the escalation warning is raised. *)
Theorem detection_history_bounded_and_escalating :
  (∀ scans hostname history,
     replay scans !! hostname = Some history → length history ≤ 10) ∧
  (∀ scans hostname now results,
     let old := default [] (replay scans !! hostname) in
     let new := {| timestamp := now; entry := results |} in
     replay (scans ++ [(hostname, now, results)]) !! hostname =
     Some (if decide (length old = 10%nat) then drop 1 old ++ [new] else old ++ [new])) ∧
  (∀ history,
     detectEscalatingThreat history = true ↔
     3 ≤ length history ∧
     ∃ older a b c, history = older ++ [a; b; c] ∧
       riskScore (entry a) < riskScore (entry b) ∧
       riskScore (entry b) < riskScore (entry c)) ∧
  (∀ detectionHistory hostname now results,
     let '(updated, warned) :=
       updateDetectionHistory detectionHistory hostname now results in
     EscalatingThreat ∈ warned ↔
     detectEscalatingThreat (default [] (updated !! hostname)) = true).
Proof.
  split; [|split; [|split]].
  - intros scans hostname history Hlook. by apply (replay_bounded scans hostname).
  - intros scans hostname now results. cbn zeta.
    unfold replay at 1. rewrite foldl_snoc. fold (replay scans).
    rewrite updateDetectionHistory_lookup. cbn zeta. f_equal.
    assert (length (default [] (replay scans !! hostname)) ≤ 10) as Hold.
    { destruct (replay scans !! hostname) as [old|] eqn:Hlook; cbn; [|lia].
      by apply (replay_bounded scans hostname). }
    rewrite length_app. cbn [length].
    destruct (decide (length (default [] (replay scans !! hostname)) = 10%nat)) as [Hfull|Hroom].
    + rewrite decide_True by lia.
      destruct (default [] (replay scans !! hostname)); [discriminate|reflexivity].
    + rewrite decide_False by lia. reflexivity.
  - apply detectEscalatingThreat_spec.
  - intros detectionHistory hostname now results.
    unfold updateDetectionHistory. cbv zeta.
    match goal with |- context [detectEscalatingThreat ?h] =>
      generalize h; intros history end.
    rewrite lookup_insert_eq.
    change (default [] (Some history)) with history.
    destruct (detectEscalatingThreat history).
    + split; [done|]. intros _. apply list_elem_of_here.
    + split; [|done]. intros Hin. by apply not_elem_of_nil in Hin.
Qed.

Lemma detection_history_witness :
  replay [(lit "a.com", 5%Z, fourLowHitsResults)] !! lit "a.com"
    = Some [{| timestamp := 5%Z; entry := fourLowHitsResults |}] ∧
  length [{| timestamp := 5%Z; entry := fourLowHitsResults |}] ≤ 10.
Proof.
  assert (replay [(lit "a.com", 5%Z, fourLowHitsResults)] !! lit "a.com"
    = Some [{| timestamp := 5%Z; entry := fourLowHitsResults |}]) as H.
  { unfold replay; cbn [foldl]; rewrite updateDetectionHistory_lookup; reflexivity. }
  split; [exact H|].
  exact (proj1 detection_history_bounded_and_escalating _ _ _ H).
Defined.

End JailbreakFacts.


(** ** The jailbreak scanner in binary64 *)

Section Jailbreak64Facts.
Import Floats Js Binary64 JailbreakDetector JailbreakDetector64.
#[local] Set Warnings "-inexact-float".
#[local] Open Scope float_scope.

Lemma Results64_eq (r : Results) (t : float) (c : nat) (d : list NodeAnalysis)
    (s : float) :
  totalHits r = t → criticalHits r = c → detections r = d → riskScore r = s →
  r = {| totalHits := t; criticalHits := c; detections := d; riskScore := s |}.
Proof. destruct r; simpl; intros; subst; reflexivity. Qed.

(** *** What [analyzeNode] records *)

Lemma patternTable64_names :
  Forall (λ config, name config ≠ "heuristics"%string) patternTable.
Proof. unfold patternTable. cbn. repeat constructor; discriminate. Qed.

Lemma analyzeCategory64_entries (P : string * PatternEntry → Prop)
    E text result config :
  (∀ ms, P (name config, Matched ms (severity config) (weight config))) →
  Forall P (nodePatterns result) →
  Forall P (nodePatterns (analyzeCategory E text result config)).
Proof.
  intros Hconfig Hres. unfold analyzeCategory.
  set (step := λ (acc : list (list N) * NodeAnalysis) pattern, _).
  assert (∀ ps acc, Forall P (nodePatterns acc.2) →
            Forall P (nodePatterns (foldl step acc ps).2)) as Hfold.
  { induction ps as [|p ps IH]; intros acc Hacc; [exact Hacc|].
    simpl. apply IH. unfold step. destruct acc as [ms res].
    destruct (decide (0 < length (match_all E p text)))%nat; exact Hacc. }
  specialize (Hfold (patterns config) ([], result) Hres).
  destruct (foldl step ([], result) (patterns config)) as [ms res].
  destruct (decide (0 < length ms))%nat; [|exact Hfold].
  simpl. apply Forall_app. split; [exact Hfold|].
  constructor; [apply Hconfig|constructor].
Qed.

Lemma analyzeNode64_well_keyed E node tag :
  Forall well_keyed (nodePatterns (analyzeNode E node tag)).
Proof.
  unfold analyzeNode. case_bool_decide; [constructor|].
  set (result0 := {| source := tag; hits := 0; maxSeverity := low; nodePatterns := [] |}).
  assert (∀ table result,
            Forall (λ config, name config ≠ "heuristics"%string) table →
            Forall well_keyed (nodePatterns result) →
            Forall well_keyed
              (nodePatterns (foldl (analyzeCategory E (nodeText node tag)) result table)))
    as Hfold.
  { induction table as [|c table IH]; intros result Htab Hres; [exact Hres|].
    simpl. inversion Htab; subst. apply IH; [assumption|].
    apply analyzeCategory64_entries; [|assumption]. intros ms. assumption. }
  specialize (Hfold patternTable result0 patternTable64_names (Forall_nil_2 _)).
  destruct (suspicious _); [|exact Hfold].
  simpl. apply Forall_app. split; [exact Hfold|].
  constructor; [reflexivity|constructor].
Qed.

(** *** The loops of [calculateRiskScore] *)

(** The inner loop adds 20 times each matched weight, in order. *)
Lemma weights64_fold (a : NodeAnalysis) (score : float) :
  Forall well_keyed (nodePatterns a) →
  foldl (λ score (entry : string * PatternEntry),
      if bool_decide (entry.1 = "heuristics"%string) then score
      else match entry.2 with
           | Matched _ _ weight => score + weight * 20
           | HeuristicFindings _ => score
           end) score (nodePatterns a)
  = foldl (λ score weight, score + weight * 20) score (matchedWeights a).
Proof.
  unfold matchedWeights. generalize (nodePatterns a). clear a.
  intros entries. revert score.
  induction entries as [|[key e] entries IH]; intros score Hkeys; [reflexivity|].
  inversion Hkeys as [|? ? Hkey Hrest]; subst. simpl.
  unfold well_keyed in Hkey. simpl in Hkey.
  destruct e as [ms sev w|h]; simpl.
  - rewrite bool_decide_eq_false_2 by assumption. by apply IH.
  - rewrite bool_decide_eq_true_2 by assumption. by apply IH.
Qed.

Lemma detections64_fold (ds : list NodeAnalysis) (score : float) :
  Forall (λ a, Forall well_keyed (nodePatterns a)) ds →
  foldl (λ score detection,
      foldl (λ score (entry : string * PatternEntry),
        if bool_decide (entry.1 = "heuristics"%string) then score
        else match entry.2 with
             | Matched _ _ weight => score + weight * 20
             | HeuristicFindings _ => score
             end) score (nodePatterns detection)) score ds
  = foldl (λ score weight, score + weight * 20) score (ds ≫= matchedWeights).
Proof.
  intros Hkeys. revert score.
  induction Hkeys as [|a ds Ha _ IH]; intros score; [reflexivity|].
  cbn [foldl]. rewrite weights64_fold by assumption. rewrite IH.
  by rewrite bind_cons, foldl_app.
Qed.

Lemma calculateRiskScore64_capped (results : Results) :
  Forall (λ a, Forall well_keyed (nodePatterns a)) (detections results) →
  calculateRiskScore results =
  riskScore_capped (totalHits results) (criticalHits results)
    (detections results ≫= matchedWeights).
Proof.
  intros Hkeys. unfold calculateRiskScore, riskScore_capped.
  by rewrite detections64_fold by assumption.
Qed.

(** *** The scanning loops *)

Lemma scan_nodes64_fold E (tag : string) (nodes : list Node) (r : Results) :
  foldl (λ results element,
      let analysis := analyzeNode E element tag in
      if 0 <? hits analysis then
        {| totalHits := totalHits results + hits analysis;
           criticalHits :=
             if decide (maxSeverity analysis = critical)
             then S (criticalHits results) else criticalHits results;
           detections := detections results ++ [analysis];
           riskScore := riskScore results |}
      else results) r nodes
  = let fragments :=
      filter (λ a, Is_true (0 <? hits a)) ((λ n, analyzeNode E n tag) <$> nodes) in
    {| totalHits := foldl PrimFloat.add (totalHits r) (hits <$> fragments);
       criticalHits :=
         (criticalHits r + length (filter (λ a, maxSeverity a = critical) fragments))%nat;
       detections := detections r ++ fragments;
       riskScore := riskScore r |}.
Proof.
  revert r. induction nodes as [|n nodes IH]; intros r.
  - cbn. apply Results64_eq; cbn; [done|lia|by rewrite app_nil_r|done].
  - cbn [foldl fmap list_fmap]. rewrite IH. cbn zeta.
    rewrite filter_cons.
    destruct (0 <? hits (analyzeNode E n tag)) eqn:Hhit.
    + rewrite (decide_True (P := Is_true true)) by exact I.
      rewrite fmap_cons, filter_cons.
      cbn [totalHits criticalHits detections riskScore foldl].
      f_equal.
      * destruct (decide (maxSeverity (analyzeNode E n tag) = critical)); cbn; lia.
      * by rewrite <- app_assoc.
    + rewrite (decide_False (P := Is_true false)) by (intros []). reflexivity.
Qed.

Lemma scan_attribute_nodes64_fold E (tag : string) (nodes : list Node) (r : Results) :
  foldl (λ results element,
      let analysis := analyzeNode E element tag in
      if 0 <? hits analysis then
        {| totalHits := totalHits results + hits analysis;
           criticalHits := S (criticalHits results);
           detections := detections results ++ [analysis];
           riskScore := riskScore results |}
      else results) r nodes
  = let fragments :=
      filter (λ a, Is_true (0 <? hits a)) ((λ n, analyzeNode E n tag) <$> nodes) in
    {| totalHits := foldl PrimFloat.add (totalHits r) (hits <$> fragments);
       criticalHits := (criticalHits r + length fragments)%nat;
       detections := detections r ++ fragments;
       riskScore := riskScore r |}.
Proof.
  revert r. induction nodes as [|n nodes IH]; intros r.
  - cbn. apply Results64_eq; cbn; [done|lia|by rewrite app_nil_r|done].
  - cbn [foldl fmap list_fmap]. rewrite IH. cbn zeta.
    rewrite filter_cons.
    destruct (0 <? hits (analyzeNode E n tag)) eqn:Hhit.
    + rewrite (decide_True (P := Is_true true)) by exact I.
      rewrite fmap_cons.
      cbn [totalHits criticalHits detections riskScore foldl length].
      f_equal; [lia|by rewrite <- app_assoc].
    + rewrite (decide_False (P := Is_true false)) by (intros []). reflexivity.
Qed.

Lemma scanScripts64_spec E page r :
  scanScripts E page r =
  {| totalHits := foldl PrimFloat.add (totalHits r) (hits <$> scriptFragments E page);
     criticalHits :=
       (criticalHits r +
        length (filter (λ a, maxSeverity a = critical) (scriptFragments E page)))%nat;
     detections := detections r ++ scriptFragments E page;
     riskScore := riskScore r |}.
Proof. apply scan_nodes64_fold. Qed.

Lemma scanEventHandlers64_spec E page r :
  scanEventHandlers E page r =
  {| totalHits := foldl PrimFloat.add (totalHits r) (hits <$> handlerFragments E page);
     criticalHits :=
       (criticalHits r +
        length (filter (λ a, maxSeverity a = critical) (handlerFragments E page)))%nat;
     detections := detections r ++ handlerFragments E page;
     riskScore := riskScore r |}.
Proof.
  unfold scanEventHandlers, handlerFragments.
  generalize eventHandlers. intros tags. revert r.
  induction tags as [|tag tags IH]; intros r.
  - cbn. apply Results64_eq; cbn; [done|lia|by rewrite app_nil_r|done].
  - cbn [foldl]. rewrite scan_nodes64_fold, IH. cbn zeta.
    cbn [totalHits criticalHits detections riskScore].
    rewrite bind_cons, fmap_app, foldl_app, filter_app, length_app.
    f_equal; [lia|by rewrite <- app_assoc].
Qed.

Lemma scanSuspiciousAttributes64_spec E page r :
  scanSuspiciousAttributes E page r =
  {| totalHits := foldl PrimFloat.add (totalHits r) (hits <$> attributeFragments E page);
     criticalHits := (criticalHits r + length (attributeFragments E page))%nat;
     detections := detections r ++ attributeFragments E page;
     riskScore := riskScore r |}.
Proof.
  unfold scanSuspiciousAttributes, attributeFragments.
  generalize suspiciousAttributes. intros tags. revert r.
  induction tags as [|tag tags IH]; intros r.
  - cbn. apply Results64_eq; cbn; [done|lia|by rewrite app_nil_r|done].
  - cbn [foldl]. rewrite scan_attribute_nodes64_fold, IH. cbn zeta.
    cbn [totalHits criticalHits detections riskScore].
    rewrite bind_cons, fmap_app, foldl_app, length_app.
    f_equal; [lia|by rewrite <- app_assoc].
Qed.

Lemma fragments64_well_keyed E (tags : list string) (nodes_of : string → list Node) :
  Forall (λ a, Forall well_keyed (nodePatterns a))
    (tags ≫= λ tag,
       filter (λ a, Is_true (0 <? hits a))
         ((λ n, analyzeNode E n tag) <$> nodes_of tag)).
Proof.
  apply Forall_forall. intros a (tag & Ha & _)%list_elem_of_bind.
  apply list_elem_of_filter in Ha as [_ Ha].
  apply list_elem_of_fmap in Ha as (n & -> & _).
  apply analyzeNode64_well_keyed.
Qed.

(** C3.  In the program's binary64 arithmetic, for every page and every
    regular-expression engine: the aggregate of a scan is made of the
    fragments with hits, in the order they are scanned; [totalHits] is the
    sum of their hits, added from the left; [criticalHits] counts the script
    and event-handler fragments whose [maxSeverity] is critical and every
    fragment of a suspicious data attribute; and the risk score is
    [min(round(min(totalHits*15, 50) + criticalHits*30 + sum(categoryWeight*20)), 100)],
    the sum ranging, in order, over every matched pattern category of every
    fragment: the contribution of the hits is capped at 50. *)
Theorem scanPage_riskScore_capped E page hostname now history :
  let r := results (scanPage E page hostname now history) in
  let fragments :=
    scriptFragments E page ++ handlerFragments E page ++ attributeFragments E page in
  detections r = fragments ∧
  totalHits r = foldl PrimFloat.add 0 (hits <$> fragments) ∧
  criticalHits r =
    (length (filter (λ a, maxSeverity a = critical)
               (scriptFragments E page ++ handlerFragments E page))
     + length (attributeFragments E page))%nat ∧
  riskScore r =
    riskScore_capped (totalHits r) (criticalHits r) (fragments ≫= matchedWeights).
Proof.
  cbn zeta. unfold scanPage.
  rewrite scanSuspiciousAttributes64_spec, scanEventHandlers64_spec, scanScripts64_spec.
  cbn [totalHits criticalHits detections riskScore].
  destruct (updateDetectionHistory _ _ _ _) as [h w].
  cbn [results totalHits criticalHits detections riskScore].
  rewrite !app_nil_l, <- !app_assoc.
  assert (Forall (λ a, Forall well_keyed (nodePatterns a))
            (scriptFragments E page ++ handlerFragments E page
             ++ attributeFragments E page)) as Hkeys.
  { rewrite !Forall_app. split; [|split].
    - pose proof (fragments64_well_keyed E ["script"%string] (λ _, scripts page)) as H.
      cbn in H. rewrite app_nil_r in H. exact H.
    - apply (fragments64_well_keyed E eventHandlers (elementsWith page)).
    - apply (fragments64_well_keyed E suspiciousAttributes (elementsWith page)). }
  repeat split.
  - by rewrite !fmap_app, !foldl_app.
  - rewrite filter_app, length_app. lia.
  - rewrite calculateRiskScore64_capped by exact Hkeys. reflexivity.
Qed.

(** The rounding of the program shows in the result: a script with six
    escape sequences and "###" has 0.3 + 0.6 hits, which is
    0.8999999999999999 in binary64; 15 times that is below 13.5, and the risk
    score is 13.  With four hits of a category of weight 0.1 the score is 52,
    where the formula without the cap gives 62. *)
Lemma scanPage_rounds_in_binary64 :
  let r := results (scanPage sixEscapes escapedPage (lit "example.org") 0 ∅) in
  totalHits r = 0.8999999999999999 ∧
  totalHits r * 15 = 13.499999999999998 ∧
  riskScore r = 13 ∧
  calculateRiskScore fourLowHitsResults = 52 ∧
  riskScore_as_specified (totalHits fourLowHitsResults)
    (criticalHits fourLowHitsResults)
    (detections fourLowHitsResults ≫= matchedWeights) = 62.
Proof. vm_compute. repeat split. Qed.

(** *** The heuristic findings *)

(** X15.  In the program's binary64 arithmetic the heuristic findings are
    consistent: the node is marked suspicious exactly when a flag is raised,
    which is exactly when the suspicion score is positive; the score is then
    at least 0.3; it is never negative and never exceeds
    1.8000000000000003, the value the sum 0.5 + 0.3 + 0.4 + 0.6 takes, above
    1.8, when all four flags are raised; at most four flags are raised. *)
Theorem performHeuristicAnalysis_is_consistent (E : Engine) (text : list N) :
  let h := performHeuristicAnalysis E text in
  (suspicious h = true ↔ flags h ≠ []) ∧
  (suspicious h = true ↔ (0 <? suspicionScore h) = true) ∧
  (suspicious h = true → (0.3 <=? suspicionScore h) = true) ∧
  (0 <=? suspicionScore h) = true ∧
  (suspicionScore h <=? 1.8000000000000003) = true ∧
  (length (flags h) = 4%nat →
   suspicionScore h = 1.8000000000000003 ∧ (1.8 <? suspicionScore h) = true) ∧
  (length (flags h) ≤ 4)%nat.
Proof.
  cbv zeta. unfold performHeuristicAnalysis. cbv zeta.
  destruct (decide (2 < count E "[A-Za-z0-9+/]{20,}={0,2}" "g" text)%nat);
    destruct (decide (5 < count E "\\[xun][0-9a-f]{2,4}" "gi" text)%nat);
    destruct (decide (2 < count E "\b(execute|run|eval|compile|interpret|process)\s+"
                            "gi" text)%nat);
    destruct (includes text (lit "###") || includes text (lit "User:")
              || includes text (lit "Assistant:"));
    cbn [suspicious suspicionScore flags app length];
    repeat split; intros; try discriminate; try done; try lia;
    vm_compute; done.
Qed.

End Jailbreak64Facts.


(** ** Domain reputation *)

Section DomainFacts.
Import Js DomainReputation.
Open Scope R_scope.

(** No entry of the substitution table turns "microsoft" into "micros0ft":
    the replacement is applied to every occurrence of the letter, and
    "microsoft" has two o's. *)
Lemma micros0ft_not_a_character_substitution :
  checkCharacterSubstitution (lit "micros0ft") (lit "microsoft") = false ∧
  replace_all (unit_of "o") (unit_of "0") (lit "microsoft") = lit "micr0s0ft".
Proof. split; vm_compute; reflexivity. Qed.

(** C4 at its input.  For "micros0ft.com" the analysis reports a typosquat of
    "microsoft" at distance 1 with confidence 1 - 1/9, which is at least
    0.85, but classifies it as "substitution", not as
    "character_substitution". *)
Theorem typosquat_micros0ft :
  let result := advancedTyposquatAnalysis (lit "micros0ft.com") in
  Typosquat.isTyposquat result = true ∧
  Typosquat.likelyTarget result = Some (lit "microsoft") ∧
  Typosquat.distance result = Some 1%nat ∧
  Typosquat.technique result = Some "substitution"%string ∧
  Typosquat.technique result ≠ Some "character_substitution"%string ∧
  Typosquat.confidence result = 8 / 9 ∧
  Typosquat.confidence result >= 0.85.
Proof.
  assert (advancedTyposquatAnalysis (lit "micros0ft.com") =
          {| Typosquat.isTyposquat := true;
             Typosquat.likelyTarget := Some (lit "microsoft");
             Typosquat.distance := Some 1%nat;
             Typosquat.technique := Some "substitution"%string;
             Typosquat.confidence := 1 - INR 1 / INR 9 |}) as ->.
  { lazy -[INR IZR Rminus Rdiv Rplus Rmult Rinv Ropp]. reflexivity. }
  cbn -[INR]. rewrite !INR_IZR_INZ.
  change (Z.of_nat 1) with 1%Z. change (Z.of_nat 9) with 9%Z.
  repeat split; try reflexivity; try discriminate; lra.
Qed.

(** *** The ranges of the domain scores *)

Lemma commonDomains_lengths : Forall (λ target, 3 ≤ length target)%nat commonDomains.
Proof.
  unfold commonDomains. apply Forall_fmap.
  repeat constructor; cbn; lia.
Qed.

Lemma INR_ratio_unit (d m : nat) :
  (d ≤ m)%nat → (0 < m)%nat → 0 <= INR d / INR m <= 1.
Proof.
  intros Hdm Hm. apply le_INR in Hdm. apply lt_INR in Hm. cbn in Hm.
  pose proof (pos_INR d). split.
  - apply Rmult_le_pos; [lra|]. apply Rlt_le, Rinv_0_lt_compat. lra.
  - apply (Rmult_le_reg_r (INR m)); [lra|].
    unfold Rdiv. rewrite Rmult_assoc, Rinv_l by lra. lra.
Qed.

Lemma typosquatStep_confidence baseDomain results target :
  (3 ≤ length target)%nat →
  0 <= Typosquat.confidence results <= 1 →
  0 <= Typosquat.confidence (typosquatStep baseDomain results target) <= 1.
Proof.
  intros Hlen Hres. unfold typosquatStep. cbv zeta.
  repeat match goal with
         | |- context [if ?c then _ else _] => destruct c eqn:?
         end; cbn [Typosquat.confidence]; try lra; try exact Hres.
  all: match goal with
       | H : _ && _ = true |- _ => apply andb_prop in H as [Hd _]
       end.
  all: apply bool_decide_eq_true in Hd.
  all: pose proof (INR_ratio_unit
                     (Levenshtein.levenshteinDistance baseDomain target)
                     (length baseDomain `max` length target)) as Hratio.
  all: lapply Hratio; [clear Hratio; intros Hratio|lia].
  all: lapply Hratio; [clear Hratio; intros Hratio|lia].
  all: lra.
Qed.

(** The typosquat confidence lies between 0 and 1 for every host name. *)
Lemma advancedTyposquatAnalysis_confidence (domain : list N) :
  0 <= Typosquat.confidence (advancedTyposquatAnalysis domain) <= 1.
Proof.
  unfold advancedTyposquatAnalysis.
  apply (foldl_invariant_Forall (λ r, 0 <= Typosquat.confidence r <= 1)
           (λ target, 3 ≤ length target)%nat).
  - apply commonDomains_lengths.
  - cbn. lra.
  - intros r target Hlen Hr. by apply typosquatStep_confidence.
Qed.

Lemma Math_max_list_bounds (xs : list R) (lo hi : R) :
  xs ≠ [] → Forall (λ x, lo <= x <= hi) xs → lo <= Math_max_list xs <= hi.
Proof.
  intros Hne Hall. destruct Hall as [|x xs Hx Hxs]; [done|]. clear Hne. cbn.
  revert x Hx. induction Hxs as [|y ys Hy _ IH]; intros x Hx; [exact Hx|].
  cbn. apply IH. unfold Rmax. destruct (Rle_dec x y); assumption.
Qed.

Lemma detectBrandImpersonation_confidence (domain : list N) :
  0 <= impersonation_confidence (detectBrandImpersonation domain) <= 1.
Proof.
  unfold detectBrandImpersonation. cbn [impersonation_confidence].
  match goal with
  | |- context [foldl ?f [] commonDomains] =>
      assert (Forall (λ b, 0 <= brand_confidence b <= 1) (foldl f [] commonDomains))
        as Hall;
      [|generalize dependent (foldl f [] commonDomains)]
  end.
  { apply (foldl_invariant (Forall (λ b, 0 <= brand_confidence b <= 1)));
      [constructor|].
    intros bs brand Hbs.
    repeat match goal with
           | |- context [if ?c then _ else _] => destruct c
           end;
      rewrite ?Forall_app; repeat split; try exact Hbs;
      repeat constructor; cbn; lra. }
  intros bs Hall. case_decide as Hlen; [|lra].
  apply Math_max_list_bounds.
  - destruct bs; [cbn in Hlen; lia|done].
  - apply Forall_fmap. exact Hall.
Qed.

Lemma detectSuspiciousPatterns_score (domain : list N) :
  0 <= suspicionScore (detectSuspiciousPatterns domain) <= 1.
Proof.
  unfold detectSuspiciousPatterns. cbn [suspicionScore].
  repeat match goal with
         | |- context [if ?c then _ else _] => destruct c
         end; lra.
Qed.

Lemma fallbackRisk_bounds (domain : list N) : 0 <= fallbackRisk domain <= 100.
Proof.
  unfold fallbackRisk. split; [|apply Rmin_r]. apply Rmin_glb; [|lra].
  repeat match goal with
         | |- context [if ?c then _ else _] => destruct c
         end; lra.
Qed.

Lemma checkDomain_riskScore (domain : list N) (response : Response) :
  (∀ computedRisk, response = ComputedRisk computedRisk → 0 <= computedRisk <= 100) →
  0 <= riskScore (checkDomain domain response) <= 100.
Proof.
  intros Hresponse. unfold checkDomain.
  destruct (_ || _); [cbn; lra|].
  destruct response as [computedRisk| |]; cbn [riskScore].
  - by apply Hresponse.
  - apply fallbackRisk_bounds.
  - apply fallbackRisk_bounds.
Qed.

End DomainFacts.

(** ** The service worker's domain score *)

Section ServiceWorkerFacts.
Import Js ServiceWorker.
Open Scope R_scope.

Lemma scoreDomainRisk_present localSignals remote :
  scoreDomainRisk localSignals (Some remote) =
  Returned (Rmin (localContribution localSignals
                  + (if vt_flagged (vtResult remote) then 30 else 0)
                  + (if gsb_flagged (gsbResult remote) then 30 else 0)) 100).
Proof.
  unfold scoreDomainRisk, localContribution. f_equal. f_equal.
  repeat case_decide;
    destruct (isPunycode localSignals), (vt_flagged _), (gsb_flagged _); lra.
Qed.

(** C7.  On the bundle it receives, which [fetchRemoteSignals] always
    builds, the scoring function always returns; with both feed results
    absent from the bundle it returns the score of the local signals alone,
    capped at 100, and so it does for every bundle without feed hits -- as
    the bundle of [fetchRemoteSignals] is when no API key is stored. *)
Theorem scoreDomainRisk_absent_feeds localSignals :
  (∀ remote, ∃ score, scoreDomainRisk localSignals (Some remote) = Returned score) ∧
  scoreDomainRisk localSignals (Some absentFeeds) =
    Returned (Rmin (localContribution localSignals) 100) ∧
  (∀ remote, no_feed_hits remote →
     scoreDomainRisk localSignals (Some remote) =
     scoreDomainRisk localSignals (Some absentFeeds)) ∧
  (∀ vtAnswer gsbAnswer,
     fetchRemoteSignals false false vtAnswer gsbAnswer = absentFeeds).
Proof.
  repeat split.
  - intros remote. rewrite scoreDomainRisk_present. eauto.
  - rewrite scoreDomainRisk_present. cbn. do 2 f_equal. lra.
  - intros remote [Hvt Hgsb]. rewrite !scoreDomainRisk_present, Hvt, Hgsb.
    reflexivity.
Qed.

Lemma scoreDomainRisk_absent_feeds_witness :
  no_feed_hits {| vtResult := Some (VtStats 70 0 0);
                  gsbResult := Some (GsbBody None) |} ∧
  scoreDomainRisk lookalikeSignals
    (Some {| vtResult := Some (VtStats 70 0 0); gsbResult := Some (GsbBody None) |}) =
  scoreDomainRisk lookalikeSignals (Some absentFeeds).
Proof.
  assert (no_feed_hits {| vtResult := Some (VtStats 70 0 0);
                          gsbResult := Some (GsbBody None) |}) as H.
  { split; reflexivity. }
  split; [exact H|].
  exact (proj1 (proj2 (proj2 (scoreDomainRisk_absent_feeds lookalikeSignals))) _ H).
Defined.

Lemma localContribution_nonneg localSignals : 0 <= localContribution localSignals.
Proof.
  unfold localContribution.
  repeat match goal with
         | |- context [if ?c then _ else _] => destruct c
         end; lra.
Qed.

Lemma scoreDomainRisk_bounds localSignals remoteSignals score :
  scoreDomainRisk localSignals remoteSignals = Returned score → 0 <= score <= 100.
Proof.
  destruct remoteSignals as [remote|]; [|discriminate].
  rewrite scoreDomainRisk_present. intros [= <-].
  pose proof (localContribution_nonneg localSignals).
  split; [|apply Rmin_r]. apply Rmin_glb; [|lra].
  destruct (vt_flagged _), (gsb_flagged _); lra.
Qed.

Lemma computeTyposquat_bounds (domain : list N) : 0 <= computeTyposquat domain <= 1.
Proof.
  unfold computeTyposquat. cbv zeta.
  match goal with
  | |- context [foldl ?f 1 ?l] =>
      assert (0 <= foldl f 1 l <= 1) as Hbest; [|lra]
  end.
  apply (foldl_invariant (λ best, 0 <= best <= 1)); [lra|].
  intros best ref Hbest. cbv zeta.
  match goal with
  | |- context [INR ?d / INR ?m] =>
      assert (0 <= INR d / INR m) as Hratio
  end.
  { apply Rmult_le_pos; [apply pos_INR|].
    apply Rlt_le, Rinv_0_lt_compat. apply lt_0_INR. lia. }
  split; [apply Rmin_glb; lra|].
  etransitivity; [apply Rmin_l|lra].
Qed.

End ServiceWorkerFacts.


(** ** The composite aggregator *)

(** Deciding the comparisons of a closed computation. *)
Ltac settle_decisions :=
  repeat match goal with
  | |- context [decide ?P] =>
      first [ rewrite (decide_True (P := P)) by first [lra | lia | done]
            | rewrite (decide_False (P := P)) by first [lra | lia | done] ]
  | |- context [bool_decide ?P] =>
      first [ rewrite (bool_decide_eq_true_2 P) by first [lra | lia | done]
            | rewrite (bool_decide_eq_false_2 P) by first [lra | lia | done] ]
  | |- context [Rmin ?a ?b] =>
      first [ rewrite (Rmin_left a b) by lra | rewrite (Rmin_right a b) by lra ]
  | |- context [Rmax ?a ?b] =>
      first [ rewrite (Rmax_left a b) by lra | rewrite (Rmax_right a b) by lra ]
  end.

Section AggregatorFacts.
Import Js Aggregator.
Open Scope R_scope.

Lemma Rabs_credibility : Rabs weights.credibility = 12.
Proof. unfold weights.credibility. rewrite Rabs_left; lra. Qed.

(** The code's running total is the documented sum, clamped above. *)
Lemma total_weightedSum (m : Metrics.t) :
  total (computeAdvancedCompositeScore m) = Rmin (weightedSum m) 100.
Proof.
  unfold computeAdvancedCompositeScore, weightedSum. cbn [total].
  rewrite Rabs_credibility.
  unfold weights.aiProbability, weights.urgencyScore, weights.persuasionScore,
    weights.llmScore, weights.domainRisk, weights.jailbreakBase, weights.manipulation.
  f_equal.
  assert ((if decide (0 < Metrics.manipulationTechniques m)%nat
           then Rmin (INR (Metrics.manipulationTechniques m) * 2) 8 else 0)
          = Rmin (INR (Metrics.manipulationTechniques m) * 2) 8) as ->.
  { destruct (decide (0 < Metrics.manipulationTechniques m)%nat) as [|Hz]; [done|].
    assert (Metrics.manipulationTechniques m = 0%nat) as -> by lia.
    cbn. rewrite Rmin_left; lra. }
  lra.
Qed.

Lemma weightedSum_nonneg (m : Metrics.t) :
  sub_scores_in_range m → 0 <= weightedSum m.
Proof.
  intros (Hai & Hconf & Hurg & Hper & Hllm & Hdom & Hjb & Hcred).
  unfold weightedSum.
  pose proof (Math_pow_1_5_nonneg (Metrics.aiConfidence m) (proj1 Hconf)) as Hpow.
  pose proof (pos_INR (Metrics.llmRiskFactors m)) as Hrf.
  pose proof (pos_INR (Metrics.manipulationTechniques m)) as Hman.
  assert (0 <= Metrics.aiProbability m * Math_pow_1_5 (Metrics.aiConfidence m) * 20).
  { apply Rmult_le_pos; [apply Rmult_le_pos|]; lra. }
  assert (0 <= Rmin (INR (Metrics.llmRiskFactors m) * 0.15) 0.5).
  { apply Rmin_glb; lra. }
  assert (0 <= Rmin (INR (Metrics.manipulationTechniques m) * 2) 8).
  { apply Rmin_glb; lra. }
  assert (0 <= Rmin (Metrics.jailbreakHits m * 2.5) 12).
  { apply Rmin_glb; lra. }
  assert (0 <= Rmin (Metrics.persuasionScore m) 1).
  { apply Rmin_glb; lra. }
  repeat case_decide; nra.
Qed.


(** *** The gate on the independent signals *)

Lemma flaggedHost_riskScore : DomainReputation.riskScore flaggedHost = 60.
Proof. reflexivity. Qed.

Lemma flaggedHost_typosquat :
  ∃ analysis,
    DomainReputation.advancedAnalysis flaggedHost = Some analysis ∧
    Typosquat.isTyposquat (DomainReputation.typosquatting analysis) = false.
Proof.
  eexists. split; [reflexivity|].
  lazy -[INR IZR Rminus Rdiv Rplus Rmult Rinv Ropp]. reflexivity.
Qed.

(** The risk toasts are raised only with two independent signals. *)
Lemma riskToast_gated aiResult llmResult jailbreakResult domainResult :
  let a := analyzePage aiResult llmResult jailbreakResult domainResult in
  (count (independentSignals a) < 2)%nat → riskToast a = None.
Proof.
  cbn zeta. unfold analyzePage. cbn [independentSignals riskToast]. intros Hcount.
  rewrite (bool_decide_eq_false_2 (2 ≤ _)) by lia.
  rewrite !andb_false_r. reflexivity.
Qed.

(** C1 at a failing input.  The page has none of the six independent
    signals and none of the critical conditions, and yet its derived risk
    level is "medium": the level follows the total, 51.25, alone.  Only the
    toast is withheld. *)
Theorem risk_level_ignores_signal_gate :
  let a := analyzePage pressureText pressureFingerprint 0 (Some flaggedHost) in
  count (independentSignals a) = 0%nat ∧
  existsb (λ condition, condition)
    (criticalConditions pressureText pressureFingerprint (Some flaggedHost) 0) = false ∧
  total (compositeScore a) = 51.25 ∧
  riskLevel a = medium ∧
  riskToast a = None.
Proof.
  cbn zeta.
  destruct flaggedHost_typosquat as (analysis & Hanalysis & Htypo).
  assert (existsb (λ condition, condition)
            (criticalConditions pressureText pressureFingerprint (Some flaggedHost) 0)
          = false) as Hcritical.
  { unfold criticalConditions. cbn [mbind option_bind].
    rewrite Hanalysis, Htypo, flaggedHost_riskScore.
    cbn [pressureText pressureFingerprint AITextAnalyzer.urgencyScore
         LLMFingerprinter.score LLMFingerprinter.riskFactors
         AITextAnalyzer.manipulationTechniques].
    cbn [filter list_filter RiskFactor.severity]. 
    settle_decisions. reflexivity. }
  assert (total (computeAdvancedCompositeScore pressureMetrics) = 51.25) as Htotal.
  { rewrite total_weightedSum. unfold weightedSum, pressureMetrics. cbn -[INR].
    rewrite Math_pow_1_5_1. replace (INR 3) with 3 by (cbn; lra).
    settle_decisions. lra. }
  set (a := analyzePage pressureText pressureFingerprint 0 (Some flaggedHost)).
  assert (compositeScore a = computeAdvancedCompositeScore pressureMetrics) as Hscore.
  { unfold a, analyzePage, pressureMetrics, or_1. cbn [compositeScore].
    cbn [pressureText AITextAnalyzer.credibilityScore].
    rewrite (decide_False (P := 0.85 = 0)) by lra. reflexivity. }
  assert (count (independentSignals a) = 0%nat) as Hcount.
  { unfold a, analyzePage. cbn [independentSignals].
    unfold countIndependentSignals.
    cbn [aiResult llmResult domainResult jailbreakHits urgencyScore credentialRisk
         count signals].
    cbn [fmap option_fmap option_map default from_option].
    rewrite flaggedHost_riskScore. unfold Datatypes.id.
    cbn [pressureText pressureFingerprint AITextAnalyzer.aiProbability
         AITextAnalyzer.confidence AITextAnalyzer.urgencyScore
         LLMFingerprinter.score LLMFingerprinter.riskFactors].
    settle_decisions. reflexivity. }
  assert (riskLevel a =
          deriveEnhancedRiskLevel (compositeScore a) pressureText pressureFingerprint
            (Some flaggedHost) 0 (independentSignals a)) as Hlevel by reflexivity.
  repeat split.
  - exact Hcount.
  - exact Hcritical.
  - rewrite Hscore. exact Htotal.
  - rewrite Hlevel. unfold deriveEnhancedRiskLevel.
    rewrite Hcritical, Hscore, Htotal. settle_decisions. reflexivity.
  - apply (riskToast_gated pressureText pressureFingerprint 0 (Some flaggedHost)).
    fold a. rewrite Hcount. lia.
Qed.


(** The total lies between 0 and 100 when the detector results are in
    range. *)
Lemma analyzePage_total_bounds ai llm (jailbreakResult : R) dom :
  0 <= AITextAnalyzer.aiProbability ai <= 1 →
  0 <= AITextAnalyzer.confidence ai <= 1 →
  0 <= AITextAnalyzer.persuasionScore ai <= 1 →
  0 <= AITextAnalyzer.urgencyScore ai <= 1 →
  0 <= AITextAnalyzer.credibilityScore ai <= 1 →
  0 <= LLMFingerprinter.score llm <= 1 →
  0 <= jailbreakResult →
  (∀ d, dom = Some d → 0 <= DomainReputation.riskScore d <= 100) →
  0 <= total (compositeScore (analyzePage ai llm jailbreakResult dom)) <= 100.
Proof.
  intros Hp Hc Hper Hurg Hcred Hllm Hjb Hdom.
  unfold analyzePage. cbn [compositeScore]. rewrite total_weightedSum.
  split; [|apply Rmin_r]. apply Rmin_glb; [|lra].
  apply weightedSum_nonneg. unfold sub_scores_in_range.
  cbn [Metrics.aiProbability Metrics.aiConfidence Metrics.urgencyScore
       Metrics.persuasionScore Metrics.llmScore Metrics.domainRisk
       Metrics.jailbreakHits Metrics.credibilityScore].
  repeat split; try lra.
  - destruct dom as [d|]; cbn; [apply (Hdom d eq_refl)|lra].
  - destruct dom as [d|]; cbn; [apply (Hdom d eq_refl)|lra].
  - unfold or_1. case_decide; lra.
  - unfold or_1. case_decide; lra.
Qed.

End AggregatorFacts.


(** ** The AI-text analyzer *)

Section AnalyzerFacts.
Import Js AITextAnalyzer.
Open Scope R_scope.

Implicit Types (E : Engine) (this : Analyzer) (text content : jsstring).

(** *** The state of the patterns *)

Lemma categoryHits_fold E text (ps : list RegExp) (n : nat) (done : list RegExp) :
  foldl (λ (acc : nat * list RegExp) pattern,
      let '(matches, pattern) := str_match E pattern text in
      ((acc.1 + length matches)%nat, acc.2 ++ [pattern])) (n, done) ps
  = (foldl (λ n p, (n + length (match_all E (regex p) text))%nat) n ps,
     done ++ (rewound <$> ps)).
Proof.
  revert n done. induction ps as [|p ps IH]; intros n done.
  - cbn. rewrite app_nil_r. reflexivity.
  - cbn [foldl]. unfold str_match at 2. cbn [fst snd].
    rewrite IH. f_equal. cbn. rewrite <- app_assoc. reflexivity.
Qed.

Lemma categoryHits_spec E text (ps : list RegExp) :
  categoryHits E text ps =
  (foldl (λ n p, (n + length (match_all E (regex p) text))%nat) 0%nat ps,
   rewound <$> ps).
Proof. unfold categoryHits. rewrite categoryHits_fold. reflexivity. Qed.

Lemma categoryHits_hitsOf E text (ps : list RegExp) :
  categoryHits E text ps = (hitsOf E text ps, rewound <$> ps).
Proof. apply categoryHits_spec. Qed.

Lemma hitsOf_rewound E text (ps : list RegExp) :
  hitsOf E text (rewound <$> ps) = hitsOf E text ps.
Proof.
  unfold hitsOf. generalize 0%nat.
  induction ps as [|p ps IH]; intros n; [reflexivity|].
  cbn. apply IH.
Qed.

Lemma categoryScoreOf_rewound E text config :
  categoryScoreOf E text (rewoundSignature config) = categoryScoreOf E text config.
Proof.
  unfold categoryScoreOf, rewoundSignature. cbn [patterns weight].
  by rewrite hitsOf_rewound.
Qed.

Lemma rewound_rewound (re : RegExp) : rewound (rewound re) = rewound re.
Proof. reflexivity. Qed.

Lemma analyzer_rewoundSignature_idemp config :
  rewoundSignature (rewoundSignature config) = rewoundSignature config.
Proof.
  unfold rewoundSignature. cbn. f_equal.
  rewrite <- list_fmap_compose. apply list_fmap_ext. intros; reflexivity.
Qed.

Lemma rewoundAnalyzer_idemp this :
  rewoundAnalyzer (rewoundAnalyzer this) = rewoundAnalyzer this.
Proof.
  unfold rewoundAnalyzer. cbn. f_equal.
  rewrite <- list_fmap_compose. apply list_fmap_ext.
  intros i config _. apply analyzer_rewoundSignature_idemp.
Qed.

(** The loop over the categories, as a function of the text. *)
Lemma linguistic_fold E text (configs : list Signature)
    (score : R) (details : list (string * (nat * R))) (done : list Signature) :
  foldl (λ (acc : R * list (string * (nat * R)) * list Signature) config,
      let '(score, details, signatures) := acc in
      let '(hits, patterns) := categoryHits E text (patterns config) in
      let categoryScore := Rmin (INR hits / 10 * weight config) (weight config) in
      (score + categoryScore,
       details ++ [(name config, (hits, toFixed 3 categoryScore))],
       signatures ++ [{| name := name config; patterns := patterns;
                         weight := weight config |}]))
    (score, details, done) configs
  = (foldl (λ s config, s + categoryScoreOf E text config) score configs,
     details ++ ((λ config, (name config,
                   (hitsOf E text (patterns config),
                    toFixed 3 (categoryScoreOf E text config)))) <$> configs),
     done ++ (rewoundSignature <$> configs)).
Proof.
  revert score details done.
  induction configs as [|config configs IH]; intros score details done.
  - cbn. rewrite !app_nil_r. reflexivity.
  - cbn [foldl]. rewrite categoryHits_hitsOf. cbn zeta. rewrite IH.
    cbn [fmap list_fmap]. rewrite <- !app_assoc. reflexivity.
Qed.

Lemma calculateLinguisticAIScore_spec E this text originalText :
  calculateLinguisticAIScore E this text originalText =
  ({| linguistic_score :=
        Rmin (foldl (λ s config, s + categoryScoreOf E text config) 0
                (aiSignatures this)) 1;
      linguistic_details :=
        (λ config, (name config,
           (hitsOf E text (patterns config),
            toFixed 3 (categoryScoreOf E text config)))) <$> aiSignatures this |},
   rewoundAnalyzer this).
Proof.
  unfold calculateLinguisticAIScore. rewrite linguistic_fold. reflexivity.
Qed.

(** A search does not depend on where earlier searches stopped. *)
Lemma calculateLinguisticAIScore_rewound E this text originalText :
  (calculateLinguisticAIScore E (rewoundAnalyzer this) text originalText).1 =
  (calculateLinguisticAIScore E this text originalText).1.
Proof.
  rewrite !calculateLinguisticAIScore_spec. cbn [fst].
  unfold rewoundAnalyzer. cbn [aiSignatures].
  f_equal.
  - f_equal. generalize 0. induction (aiSignatures this) as [|c cs IH]; intros s.
    + reflexivity.
    + cbn. rewrite categoryScoreOf_rewound. apply IH.
  - rewrite <- list_fmap_compose. apply list_fmap_ext. intros i c _.
    unfold compose. rewrite categoryScoreOf_rewound.
    unfold rewoundSignature at 1 2. cbn [name patterns].
    by rewrite hitsOf_rewound.
Qed.

(** *** The short-text contract *)

Lemma analyzeText_short E this content :
  (length (toLowerCase content) < 100)%nat →
  analyzeText E this content = (createEmptyResult, this).
Proof.
  intros Hshort. unfold analyzeText.
  rewrite (bool_decide_eq_true_2 (length _ < 100)%nat) by exact Hshort.
  rewrite orb_true_r. reflexivity.
Qed.

Lemma analyzeText_long E this content :
  (100 ≤ length (toLowerCase content))%nat →
  analyzeText E this content =
  let text := toLowerCase content in
  let originalText := content in
  let linguisticScore := (calculateLinguisticAIScore E this text originalText).1 in
  let aiScore :=
    calculateCompositeAIScore
      {| linguistic := linguistic_score linguisticScore;
         statistical := calculateStatisticalAIScore E text;
         semantic := calculateSemanticAIScore E text;
         structural := calculateStructuralAIScore E originalText |} in
  let persuasion := detectPersuasionPatterns text originalText in
  let urgency := measureUrgencyTactics E text originalText in
  let manipulation := detectManipulationTechniques E text originalText in
  let credibility := assessCredibilitySignals E text originalText in
  ({| aiProbability := toFixed 3 (probability aiScore);
      confidence := toFixed 3 (composite_confidence aiScore);
      breakdown := composite_breakdown aiScore;
      persuasionFlags := persuasion_flags persuasion;
      persuasionScore := toFixed 3 (persuasion_score persuasion);
      urgencyScore := toFixed 3 (urgency_score urgency);
      resultIndicators := indicators urgency;
      manipulationTechniques := manipulation;
      credibilityScore := toFixed 3 (credibility_score credibility);
      credibilityFactors := factors credibility;
      recommendation :=
        generateWarningLevel (probability aiScore) (urgency_score urgency)
          (persuasion_flags persuasion) manipulation |},
   rewoundAnalyzer this).
Proof.
  intros Hlong. unfold analyzeText.
  rewrite (bool_decide_eq_false_2 (length _ < 100)%nat) by lia.
  rewrite (bool_decide_eq_false_2 (toLowerCase content = [])).
  2:{ intros Hnil. rewrite Hnil in Hlong. cbn in Hlong. lia. }
  cbn [orb]. rewrite calculateLinguisticAIScore_spec. reflexivity.
Qed.

(** What an analysis leaves behind. *)
Lemma analyzeText_state E this content :
  (analyzeText E this content).2 =
  if decide (length (toLowerCase content) < 100)%nat then this
  else rewoundAnalyzer this.
Proof.
  case_decide as Hlen.
  - by rewrite analyzeText_short.
  - rewrite analyzeText_long by lia. reflexivity.
Qed.

(** The result does not depend on where earlier searches stopped. *)
Lemma analyzeText_rewound E this content :
  (analyzeText E (rewoundAnalyzer this) content).1 =
  (analyzeText E this content).1.
Proof.
  destruct (decide (length (toLowerCase content) < 100)%nat) as [Hlen|Hlen].
  - by rewrite !analyzeText_short.
  - rewrite !analyzeText_long by lia. cbn zeta. cbn [fst].
    rewrite calculateLinguisticAIScore_rewound. reflexivity.
Qed.

(** *** The ranges of the scores *)

Lemma categoryScoreOf_bounds E text config :
  0 <= weight config → 0 <= categoryScoreOf E text config <= weight config.
Proof.
  intros Hw. unfold categoryScoreOf. split; [|apply Rmin_r].
  apply Rmin_glb; [|exact Hw].
  pose proof (pos_INR (hitsOf E text (patterns config))). 
  apply Rmult_le_pos; [|exact Hw]. lra.
Qed.

Lemma linguistic_sum_bounds E text (configs : list Signature) (s : R) :
  Forall (λ config, 0 <= weight config) configs →
  s <= foldl (λ s config, s + categoryScoreOf E text config) s configs
    <= s + foldr (λ config acc, weight config + acc) 0 configs.
Proof.
  intros Hw. revert s. induction Hw as [|config configs Hc _ IH]; intros s.
  - cbn. lra.
  - cbn. pose proof (categoryScoreOf_bounds E text config Hc).
    specialize (IH (s + categoryScoreOf E text config)). lra.
Qed.

Lemma analyzer_constructor_weights :
  Forall (λ config, 0 <= weight config) (aiSignatures constructor) ∧
  foldr (λ config acc, weight config + acc) 0 (aiSignatures constructor) = 0.5.
Proof.
  split.
  - unfold constructor. cbn [aiSignatures]. repeat constructor; cbn; lra.
  - unfold constructor. cbn. lra.
Qed.

Lemma linguistic_score_bounds E this text originalText :
  constructed this →
  0 <= linguistic_score (calculateLinguisticAIScore E this text originalText).1 <= 0.5.
Proof.
  intros Hthis. rewrite <- calculateLinguisticAIScore_rewound, Hthis.
  rewrite calculateLinguisticAIScore_spec. cbn [fst linguistic_score].
  destruct analyzer_constructor_weights as [Hw Hsum].
  pose proof (linguistic_sum_bounds E text _ 0 Hw) as Hbounds.
  rewrite Hsum in Hbounds. rewrite Rmin_left; lra.
Qed.

Lemma calculateStatisticalAIScore_bounds E text :
  0 <= calculateStatisticalAIScore E text <= 0.6.
Proof.
  unfold calculateStatisticalAIScore.
  repeat match goal with
         | |- context [if ?c then _ else _] => destruct c
         end; lra.
Qed.

Lemma calculateSemanticAIScore_bounds E text :
  0 <= calculateSemanticAIScore E text <= 0.3.
Proof.
  unfold calculateSemanticAIScore. split; [|apply Rmin_r].
  apply Rmin_glb; [|lra].
  repeat match goal with
         | |- context [if ?c then _ else _] => destruct c
         end; lra.
Qed.

Lemma calculateStructuralAIScore_bounds E originalText :
  0 <= calculateStructuralAIScore E originalText <= 0.3.
Proof.
  unfold calculateStructuralAIScore. split; [|apply Rmin_r].
  apply Rmin_glb; [|lra].
  generalize (test E "(?:•|\*|\-|\d+\.)\s+" "g" originalText).
  generalize (test E "\d+\.\s+[A-Z]" "g" originalText).
  intros b1 b2.
  match goal with
  | |- context [if ?c then _ else _] => destruct c
  end; destruct b1, b2; lra.
Qed.

(** The variance of four numbers is not negative, and at most [c * c / 4]
    when they lie between 0 and [c]. *)
Lemma variance_of_four (a b c d : R) :
  0 <= calculateVariance [a; b; c; d].
Proof.
  unfold calculateVariance, sum_R. cbn.
  set (m := (0 + a + b + c + d) / (1 + 1 + 1 + 1)).
  pose proof (Rle_0_sqr (a - m)). pose proof (Rle_0_sqr (b - m)).
  pose proof (Rle_0_sqr (c - m)). pose proof (Rle_0_sqr (d - m)).
  unfold Rsqr in *. lra.
Qed.

Lemma variance_of_four_le (a b c d bound : R) :
  0 <= a <= bound → 0 <= b <= bound → 0 <= c <= bound → 0 <= d <= bound →
  calculateVariance [a; b; c; d] <= bound * bound / 4.
Proof.
  intros Ha Hb Hc Hd. unfold calculateVariance, sum_R. cbn.
  replace (1 + 1 + 1 + 1) with 4 by lra.
  set (m := (0 + a + b + c + d) / 4).
  assert (m = (a + b + c + d) / 4) as Hm by (unfold m; lra).
  assert (0 + (a - m) * (a - m) + (b - m) * (b - m) + (c - m) * (c - m)
          + (d - m) * (d - m) = a * a + b * b + c * c + d * d - 4 * (m * m)) as ->.
  { rewrite Hm. field. }
  assert (a * a <= bound * a) by nra. assert (b * b <= bound * b) by nra.
  assert (c * c <= bound * c) by nra. assert (d * d <= bound * d) by nra.
  assert (0 <= (m - bound / 2) * (m - bound / 2)) by apply Rle_0_sqr.
  nra.
Qed.

Lemma calculateCompositeAIScore_bounds (components : Components) :
  0 <= linguistic components → 0 <= statistical components →
  0 <= semantic components → 0 <= structural components →
  0 <= probability (calculateCompositeAIScore components) <= 1 ∧
  0 <= composite_confidence (calculateCompositeAIScore components) <= 1.
Proof.
  intros Hl Hst Hse Hstr. unfold calculateCompositeAIScore.
  cbn [foldl fst snd probability composite_confidence]. split.
  - split; [|apply Rmin_r]. apply Rmin_glb; [|lra]. nra.
  - apply toFixed_unit.
    pose proof (variance_of_four (linguistic components) (statistical components)
                  (semantic components) (structural components)) as Hvar.
    split; [apply Rmax_l|]. apply Rmax_lub; lra.
Qed.

Lemma detectPersuasionPatterns_bounds text originalText :
  0 <= persuasion_score (detectPersuasionPatterns text originalText) <= 1.
Proof.
  unfold detectPersuasionPatterns.
  match goal with
  | |- context [foldl ?f ?a ?l] =>
      pose proof (foldl_invariant
                    (λ acc : list string * list (string * nat) * R, 0 <= acc.2)
                    f a l) as Hinv
  end.
  destruct (foldl _ _ persuasionTechniques) as [[flags categoryScores] totalScore].
  cbn [persuasion_score]. split; [|apply Rmin_r].
  apply Rmin_glb; [|lra]. apply Hinv; [cbn; lra|].
  intros [[fl cs] ts] [category keywords] Hts. cbn in Hts. cbn zeta.
  case_decide; [|exact Hts]. cbn.
  pose proof (pos_INR (length (filter
    (λ keyword, includes text (toLowerCase (lit keyword)) = true) keywords))).
  lra.
Qed.

Lemma measureUrgencyTactics_bounds E text originalText :
  0 <= urgency_score (measureUrgencyTactics E text originalText) <= 1.
Proof.
  unfold measureUrgencyTactics.
  match goal with
  | |- context [foldl ?f ?a urgencyIndicators] =>
      pose proof (foldl_invariant (λ acc : list Indicator * R, 0 <= acc.2)
                    f a urgencyIndicators) as Hinv
  end.
  destruct (foldl _ _ urgencyIndicators) as [indicators score].
  cbn [urgency_score]. split; [|apply Rmin_r].
  apply Rmin_glb; [|lra].
  assert (0 <= score) as Hscore.
  { apply Hinv; [cbn; lra|].
    intros acc [category patterns] Hacc.
    apply foldl_invariant; [exact Hacc|].
    intros acc' pattern Hacc'. case_decide; [|exact Hacc']. cbn [fst snd].
    pose proof (pos_INR (length (str_match E pattern originalText).1)). lra. }
  case_decide; [|exact Hscore].
  pose proof (pos_INR (count E "!" "g" originalText)).
  assert (0 <= Rmin (INR (count E "!" "g" originalText) * 0.05) 0.3)
    by (apply Rmin_glb; lra).
  lra.
Qed.

Lemma assessCredibilitySignals_bounds E text originalText :
  0 <= credibility_score (assessCredibilitySignals E text originalText) <= 1.
Proof.
  unfold assessCredibilitySignals. cbn [credibility_score].
  split; [apply Rmax_l|]. apply Rmax_lub; [lra|apply Rmin_r].
Qed.

(** Every probability the analyzer returns lies between 0 and 1. *)
Lemma analyzeText_bounds E this content :
  constructed this →
  let r := (analyzeText E this content).1 in
  0 <= aiProbability r <= 1 ∧ 0 <= confidence r <= 1 ∧
  0 <= persuasionScore r <= 1 ∧ 0 <= urgencyScore r <= 1 ∧
  0 <= credibilityScore r <= 1.
Proof.
  intros Hthis. cbn zeta.
  destruct (decide (length (toLowerCase content) < 100)%nat) as [Hlen|Hlen].
  - rewrite analyzeText_short by exact Hlen. cbn. lra.
  - rewrite analyzeText_long by lia. cbn zeta.
    cbn [fst aiProbability confidence persuasionScore urgencyScore credibilityScore].
    pose proof (linguistic_score_bounds E this (toLowerCase content) content Hthis)
      as [Hl _].
    pose proof (calculateStatisticalAIScore_bounds E (toLowerCase content)) as [Hst _].
    pose proof (calculateSemanticAIScore_bounds E (toLowerCase content)) as [Hse _].
    pose proof (calculateStructuralAIScore_bounds E content) as [Hstr _].
    match goal with
    | |- context [calculateCompositeAIScore ?c] =>
        pose proof (calculateCompositeAIScore_bounds c Hl Hst Hse Hstr) as [Hp Hc]
    end.
    repeat split; try (apply toFixed_unit);
      first [ exact Hp | exact Hc
            | apply detectPersuasionPatterns_bounds
            | apply measureUrgencyTactics_bounds
            | apply assessCredibilitySignals_bounds ].
Qed.

Lemma analyzer_constructed : constructed constructor.
Proof. reflexivity. Qed.

(** Lower-casing lengthens a text by one code unit per U+0130. *)
Lemma length_toLowerCase content :
  length (toLowerCase content) =
  (length content + length (filter (λ u, u = 304%N) content))%nat.
Proof.
  unfold toLowerCase. induction content as [|u content IH]; [reflexivity|].
  cbn [mbind list_bind]. rewrite length_app, IH, filter_cons.
  unfold lower_unit.
  destruct (decide (u = 304%N)) as [->|Hu]; [cbn; lia|].
  destruct (u =? 304)%N eqn:Heq; [apply N.eqb_eq in Heq; contradiction|].
  repeat match goal with
         | |- context [if ?c then _ else _] => destruct c
         end; cbn; lia.
Qed.

(** The short-text contract, for a text without U+0130. *)
Lemma analyzeText_short_plain E this content :
  (length content < 100)%nat → 304%N ∉ content →
  analyzeText E this content = (createEmptyResult, this).
Proof.
  intros Hlen Hplain. apply analyzeText_short. rewrite length_toLowerCase.
  assert (filter (λ u, u = 304%N) content = []) as ->; [|cbn; lia].
  induction content as [|u content IH]; [reflexivity|].
  apply not_elem_of_cons in Hplain as [Hu Hrest].
  rewrite filter_cons, decide_False by congruence.
  apply IH; [cbn in Hlen; lia|exact Hrest].
Qed.

Lemma confidence_of_long_text E this content :
  constructed this → (100 ≤ length (toLowerCase content))%nat →
  0.91 <= confidence (analyzeText E this content).1.
Proof.
  intros Hthis Hlong. rewrite analyzeText_long by exact Hlong. cbn zeta.
  cbn [fst confidence]. unfold calculateCompositeAIScore.
  cbn [foldl fst snd composite_confidence].
  cbn [linguistic statistical semantic structural].
  pose proof (linguistic_score_bounds E this (toLowerCase content) content Hthis) as Hl.
  pose proof (calculateStatisticalAIScore_bounds E (toLowerCase content)) as Hst.
  pose proof (calculateSemanticAIScore_bounds E (toLowerCase content)) as Hse.
  pose proof (calculateStructuralAIScore_bounds E content) as Hstr.
  match goal with
  | |- context [calculateVariance [?a; ?b; ?c; ?d]] =>
      pose proof (variance_of_four_le a b c d 0.6) as Hvar;
      pose proof (variance_of_four a b c d) as Hvar0;
      generalize dependent (calculateVariance [a; b; c; d])
  end.
  intros variance Hvar Hvar0.
  assert (variance <= 0.09) as Hle by (etransitivity; [apply Hvar; lra|lra]).
  assert (0.91 <= toFixed 3 (Rmax 0 (1 - variance))) as Hfirst.
  { replace 0.91 with (IZR 910 / 10 ^ 3) by (cbn; lra).
    apply toFixed_ge; [apply Rmax_l|].
    pose proof (Rmax_r 0 (1 - variance)). cbn. lra. }
  replace 0.91 with (IZR 910 / 10 ^ 3) by (cbn; lra).
  apply toFixed_ge.
  - lra.
  - cbn. lra.
Qed.

(** C6 at a failing input.  The text of fifty U+0130 has 50 code units, but
    its lower case has 100: the analyzer does not take the short-text exit,
    scores the text and reports a confidence of at least 0.91 rather than
    the empty result's 0, whatever the patterns match. *)
Theorem analyzeText_measures_lowercased_text E :
  length fiftyDottedI = 50%nat ∧
  length (toLowerCase fiftyDottedI) = 100%nat ∧
  confidence (analyzeText E constructor fiftyDottedI).1 >= 0.91 ∧
  (analyzeText E constructor fiftyDottedI).1 ≠ createEmptyResult.
Proof.
  assert (length (toLowerCase fiftyDottedI) = 100%nat) as Hlen by reflexivity.
  assert (0.91 <= confidence (analyzeText E constructor fiftyDottedI).1) as Hconf.
  { apply confidence_of_long_text; [apply analyzer_constructed|]. rewrite Hlen. lia. }
  repeat split; [lra|].
  intros Hempty. rewrite Hempty in Hconf. cbn in Hconf. lra.
Qed.

End AnalyzerFacts.


(** ** The LLM fingerprinter *)

Section FingerprinterFacts.
Import Js LLMFingerprinter.
Open Scope R_scope.

Implicit Types (E : Engine) (this : Fingerprinter) (content : jsstring).

(** *** The state of the patterns *)

Lemma categoryMatches_fold E content (ps : list RegExp)
    (found : list jsstring) (done : list RegExp) :
  foldl (λ (acc : list jsstring * list RegExp) pattern,
      let '(found, pattern) := str_match E pattern content in
      (acc.1 ++ found, acc.2 ++ [pattern])) (found, done) ps
  = (foldl (λ found p, found ++ match_all E (regex p) content) found ps,
     done ++ (rewound <$> ps)).
Proof.
  revert found done. induction ps as [|p ps IH]; intros found done.
  - cbn. rewrite app_nil_r. reflexivity.
  - cbn [foldl]. unfold str_match at 2. cbn [fst snd].
    rewrite IH. f_equal. cbn. rewrite <- app_assoc. reflexivity.
Qed.

Lemma categoryMatches_spec E content (ps : list RegExp) :
  categoryMatches E content ps = (foundOf E content ps, rewound <$> ps).
Proof. unfold categoryMatches. rewrite categoryMatches_fold. reflexivity. Qed.

Lemma foundOf_rewound E content (ps : list RegExp) :
  foundOf E content (rewound <$> ps) = foundOf E content ps.
Proof.
  unfold foundOf. generalize (@nil (list N)).
  induction ps as [|p ps IH]; intros found; [reflexivity|].
  cbn. apply IH.
Qed.

Lemma fingerprinter_rewoundSignature_idemp config :
  rewoundSignature (rewoundSignature config) = rewoundSignature config.
Proof.
  unfold rewoundSignature. cbn. f_equal.
  rewrite <- list_fmap_compose. apply list_fmap_ext. intros; reflexivity.
Qed.

(** One iteration of the loop over the categories. *)
Lemma tallyCategory_view E content (t1 t2 : Tally) (config : Signature) :
  tally_view t1 = tally_view t2 →
  tally_view (tallyCategory E content t1 (rewoundSignature config)) =
  tally_view (tallyCategory E content t2 config).
Proof.
  intros Hview. unfold tallyCategory. rewrite !categoryMatches_spec.
  unfold rewoundSignature. cbn [patterns name weight modelType].
  rewrite foundOf_rewound.
  unfold tally_view in Hview. injection Hview as Hm Hs Hsc Hh.
  destruct (decide (0 < length (foundOf E content (patterns config)))%nat);
    unfold tally_view; cbn [tally_matches tally_signatures tally_score tally_hits
                            tally_patterns name weight modelType];
    rewrite Hm, Hs, Hsc, Hh; reflexivity.
Qed.

Lemma tallyCategory_patterns E content (t : Tally) (config : Signature) :
  tally_patterns (tallyCategory E content t config) =
  tally_patterns t ++ [rewoundSignature config].
Proof.
  unfold tallyCategory. rewrite categoryMatches_spec.
  destruct (decide (0 < length (foundOf E content (patterns config)))%nat);
    reflexivity.
Qed.

Lemma tally_fold_view E content (configs : list Signature) (t1 t2 : Tally) :
  tally_view t1 = tally_view t2 →
  tally_view (foldl (tallyCategory E content) t1 (rewoundSignature <$> configs)) =
  tally_view (foldl (tallyCategory E content) t2 configs).
Proof.
  revert t1 t2. induction configs as [|config configs IH]; intros t1 t2 Hview.
  - exact Hview.
  - cbn. apply IH. by apply tallyCategory_view.
Qed.

Lemma tally_fold_patterns E content (configs : list Signature) (t : Tally) :
  tally_patterns (foldl (tallyCategory E content) t configs) =
  tally_patterns t ++ (rewoundSignature <$> configs).
Proof.
  revert t. induction configs as [|config configs IH]; intros t.
  - cbn. by rewrite app_nil_r.
  - cbn. rewrite IH, tallyCategory_patterns, <- app_assoc. reflexivity.
Qed.

(** What a detection leaves behind. *)
Lemma detectAIPhishing_state E this content :
  (detectAIPhishing E this content).2 =
  if decide (length content < 30)%nat then this else rewoundFingerprinter this.
Proof.
  unfold detectAIPhishing. case_decide as Hlen.
  - rewrite (bool_decide_eq_true_2 (length content < 30)%nat) by exact Hlen.
    by rewrite orb_true_r.
  - rewrite (bool_decide_eq_false_2 (length content < 30)%nat) by exact Hlen.
    rewrite (bool_decide_eq_false_2 (content = [])).
    2:{ intros ->. cbn in Hlen. lia. }
    cbn [orb snd]. rewrite tally_fold_patterns. reflexivity.
Qed.

(** The result does not depend on where earlier searches stopped. *)
Lemma detectAIPhishing_rewound E this content :
  (detectAIPhishing E (rewoundFingerprinter this) content).1 =
  (detectAIPhishing E this content).1.
Proof.
  unfold detectAIPhishing.
  destruct (bool_decide (content = []) || bool_decide (length content < 30)%nat);
    [reflexivity|].
  cbn [fst]. unfold rewoundFingerprinter. cbn [signatures].
  pose proof (tally_fold_view E content (signatures this) emptyTally emptyTally
                eq_refl) as Hview.
  unfold tally_view in Hview. injection Hview as Hm Hs Hsc Hh.
  rewrite Hm, Hs, Hsc, Hh. reflexivity.
Qed.

(** *** The ranges of the scores *)

Lemma fingerprinter_constructor_weights : Forall (λ config, 0 <= weight config) (signatures constructor).
Proof. unfold constructor. cbn [signatures]. repeat constructor; cbn; lra. Qed.

Lemma fingerprinter_constructed_weights this :
  constructed this → Forall (λ config, 0 <= weight config) (signatures this).
Proof.
  intros Hthis. pose proof fingerprinter_constructor_weights as Hw. rewrite <- Hthis in Hw.
  unfold rewoundFingerprinter in Hw. cbn [signatures] in Hw.
  rewrite Forall_fmap in Hw.
  eapply Forall_impl; [exact Hw|]. intros config Hc. exact Hc.
Qed.

Lemma tallyCategory_score E content (t : Tally) (config : Signature) :
  0 <= weight config → 0 <= tally_score t →
  0 <= tally_score (tallyCategory E content t config).
Proof.
  intros Hw Ht. unfold tallyCategory. rewrite categoryMatches_spec.
  destruct (decide (0 < length (foundOf E content (patterns config)))%nat);
    cbn [tally_score weight]; [|exact Ht].
  pose proof (pos_INR (length (foundOf E content (patterns config)))).
  assert (0 <= Rmin (INR (length (foundOf E content (patterns config))) * 0.1
                     * weight config) (weight config)).
  { apply Rmin_glb; [|exact Hw]. apply Rmult_le_pos; [|exact Hw]. lra. }
  lra.
Qed.

Lemma calculateContextMultiplier_ge_1 (text : jsstring) :
  1 <= calculateContextMultiplier text.
Proof.
  unfold calculateContextMultiplier.
  apply (foldl_invariant (λ m, 1 <= m)); [lra|].
  intros m [category [keywords multiplier]] Hm.
  destruct (existsb _ keywords); [|exact Hm].
  etransitivity; [exact Hm|apply Rmax_l].
Qed.

Lemma analyzeHeuristics_bounds E content text :
  0 <= heuristics_score (analyzeHeuristics E content text) <= 0.4.
Proof.
  unfold analyzeHeuristics. cbn [heuristics_score]. split; [|apply Rmin_r].
  apply Rmin_glb; [|lra].
  repeat match goal with
         | |- context [if ?c then _ else _] => destruct c
         end; lra.
Qed.

Lemma identifyLikelyModel_bounds (signatures : list (string * R)) model :
  identifyLikelyModel signatures = Some model →
  0 <= model_confidence model <= 1.
Proof.
  unfold identifyLikelyModel.
  destruct (sort_by_score signatures) as [|[topModel topScore] rest]; [discriminate|].
  case_decide as Htop; [|discriminate]. intros [= <-]. cbn [model_confidence].
  apply toFixed_unit. split; [|apply Rmin_r]. apply Rmin_glb; lra.
Qed.

(** Every probability the fingerprinter returns lies between 0 and 1. *)
Lemma detectAIPhishing_bounds E this content :
  constructed this →
  let r := (detectAIPhishing E this content).1 in
  0 <= score r <= 1 ∧
  (∀ model, likelyModel r = Some model → 0 <= model_confidence model <= 1).
Proof.
  intros Hthis. cbn zeta. unfold detectAIPhishing.
  destruct (bool_decide (content = []) || bool_decide (length content < 30)%nat).
  - cbn. split; [lra|discriminate].
  - cbn [fst score likelyModel]. split.
    + apply toFixed_unit. split; [|apply Rmin_r]. apply Rmin_glb; [|lra].
      assert (0 <= tally_score (foldl (tallyCategory E content) emptyTally
                                  (signatures this))) as Htally.
      { apply (foldl_invariant_Forall (λ t, 0 <= tally_score t)
                 (λ config, 0 <= weight config)).
        - by apply fingerprinter_constructed_weights.
        - cbn. lra.
        - intros t config Hw Ht. by apply tallyCategory_score. }
      pose proof (calculateContextMultiplier_ge_1 (toLowerCase content)).
      pose proof (analyzeHeuristics_bounds E content (toLowerCase content)).
      nra.
    + intros model. apply identifyLikelyModel_bounds.
Qed.

Lemma fingerprinter_constructed : constructed constructor.
Proof. reflexivity. Qed.

End FingerprinterFacts.


(** ** The detectors together *)

Section PipelineFacts.
Import Js.
Open Scope R_scope.

(** C9.  Calling the AI-text analyzer twice on the same text gives the same
    result, and so does calling the fingerprinter twice: the only state a
    call changes is the [lastIndex] of the stored patterns, which a call
    never reads. *)
Theorem detectors_repeat_their_results (E : Engine)
    (analyzer : AITextAnalyzer.Analyzer)
    (fingerprinter : LLMFingerprinter.Fingerprinter) (content : list N) :
  (let '(first, analyzer) := AITextAnalyzer.analyzeText E analyzer content in
   let '(second, _) := AITextAnalyzer.analyzeText E analyzer content in
   second = first) ∧
  (let '(first, fingerprinter) :=
     LLMFingerprinter.detectAIPhishing E fingerprinter content in
   let '(second, _) := LLMFingerprinter.detectAIPhishing E fingerprinter content in
   second = first).
Proof.
  split.
  - pose proof (analyzeText_state E analyzer content) as Hstate.
    pose proof (analyzeText_rewound E analyzer content) as Hrewound.
    destruct (AITextAnalyzer.analyzeText E analyzer content) as [first analyzer']
      eqn:Hfirst.
    cbn [fst snd] in *.
    destruct (AITextAnalyzer.analyzeText E analyzer' content) as [second analyzer'']
      eqn:Hsecond.
    case_decide; subst analyzer'.
    + rewrite Hfirst in Hsecond. congruence.
    + rewrite Hsecond in Hrewound. exact Hrewound.
  - pose proof (detectAIPhishing_state E fingerprinter content) as Hstate.
    pose proof (detectAIPhishing_rewound E fingerprinter content) as Hrewound.
    destruct (LLMFingerprinter.detectAIPhishing E fingerprinter content)
      as [first fingerprinter'] eqn:Hfirst.
    cbn [fst snd] in *.
    destruct (LLMFingerprinter.detectAIPhishing E fingerprinter' content)
      as [second fingerprinter''] eqn:Hsecond.
    case_decide; subst fingerprinter'.
    + rewrite Hfirst in Hsecond. congruence.
    + rewrite Hsecond in Hrewound. exact Hrewound.
Qed.

(** C5.  For every text, page and host name, and detectors built by their
    constructors: the probabilities and confidences the detectors return
    lie between 0 and 1, and the jailbreak risk score, the domain risk
    score and the composite total lie between 0 and 100. *)
Theorem scores_within_their_ranges (E : Engine)
    (analyzer : AITextAnalyzer.Analyzer)
    (fingerprinter : LLMFingerprinter.Fingerprinter)
    (history : gmap (list N) (list JailbreakDetector.HistoryEntry))
    (content : list N) (page : JailbreakDetector.Page) (hostname : list N) (now : Z)
    (vtApiKey gsbApiKey : bool) (vtAnswer : ServiceWorker.VtResult)
    (gsbAnswer : ServiceWorker.GsbResult) :
  AITextAnalyzer.constructed analyzer →
  LLMFingerprinter.constructed fingerprinter →
  let response :=
    ServiceWorker.resolveDomainReputation hostname vtApiKey gsbApiKey vtAnswer
      gsbAnswer in
  let '(ai, llm, jailbreakResult, domainResult) :=
    Aggregator.detectorResults E analyzer fingerprinter history content page
      hostname now response in
  let scan := JailbreakDetector.scanPage E page hostname now history in
  let assessment := Aggregator.analyzePage ai llm jailbreakResult domainResult in
  (0 <= AITextAnalyzer.aiProbability ai <= 1 ∧
   0 <= AITextAnalyzer.confidence ai <= 1 ∧
   0 <= AITextAnalyzer.persuasionScore ai <= 1 ∧
   0 <= AITextAnalyzer.urgencyScore ai <= 1 ∧
   0 <= AITextAnalyzer.credibilityScore ai <= 1) ∧
  (0 <= LLMFingerprinter.score llm <= 1 ∧
   ∀ model, LLMFingerprinter.likelyModel llm = Some model →
            0 <= LLMFingerprinter.model_confidence model <= 1) ∧
  0 <= JailbreakDetector.riskScore (JailbreakDetector.results scan) <= 100 ∧
  (0 <= Typosquat.confidence (DomainReputation.advancedTyposquatAnalysis hostname) <= 1 ∧
   0 <= DomainReputation.impersonation_confidence
          (DomainReputation.detectBrandImpersonation hostname) <= 1 ∧
   0 <= DomainReputation.suspicionScore
          (DomainReputation.detectSuspiciousPatterns hostname) <= 1 ∧
   0 <= ServiceWorker.computeTyposquat hostname <= 1 ∧
   ∀ d, domainResult = Some d → 0 <= DomainReputation.riskScore d <= 100) ∧
  0 <= Aggregator.total (Aggregator.compositeScore assessment) <= 100.
Proof.
  intros Hanalyzer Hfingerprinter. cbv zeta. unfold Aggregator.detectorResults.
  pose proof (analyzeText_bounds E analyzer content Hanalyzer) as Hai.
  pose proof (detectAIPhishing_bounds E fingerprinter content Hfingerprinter) as Hllm.
  pose proof (scanPage_bounds E page hostname now history) as [Hrisk Hhits].
  cbv zeta in Hai, Hllm.
  assert (∀ d,
            Some (DomainReputation.checkDomain hostname
                    (ServiceWorker.resolveDomainReputation hostname vtApiKey
                       gsbApiKey vtAnswer gsbAnswer)) = Some d →
            0 <= DomainReputation.riskScore d <= 100) as Hdom.
  { intros d [= <-]. apply checkDomain_riskScore.
    intros computedRisk. unfold ServiceWorker.resolveDomainReputation.
    case_bool_decide; [discriminate|]. cbv zeta.
    destruct (ServiceWorker.scoreDomainRisk _ _) as [score|message] eqn:Hscore;
      [|discriminate].
    intros [= <-]. eapply scoreDomainRisk_bounds. exact Hscore. }
  destruct Hai as (Hp & Hc & Hper & Hurg & Hcred). destruct Hllm as [Hscore Hmodel].
  split; [repeat split; lra|].
  split; [split; [exact Hscore|exact Hmodel]|].
  split; [exact Hrisk|].
  split.
  - split; [apply advancedTyposquatAnalysis_confidence|].
    split; [apply detectBrandImpersonation_confidence|].
    split; [apply detectSuspiciousPatterns_score|].
    split; [apply computeTyposquat_bounds|exact Hdom].
  - apply analyzePage_total_bounds; try assumption.
Qed.

Lemma scores_within_their_ranges_witness :
  AITextAnalyzer.constructed AITextAnalyzer.constructor ∧
  LLMFingerprinter.constructed LLMFingerprinter.constructor ∧
  0 <= Typosquat.confidence
         (DomainReputation.advancedTyposquatAnalysis (lit "micros0ft.com")) <= 1.
Proof.
  assert (AITextAnalyzer.constructed AITextAnalyzer.constructor) as Ha
    by reflexivity.
  assert (LLMFingerprinter.constructed LLMFingerprinter.constructor) as Hf
    by reflexivity.
  split; [exact Ha|]. split; [exact Hf|].
  pose proof (scores_within_their_ranges
                {| match_all := λ _ _, []; exec := λ _ _ _, None; split := λ _ s, [s] |}
                AITextAnalyzer.constructor LLMFingerprinter.constructor ∅
                AITextAnalyzer.fiftyDottedI
                {| JailbreakDetector.scripts := [];
                   JailbreakDetector.elementsWith := λ _, [] |}
                (lit "micros0ft.com") 0%Z false false
                (ServiceWorker.VtError "") (ServiceWorker.GsbError "") Ha Hf) as H.
  cbv zeta in H. unfold Aggregator.detectorResults in H.
  destruct H as (_ & _ & _ & (Htypo & _) & _). exact Htypo.
Defined.

End PipelineFacts.


(** ** The helpers of utils.js *)

Section UtilsFacts.
Import Js VigilUtils.

Lemma trunc_take (text : list N) (limit : Z) :
  (0 ≤ limit)%Z → trunc text limit = take (Z.to_nat limit) text.
Proof.
  intros Hlimit. unfold trunc, slice_to. rewrite decide_False by lia.
  destruct (bool_decide (text = []) || bool_decide (Z.of_nat (length text) ≤ limit)%Z)
    eqn:Hwhole; [|done].
  apply orb_true_iff in Hwhole as [Hempty|Hshort].
  - apply bool_decide_eq_true in Hempty. subst text. by destruct (Z.to_nat limit).
  - apply bool_decide_eq_true in Hshort. rewrite take_ge; [done|lia].
Qed.

(** X1.  For a limit that is not negative, [trunc] returns the longest
    prefix of the text with at most [limit] code units: the text itself when
    it is short enough, its first [limit] units otherwise; truncating twice
    is truncating once. *)
Theorem trunc_is_bounded_prefix (text : list N) (limit : Z) :
  (0 ≤ limit)%Z →
  trunc text limit `prefix_of` text ∧
  length (trunc text limit) = length text `min` Z.to_nat limit ∧
  ((Z.of_nat (length text) ≤ limit)%Z → trunc text limit = text) ∧
  trunc (trunc text limit) limit = trunc text limit.
Proof.
  intros Hlimit. rewrite !trunc_take by done.
  repeat split.
  - apply prefix_take.
  - rewrite length_take. lia.
  - intros Hshort. apply take_ge. lia.
  - rewrite take_take. f_equal. lia.
Qed.

Lemma trunc_is_bounded_prefix_witness :
  (0 ≤ 3)%Z ∧ length (trunc (lit "phishing") 3) = 3%nat.
Proof.
  split; [lia|].
  exact (proj1 (proj2 (trunc_is_bounded_prefix (lit "phishing") 3 ltac:(lia)))).
Defined.

Open Scope R_scope.

(** X2.  [normalizeScore] always returns a value between 0 and 1, and 0
    for an empty range; for a proper range [min < max] it maps [min] to 0 and
    [max] to 1, is the linear interpolation in between, and never decreases
    when the score grows. *)
Theorem normalizeScore_is_a_clamped_interpolation (lo hi : R) :
  (∀ score, 0 <= normalizeScore score lo hi <= 1) ∧
  (∀ score, normalizeScore score lo lo = 0) ∧
  (lo < hi →
   normalizeScore lo lo hi = 0 ∧ normalizeScore hi lo hi = 1 ∧
   (∀ score, lo <= score <= hi →
             normalizeScore score lo hi = (score - lo) / (hi - lo)) ∧
   (∀ s1 s2, s1 <= s2 → normalizeScore s1 lo hi <= normalizeScore s2 lo hi)).
Proof.
  split; [|split].
  - intros score. unfold normalizeScore. case_decide; [lra|].
    split; [|apply Rmin_r]. apply Rmin_glb; [apply Rmax_r|lra].
  - intros score. unfold normalizeScore. by rewrite decide_True.
  - intros Hrange.
    assert (0 < / (hi - lo)) as Hinv by (apply Rinv_0_lt_compat; lra).
    assert (∀ score, lo <= score <= hi →
              normalizeScore score lo hi = (score - lo) / (hi - lo)) as Hlinear.
    { intros score [Hlo Hhi]. unfold normalizeScore.
      rewrite decide_False by lra.
      assert (0 <= (score - lo) / (hi - lo)) as H0.
      { unfold Rdiv. apply Rmult_le_pos; lra. }
      assert ((score - lo) / (hi - lo) <= 1) as H1.
      { apply (Rmult_le_reg_r (hi - lo)); [lra|]. field_simplify; lra. }
      rewrite Rmax_left by lra. rewrite Rmin_left by lra. reflexivity. }
    split; [|split; [|split]].
    + rewrite Hlinear by lra. unfold Rdiv. lra.
    + rewrite Hlinear by lra. field. lra.
    + exact Hlinear.
    + intros s1 s2 Hle. unfold normalizeScore. rewrite !decide_False by lra.
      apply Rle_min_compat_r. apply Rle_max_compat_r.
      unfold Rdiv. apply Rmult_le_compat_r; lra.
Qed.

Lemma normalizeScore_is_a_clamped_interpolation_witness :
  0 < 100 ∧ normalizeScore 100 0 100 = 1.
Proof.
  split; [lra|].
  exact (proj1 (proj2 (proj2 (proj2 (normalizeScore_is_a_clamped_interpolation 0 100))
                         ltac:(lra)))).
Defined.

End UtilsFacts.


(** ** The edit distance as a metric *)

Section LevenshteinMetric.
Context {A : Type} `{EqDecision A}.
Import Levenshtein.

Implicit Types a b c : list A.

Lemma edit_script_sym a b n : edit_script a b n → edit_script b a n.
Proof. induction 1; by constructor. Qed.

Lemma edit_script_refl a : edit_script a a 0.
Proof. induction a; by constructor. Qed.

Lemma edit_script_zero a b n : edit_script a b n → n = 0 → a = b.
Proof.
  induction 1 as [| | |x a b n _ IH|]; intros Hn; try discriminate; [done|].
  by rewrite IH.
Qed.

Lemma edit_script_lengths a b n :
  edit_script a b n → length a ≤ length b + n ∧ length b ≤ length a + n.
Proof. induction 1; cbn [length]; lia. Qed.

(** Two scripts in a row are no better than the best script. *)
Lemma edit_script_trans a b n :
  edit_script a b n →
  ∀ c m, edit_script b c m → ∃ k, k ≤ n + m ∧ edit_script a c k.
Proof.
  induction 1 as [|x a b n _ IH|y a b n _ IH|x a b n _ IH|x y a b n _ IH].
  - intros c m Hc. exists m. split; [lia|done].
  - intros c m Hc. destruct (IH c m Hc) as (k & Hk & Hs).
    exists (S k). split; [lia|]. by constructor.
  - intros c m Hc. remember (y :: b) as yb eqn:Hyb.
    induction Hc as [|y' b' c m Hc _|z b' c m Hc IHc|y' b' c m Hc _|y' z b' c m Hc _];
      try discriminate.
    + injection Hyb as -> ->. destruct (IH c m Hc) as (k & Hk & Hs).
      exists k. split; [lia|done].
    + destruct (IHc Hyb) as (k & Hk & Hs).
      exists (S k). split; [lia|]. by constructor.
    + injection Hyb as -> ->. destruct (IH c m Hc) as (k & Hk & Hs).
      exists (S k). split; [lia|]. by constructor.
    + injection Hyb as -> ->. destruct (IH c m Hc) as (k & Hk & Hs).
      exists (S k). split; [lia|]. by constructor.
  - intros c m Hc. remember (x :: b) as xb eqn:Hxb.
    induction Hc as [|y' b' c m Hc _|z b' c m Hc IHc|y' b' c m Hc _|y' z b' c m Hc _];
      try discriminate.
    + injection Hxb as -> ->. destruct (IH c m Hc) as (k & Hk & Hs).
      exists (S k). split; [lia|]. by constructor.
    + destruct (IHc Hxb) as (k & Hk & Hs).
      exists (S k). split; [lia|]. by constructor.
    + injection Hxb as -> ->. destruct (IH c m Hc) as (k & Hk & Hs).
      exists k. split; [lia|]. by constructor.
    + injection Hxb as -> ->. destruct (IH c m Hc) as (k & Hk & Hs).
      exists (S k). split; [lia|]. by constructor.
  - intros c m Hc. remember (y :: b) as yb eqn:Hyb.
    induction Hc as [|y' b' c m Hc _|z b' c m Hc IHc|y' b' c m Hc _|y' z b' c m Hc _];
      try discriminate.
    + injection Hyb as -> ->. destruct (IH c m Hc) as (k & Hk & Hs).
      exists (S k). split; [lia|]. by constructor.
    + destruct (IHc Hyb) as (k & Hk & Hs).
      exists (S k). split; [lia|]. by constructor.
    + injection Hyb as -> ->. destruct (IH c m Hc) as (k & Hk & Hs).
      exists (S k). split; [lia|]. by apply es_subst.
    + injection Hyb as -> ->. destruct (IH c m Hc) as (k & Hk & Hs).
      exists (S k). split; [lia|]. by apply es_subst.
Qed.

Lemma edit_distance_sym a b : edit_distance a b = edit_distance b a.
Proof.
  apply Nat.le_antisymm; apply edit_distance_least, edit_script_sym,
    edit_distance_script.
Qed.

Lemma edit_distance_triangle a b c :
  edit_distance a c ≤ edit_distance a b + edit_distance b c.
Proof.
  destruct (edit_script_trans a b _ (edit_distance_script a b) c _
              (edit_distance_script b c)) as (k & Hk & Hs).
  apply edit_distance_least in Hs. lia.
Qed.

Lemma edit_distance_zero a b : edit_distance a b = 0 ↔ a = b.
Proof.
  split.
  - intros Hd. eapply edit_script_zero; [apply edit_distance_script|done].
  - intros ->. pose proof (edit_distance_least _ _ _ (edit_script_refl b)). lia.
Qed.

Lemma edit_script_substitute_all a b :
  ∃ k, k ≤ length a `max` length b ∧ edit_script a b k.
Proof.
  revert b. induction a as [|x a IH]; intros b.
  - exists (length b). split; [cbn; lia|]. apply edit_script_insert_all.
  - destruct b as [|y b].
    + exists (length (x :: a)). split; [cbn; lia|]. apply edit_script_delete_all.
    + destruct (IH b) as (k & Hk & Hs). exists (S k). split; [cbn; lia|].
      by apply es_subst.
Qed.

Lemma edit_distance_bounds a b :
  length a - length b ≤ edit_distance a b ∧
  length b - length a ≤ edit_distance a b ∧
  edit_distance a b ≤ length a `max` length b.
Proof.
  pose proof (edit_script_lengths _ _ _ (edit_distance_script a b)).
  destruct (edit_script_substitute_all a b) as (k & Hk & Hs).
  apply edit_distance_least in Hs. lia.
Qed.

Lemma levenshteinDistance_is_zero a b :
  (levenshteinDistance a b = 0 ↔ a = b) ∧ (levenshtein a b = 0 ↔ a = b).
Proof.
  rewrite levenshteinDistance_correct, levenshtein_correct.
  split; apply edit_distance_zero.
Qed.

(** X3.  The distance [levenshteinDistance] of utils.js is a metric on
    strings: it is 0 exactly for equal strings, it is symmetric, and it
    satisfies the triangle inequality. *)
Theorem levenshteinDistance_is_a_metric a b c :
  (levenshteinDistance a b = 0 ↔ a = b) ∧
  levenshteinDistance a b = levenshteinDistance b a ∧
  levenshteinDistance a c ≤ levenshteinDistance a b + levenshteinDistance b c.
Proof.
  rewrite !levenshteinDistance_correct.
  split; [apply edit_distance_zero|].
  split; [apply edit_distance_sym|apply edit_distance_triangle].
Qed.

Lemma normalized_distance_unit a b :
  (0 <= INR (levenshtein a b) / INR ((length a `max` length b) `max` 1) <= 1)%R.
Proof.
  rewrite levenshtein_correct.
  pose proof (edit_distance_bounds a b) as (Hab & Hba & Hmax).
  split.
  - apply Rmult_le_pos; [apply pos_INR|].
    apply Rlt_le, Rinv_0_lt_compat, lt_0_INR. lia.
  - apply (Rmult_le_reg_r (INR ((length a `max` length b) `max` 1))).
    + apply lt_0_INR. lia.
    + unfold Rdiv. rewrite Rmult_assoc, Rinv_l, Rmult_1_r, Rmult_1_l.
      * apply le_INR. lia.
      * apply not_0_INR. lia.
Qed.

(** X4.  The distance the service worker's [levenshtein] returns is at
    least the difference of the two lengths and at most the greater length,
    so that [distance / Math.max(a.length, b.length, 1)], the normalized
    distance of [computeTyposquat], lies between 0 and 1. *)
Theorem levenshtein_between_length_bounds a b :
  length a - length b ≤ levenshtein a b ∧
  length b - length a ≤ levenshtein a b ∧
  levenshtein a b ≤ length a `max` length b ∧
  (0 <= INR (levenshtein a b) / INR ((length a `max` length b) `max` 1) <= 1)%R.
Proof.
  pose proof (normalized_distance_unit a b) as Hnorm.
  rewrite !levenshtein_correct in *.
  pose proof (edit_distance_bounds a b) as (Hab & Hba & Hmax).
  repeat split; try done; apply Hnorm.
Qed.

End LevenshteinMetric.


(** ** The state of the service worker *)

Section FeedbackFacts.
Import Js ServiceWorker.
Context {F : Type}.

Implicit Types queue : list (QueuedFeedback F).

Lemma slice_last_length {X : Type} (n : nat) (xs : list X) :
  length (slice_last n xs) = length xs `min` n.
Proof. unfold slice_last. rewrite length_drop. lia. Qed.

Lemma slice_last_snoc {X : Type} (n : nat) (xs : list X) (x : X) :
  slice_last (S n) (slice_last (S n) xs ++ [x]) = slice_last (S n) (xs ++ [x]).
Proof.
  unfold slice_last. rewrite !length_app, length_drop. cbn [length].
  destruct (decide (length xs ≤ S n)) as [Hshort|Hlong].
  - replace (length xs - S n) with 0 by lia. rewrite drop_0, Nat.sub_0_r. reflexivity.
  - replace (length xs - (length xs - S n) + 1 - S n) with 1 by lia.
    rewrite !drop_app_le by (rewrite ?length_drop; lia).
    f_equal. rewrite drop_drop. f_equal. lia.
Qed.

Lemma feedbackSession_snoc (messages : list (F * Z)) (message : F * Z) :
  feedbackSession (messages ++ [message]) =
  Some (handleFeedback (feedbackSession messages) message.1 message.2).1.
Proof. unfold feedbackSession. by rewrite foldl_snoc. Qed.

(** X5.  [handleFeedback] never stores more than 100 entries and answers
    with the number it stored; over a session that starts with no stored
    queue and whose messages are handled one after the other, the queue is
    always the newest 100 messages, oldest first, each with the time it was
    handled. *)
Theorem feedback_queue_keeps_the_newest_100 :
  (∀ (stored : option (list (QueuedFeedback F))) fb now,
     let '(trimmed, queued) := handleFeedback stored fb now in
     queued = length trimmed ∧
     length trimmed = (length (default [] stored) + 1) `min` 100 ∧
     last trimmed = Some {| feedback := fb; queuedAt := now |}) ∧
  (∀ messages : list (F * Z),
     default [] (feedbackSession messages) =
     slice_last 100 ((λ m, {| feedback := m.1; queuedAt := m.2 |}) <$> messages)).
Proof.
  split.
  - intros stored fb now. unfold handleFeedback. cbv zeta.
    split; [done|]. split.
    + rewrite slice_last_length, length_app. cbn [length]. lia.
    + unfold slice_last. rewrite length_app. cbn [length].
      rewrite drop_app_le by lia. apply last_snoc.
  - induction messages as [|message messages IH] using rev_ind; [done|].
    rewrite feedbackSession_snoc, fmap_app. cbn [fmap list_fmap default].
    unfold handleFeedback. cbv zeta. cbn [fst Datatypes.id].
    rewrite IH. apply slice_last_snoc.
Qed.

End FeedbackFacts.

Section TabFacts.
Import Js ServiceWorker.
Context {P : Type} (riskLevel : P → option Level).

Implicit Types tabs : Tabs P.

Lemma handleDetectionResult_coherent message tabId now tabs :
  tabAssessments tabs ⊆ stored tabs →
  tabAssessments (handleDetectionResult riskLevel message tabId now tabs)
    ⊆ stored (handleDetectionResult riskLevel message tabId now tabs).
Proof.
  intros Hsub. unfold handleDetectionResult.
  destruct tabId as [tabId|], message as [body|]; try done.
  case_decide; [done|]. cbn. by apply insert_mono.
Qed.

Lemma getAssessmentForTab_coherent tabId tabs :
  tabAssessments tabs ⊆ stored tabs →
  tabAssessments (getAssessmentForTab tabId tabs).2
    ⊆ stored (getAssessmentForTab tabId tabs).2.
Proof.
  intros Hsub. unfold getAssessmentForTab.
  destruct tabId as [tabId|]; [|done].
  case_decide; [done|].
  destruct (tabAssessments tabs !! tabId) as [a|] eqn:Hmap; [done|].
  destruct (stored tabs !! tabId) as [a|] eqn:Hstored; [|done].
  cbn. by apply insert_subseteq_l.
Qed.

Lemma tabStep_coherent tabs event :
  tabAssessments tabs ⊆ stored tabs →
  tabAssessments (tabStep riskLevel tabs event)
    ⊆ stored (tabStep riskLevel tabs event).
Proof.
  intros Hsub. destruct event as [message tabId now|tabId|tabId|tabId];
    cbn [tabStep].
  - by apply handleDetectionResult_coherent.
  - by apply getAssessmentForTab_coherent.
  - cbn. by apply delete_mono.
  - unfold onActivated.
    pose proof (getAssessmentForTab_coherent (Some tabId) tabs Hsub) as Hget.
    destruct (getAssessmentForTab (Some tabId) tabs) as [assessment tabs'].
    exact Hget.
Qed.

Lemma getAssessmentForTab_stored tabId tabs :
  tabAssessments tabs ⊆ stored tabs → tabId ≠ 0%Z →
  (getAssessmentForTab (Some tabId) tabs).1 = stored tabs !! tabId.
Proof.
  intros Hsub Htab. unfold getAssessmentForTab.
  rewrite decide_False by done.
  destruct (tabAssessments tabs !! tabId) as [a|] eqn:Hmap.
  - cbn. symmetry. by eapply lookup_weaken.
  - by destruct (stored tabs !! tabId).
Qed.

(** X6.  Whatever the service worker is asked to do with its tabs, when
    each handler has run to its end before the next event is handled, the
    in-memory map of assessments holds nothing the storage does not hold, so
    [getAssessmentForTab] answers with what is stored for the tab; a
    detection result is found again under its tab with the time it came in,
    and after the tab is removed nothing is found. *)
Theorem tab_assessments_follow_the_storage
    (storage : gmap Z (Enriched P)) (events : list (TabEvent P)) :
  let tabs := foldl (tabStep riskLevel) (startTabs storage) events in
  tabAssessments tabs ⊆ stored tabs ∧
  (∀ tabId, tabId ≠ 0%Z →
     (getAssessmentForTab (Some tabId) tabs).1 = stored tabs !! tabId) ∧
  (∀ body tabId now, tabId ≠ 0%Z →
     (getAssessmentForTab (Some tabId)
        (handleDetectionResult riskLevel (Some body) (Some tabId) now tabs)).1
     = Some {| payload := body; enriched_tabId := tabId; lastUpdated := now |}) ∧
  (∀ tabId, (getAssessmentForTab (Some tabId) (onRemoved tabId tabs)).1 = None).
Proof.
  cbv zeta.
  assert (tabAssessments (foldl (tabStep riskLevel) (startTabs storage) events)
          ⊆ stored (foldl (tabStep riskLevel) (startTabs storage) events)) as Hsub.
  { induction events as [|event events IH] using rev_ind.
    - cbn. apply map_empty_subseteq.
    - rewrite foldl_snoc. by apply tabStep_coherent. }
  split; [exact Hsub|]. split; [|split].
  - intros tabId Htab. by apply getAssessmentForTab_stored.
  - intros body tabId now Htab.
    rewrite getAssessmentForTab_stored; [| |done].
    + unfold handleDetectionResult. rewrite decide_False by done. cbn.
      apply lookup_insert_eq.
    + by apply handleDetectionResult_coherent.
  - intros tabId. unfold getAssessmentForTab, onRemoved. cbn.
    case_decide; [done|]. by rewrite !lookup_delete_eq.
Qed.

End TabFacts.


(** ** The local signals of the service worker *)

Section LocalSignalFacts.
Import Js ServiceWorker.
Open Scope R_scope.

Lemma foldl_Rmin_zero {X : Type} (f : X → R) (xs : list X) (best : R) :
  0 <= best → Forall (λ x, 0 <= f x) xs →
  (foldl (λ best x, Rmin best (f x)) best xs = 0 ↔
   best = 0 ∨ Exists (λ x, f x = 0) xs).
Proof.
  revert best. induction xs as [|x xs IH]; intros best Hbest Hpos.
  - cbn. rewrite Exists_nil. tauto.
  - apply Forall_cons in Hpos as [Hx Hxs]. cbn [foldl].
    rewrite IH; [|apply Rmin_glb; lra|done].
    rewrite Exists_cons. split.
    + intros [Hmin|Hex]; [|tauto].
      destruct (Rle_dec best (f x)).
      * rewrite Rmin_left in Hmin by done. tauto.
      * rewrite Rmin_right in Hmin by lra. tauto.
    + intros [->|[Hfx|Hex]]; [| |tauto].
      * left. rewrite Rmin_left; lra.
      * left. rewrite Hfx. rewrite Rmin_right; lra.
Qed.

Lemma normalized_distance_zero (name ref : list N) :
  INR (Levenshtein.levenshtein name ref)
    / INR ((length name `max` length ref) `max` 1) = 0 ↔ name = ref.
Proof.
  assert (0 < INR ((length name `max` length ref) `max` 1)) as Hpos.
  { apply lt_0_INR. lia. }
  rewrite levenshtein_correct. rewrite <- edit_distance_zero. split.
  - intros Hq. apply INR_eq. cbn [INR].
    apply (Rmult_eq_reg_r (/ INR ((length name `max` length ref) `max` 1))).
    + unfold Rdiv in Hq. lra.
    + apply Rinv_neq_0_compat. lra.
  - intros ->. cbn [INR]. unfold Rdiv. lra.
Qed.

(** X7.  [computeTyposquat] returns 1, the highest likelihood, exactly
    when the first label of the domain is one of the eight reference names;
    such a domain is then scored at least 35 by [scoreDomainRisk], whatever
    the feeds say. *)
Theorem computeTyposquat_is_1_on_reference_names (domain : list N) :
  (computeTyposquat domain = 1 ↔ hd [] (split_on 46 domain) ∈ referenceDomains) ∧
  (hd [] (split_on 46 domain) ∈ referenceDomains →
   ∀ remote score,
     scoreDomainRisk (buildLocalSignals domain) (Some remote) = Returned score →
     35 <= score).
Proof.
  assert (computeTyposquat domain = 1 ↔
          hd [] (split_on 46 domain) ∈ referenceDomains) as Hone.
  { unfold computeTyposquat. cbv zeta. fold referenceDomains.
    set (name := hd [] (split_on 46 domain)).
    set (f := λ ref : list N,
           INR (Levenshtein.levenshtein name ref)
           / INR ((length name `max` length ref) `max` 1)).
    change (1 - foldl (λ best ref, Rmin best (f ref)) 1 referenceDomains = 1 ↔
            name ∈ referenceDomains).
    assert (Forall (λ ref, 0 <= f ref) referenceDomains) as Hpos.
    { apply Forall_forall. intros ref _. unfold f.
      apply (normalized_distance_unit name ref). }
    pose proof (foldl_Rmin_zero f referenceDomains 1 ltac:(lra) Hpos) as Hfold.
    split.
    - intros Hone. assert (foldl (λ best ref, Rmin best (f ref)) 1 referenceDomains = 0)
        as Hzero by lra.
      apply Hfold in Hzero as [?|Hex]; [lra|].
      apply Exists_exists in Hex as (ref & Hin & Hf).
      apply normalized_distance_zero in Hf. by subst.
    - intros Hin.
      assert (foldl (λ best ref, Rmin best (f ref)) 1 referenceDomains = 0) as ->;
        [|lra].
      apply Hfold. right. apply Exists_exists. exists name. split; [done|].
      by apply normalized_distance_zero. }
  split; [exact Hone|].
  intros Hin remote score. rewrite scoreDomainRisk_present. intros [= <-].
  unfold localContribution. cbn [buildLocalSignals typosquatLikelihood].
  apply Hone in Hin. rewrite Hin. rewrite decide_True by lra.
  apply Rmin_glb; [|lra].
  repeat match goal with |- context [if ?c then _ else _] => destruct c end; lra.
Qed.

Lemma computeTyposquat_is_1_on_reference_names_witness :
  hd [] (split_on 46 (lit "google.com")) ∈ referenceDomains ∧
  computeTyposquat (lit "google.com") = 1.
Proof.
  assert (hd [] (split_on 46 (lit "google.com")) ∈ referenceDomains) as Hname.
  { apply list_elem_of_In. vm_compute. tauto. }
  split; [exact Hname|].
  exact (proj2 (proj1 (computeTyposquat_is_1_on_reference_names (lit "google.com")))
           Hname).
Defined.

End LocalSignalFacts.


(** ** The entropy of a domain name *)

Section DedupeFacts.
Import Js.
Context {A : Type} `{EqDecision A}.

Implicit Types xs ks : list A.

Lemma elem_of_dedupe x xs : x ∈ dedupe xs ↔ x ∈ xs.
Proof.
  induction xs as [|y xs IH]; [done|].
  cbn [dedupe]. rewrite !elem_of_cons, list_elem_of_filter, IH.
  destruct (decide (x = y)); tauto.
Qed.

Lemma NoDup_dedupe xs : NoDup (dedupe xs).
Proof.
  induction xs as [|y xs IH]; [constructor|].
  cbn [dedupe]. constructor; [|by apply NoDup_filter].
  rewrite list_elem_of_filter. tauto.
Qed.

Lemma length_dedupe xs : length (dedupe xs) ≤ length xs.
Proof.
  induction xs as [|y xs IH]; [done|].
  cbn [dedupe length].
  pose proof (length_filter (λ z, z ≠ y) (dedupe xs)). lia.
Qed.

(** The occurrences of the elements of a duplicate-free list add up to the
    number of elements that are in the list. *)
Lemma occurrences_add_up ks xs :
  NoDup ks →
  foldr (λ k acc, length (filter (λ v, v = k) xs) + acc) 0 ks =
  length (filter (λ v, v ∈ ks) xs).
Proof.
  induction 1 as [|k ks Hk _ IH].
  - cbn [foldr]. induction xs as [|x xs IHxs]; [done|].
    rewrite filter_cons_False; [done|]. apply not_elem_of_nil.
  - cbn [foldr]. rewrite IH. clear IH.
    induction xs as [|x xs IHxs]; [done|].
    rewrite !filter_cons.
    destruct (decide (x = k)) as [Heq|Hne], (decide (x ∈ ks)) as [Hin|Hout],
      (decide (x ∈ k :: ks)) as [Hin'|Hout']; cbn [length]; try lia; exfalso;
      rewrite elem_of_cons in *; subst; tauto.
Qed.

Lemma filter_all (P : A → Prop) `{∀ x, Decision (P x)} xs :
  Forall P xs → filter P xs = xs.
Proof.
  induction 1 as [|x xs Hx _ IH]; [done|].
  rewrite filter_cons_True by done. by rewrite IH.
Qed.

Lemma occurrences_of_dedupe xs :
  foldr (λ k acc, length (filter (λ v, v = k) xs) + acc) 0 (dedupe xs) = length xs.
Proof.
  rewrite occurrences_add_up by apply NoDup_dedupe. f_equal.
  apply filter_all, Forall_forall. intros v Hv. by apply elem_of_dedupe.
Qed.

End DedupeFacts.

Section EntropyFacts.
Import Js ServiceWorker.
Open Scope R_scope.

Lemma ln_le_minus_1 (y : R) : 0 < y → ln y <= y - 1.
Proof.
  intros Hy. destruct (Rle_dec (ln y) (y - 1)) as [|Hgt]; [done|].
  exfalso. apply Rnot_le_lt in Hgt. apply exp_increasing in Hgt.
  rewrite exp_ln in Hgt by done.
  pose proof (exp_ineq1_le (y - 1)). lra.
Qed.

Lemma ln_le_compat (x y : R) : 0 < x → x <= y → ln x <= ln y.
Proof.
  intros Hx [Hlt| ->]; [|lra]. left. by apply ln_increasing.
Qed.

Lemma ln_2_pos : 0 < ln 2.
Proof. pose proof ln_lt_2. lra. Qed.

(** One term of Gibbs' inequality. *)
Lemma entropy_term (p K : R) :
  0 < p → 0 < K → - (p * ln p) <= p * ln K + / K - p.
Proof.
  intros Hp HK.
  assert (0 < / (K * p)) as Hinv by (apply Rinv_0_lt_compat, Rmult_lt_0_compat; lra).
  pose proof (ln_le_minus_1 (/ (K * p)) Hinv) as Hln.
  rewrite ln_Rinv in Hln by (apply Rmult_lt_0_compat; lra).
  rewrite ln_mult in Hln by lra.
  assert (p * / (K * p) = / K) as Hcancel by (field; lra).
  assert (p * (- (ln K + ln p)) <= p * (/ (K * p) - 1)) as Hmul.
  { apply Rmult_le_compat_l; lra. }
  rewrite Rmult_minus_distr_l, Hcancel in Hmul. lra.
Qed.

(** The loop of [domainEntropy] computes minus the sum of [p * log2 p]. *)
Lemma entropy_fold (len : R) (counts : list nat) (entropy : R) :
  foldl (λ entropy count,
      let p := INR count / len in entropy - p * log2 p) entropy counts
  = entropy
    + foldr (λ count acc, - (INR count / len * ln (INR count / len)) + acc) 0 counts
      / ln 2.
Proof.
  pose proof ln_2_pos.
  revert entropy. induction counts as [|count counts IH]; intros entropy.
  - cbn. lra.
  - cbn [foldl foldr]. rewrite IH. cbv zeta. unfold log2, Rdiv. ring.
Qed.

Lemma gibbs (len K : R) (counts : list nat) :
  0 < len → 0 < K → Forall (λ count, 0 < count)%nat counts →
  foldr (λ count acc, - (INR count / len * ln (INR count / len)) + acc) 0 counts
  <= ln K * (foldr (λ count acc, INR count + acc) 0 counts / len)
     + INR (length counts) / K
     - foldr (λ count acc, INR count + acc) 0 counts / len.
Proof.
  intros Hlen HK. induction 1 as [|count counts Hcount _ IH].
  - cbn. lra.
  - cbn [foldr length]. rewrite S_INR.
    assert (0 < INR count / len) as Hp.
    { apply Rdiv_lt_0_compat; [|done]. by apply lt_0_INR. }
    pose proof (entropy_term (INR count / len) K Hp HK). 
    unfold Rdiv in *. lra.
Qed.

Lemma entropy_nonneg (len : R) (counts : list nat) :
  0 < len → Forall (λ count, 0 < INR count <= len) counts →
  0 <= foldr (λ count acc, - (INR count / len * ln (INR count / len)) + acc) 0 counts.
Proof.
  intros Hlen. induction 1 as [|count counts [Hpos Hle] _ IH]; [cbn; lra|].
  cbn [foldr].
  assert (0 < INR count / len) as Hp by (by apply Rdiv_lt_0_compat).
  assert (INR count / len <= 1) as Hp1.
  { apply (Rmult_le_reg_r len); [done|]. unfold Rdiv.
    rewrite Rmult_assoc, Rinv_l by lra. lra. }
  pose proof (ln_le_compat _ _ Hp Hp1) as Hln. rewrite ln_1 in Hln.
  assert (0 <= INR count / len * - ln (INR count / len)).
  { apply Rmult_le_pos; lra. }
  lra.
Qed.

Lemma INR_occurrences (counts : list nat) :
  foldr (λ count acc, INR count + acc) 0 counts
  = INR (foldr (λ count acc, (count + acc)%nat) 0%nat counts).
Proof.
  induction counts as [|count counts IH]; [done|].
  cbn [foldr]. by rewrite plus_INR, IH.
Qed.

Lemma char_counts_sum (s : list N) :
  foldr (λ count acc, (count + acc)%nat) 0%nat (char_counts s) = length s.
Proof.
  unfold char_counts. rewrite foldr_fmap. apply occurrences_of_dedupe.
Qed.

Lemma char_counts_range (s : list N) :
  Forall (λ count, 0 < count ≤ length s)%nat (char_counts s).
Proof.
  unfold char_counts. apply Forall_fmap, Forall_forall. intros u Hu. cbn.
  split; [|apply length_filter].
  rewrite elem_of_dedupe in Hu.
  destruct (filter (λ v, v = u) s) as [|v vs] eqn:Hfilter; [|cbn; lia].
  exfalso. assert (u ∈ filter (λ v, v = u) s) as Hin
    by (apply list_elem_of_filter; split; [reflexivity|exact Hu]).
  rewrite Hfilter in Hin. by apply not_elem_of_nil in Hin.
Qed.

(** The entropy before rounding: between 0 and the binary logarithm of the
    number of distinct code units. *)
Lemma raw_entropy_bounds (domain : list N) :
  domain ≠ [] →
  let len := INR (length domain) in
  let entropy :=
    foldl (λ entropy count,
      let p := INR count / len in entropy - p * log2 p) 0 (char_counts domain) in
  0 <= entropy <= log2 (INR (length (dedupe domain))).
Proof.
  intros Hne. cbv zeta. rewrite entropy_fold, Rplus_0_l.
  pose proof ln_2_pos as Hln2.
  assert (0 < length domain)%nat as Hlen by (destruct domain; [done|cbn; lia]).
  assert (0 < INR (length domain)) as HlenR by (by apply lt_0_INR).
  pose proof (char_counts_range domain) as Hrange.
  assert (length (char_counts domain) = length (dedupe domain)) as Hk
    by (unfold char_counts; by rewrite length_fmap).
  assert (0 < length (dedupe domain))%nat as Hdistinct.
  { destruct domain as [|u domain]; [done|]. cbn. lia. }
  assert (0 < INR (length (dedupe domain))) as HdistinctR by (by apply lt_0_INR).
  split.
  - apply Rmult_le_pos; [|apply Rlt_le, Rinv_0_lt_compat; lra].
    apply entropy_nonneg; [done|].
    eapply Forall_impl; [exact Hrange|]. cbn. intros count [Hpos Hle].
    split; [by apply lt_0_INR|by apply le_INR].
  - unfold log2. apply Rmult_le_compat_r; [apply Rlt_le, Rinv_0_lt_compat; lra|].
    etrans.
    { apply (gibbs _ (INR (length (dedupe domain)))); [done|by apply lt_0_INR|].
      eapply Forall_impl; [exact Hrange|]. cbn. intros count [Hpos _]. done. }
    rewrite INR_occurrences, char_counts_sum, Hk.
    unfold Rdiv. rewrite !Rinv_r by lra. lra.
Qed.

(** X8.  The entropy [domainEntropy] reports is never negative and never
    more than the binary logarithm of the number of distinct characters: a
    name with at most [2^n] distinct characters has an entropy of at most
    [n].  So a domain with at most 16 distinct characters never passes the
    test [entropy > 4] of [scoreDomainRisk]. *)
Theorem domainEntropy_bounded_by_distinct_characters (domain : list N) :
  0 <= domainEntropy domain ∧
  (∀ n : nat, (length (dedupe domain) ≤ 2 ^ n)%nat → domainEntropy domain <= INR n) ∧
  ((length (dedupe domain) ≤ 16)%nat →
   ∀ remote score,
     scoreDomainRisk (buildLocalSignals domain) (Some remote) = Returned score →
     score <= (if decide (computeTyposquat domain > 0.6) then 35 else 0)
              + (if startsWith domain (lit "xn--") then 25 else 0)
              + (if vt_flagged (vtResult remote) then 30 else 0)
              + (if gsb_flagged (gsbResult remote) then 30 else 0)).
Proof.
  assert (0 <= domainEntropy domain ∧
          ∀ n : nat, (length (dedupe domain) ≤ 2 ^ n)%nat →
                     domainEntropy domain <= INR n) as [Hpos Hbound].
  { destruct (decide (domain = [])) as [->|Hne].
    - unfold domainEntropy. cbn [char_counts dedupe fmap list_fmap foldl length].
      pose proof (toFixed_bounds 2 0 0 ltac:(lra)) as H0. cbn in H0.
      split; [lra|]. intros n _. pose proof (pos_INR n). cbn. lra.
    - pose proof (raw_entropy_bounds domain Hne) as Hraw. cbv zeta in Hraw.
      unfold domainEntropy.
      assert (match length domain with
              | 0%nat => 1%nat
              | S n => S n
              end = length domain) as -> by (destruct domain; done).
      set (entropy := foldl _ 0 (char_counts domain)) in *.
      split.
      + assert (IZR 0 / 10 ^ 2 <= toFixed 2 entropy) as H0.
        { apply toFixed_ge; [lra|]. pose proof (pow_10_pos 2). nra. }
        unfold Rdiv in H0. by rewrite Rmult_0_l in H0.
      + intros n Hn.
        assert (log2 (INR (length (dedupe domain))) <= INR n) as Hlog.
        { pose proof ln_2_pos as Hln2. unfold log2.
          apply (Rmult_le_reg_r (ln 2)); [done|].
          unfold Rdiv. rewrite Rmult_assoc, Rinv_l, Rmult_1_r by lra.
          rewrite <- ln_pow by lra.
          apply ln_le_compat.
          - apply lt_0_INR. destruct domain; [done|cbn; lia].
          - replace 2 with (INR 2) by (cbn; lra). rewrite <- pow_INR.
            by apply le_INR. }
        rewrite INR_IZR_INZ.
        apply (toFixed_bounds 2 entropy (Z.of_nat n)).
        rewrite <- INR_IZR_INZ. lra. }
  split; [exact Hpos|]. split; [exact Hbound|].
  intros Hshort remote score. rewrite scoreDomainRisk_present. intros [= <-].
  pose proof (Hbound 4%nat Hshort) as H4.
  replace (INR 4) with 4 in H4 by (cbn; lra).
  etrans; [apply Rmin_l|].
  unfold localContribution. cbn [buildLocalSignals typosquatLikelihood entropy isPunycode].
  rewrite (decide_False (P := domainEntropy domain > 4)) by lra. lra.
Qed.

Lemma domainEntropy_bounded_by_distinct_characters_witness :
  (length (dedupe (lit "aabb")) ≤ 2 ^ 1)%nat ∧ domainEntropy (lit "aabb") <= INR 1.
Proof.
  assert (length (dedupe (lit "aabb")) ≤ 2 ^ 1)%nat as H by (vm_compute; lia).
  split; [exact H|].
  exact (proj1 (proj2 (domainEntropy_bounded_by_distinct_characters (lit "aabb"))) 1%nat H).
Defined.

End EntropyFacts.


(** ** The typosquat analysis of the content script *)

Section SingleSubstitution.
Context {A : Type} `{EqDecision A}.
Import Levenshtein.

Implicit Types a b : list A.

(** Two different strings of one length that are one edit apart differ in
    exactly one position. *)
Lemma single_substitution a b n :
  edit_script a b n → n = 1 → length a = length b → a ≠ b →
  ∃ pre x y post, a = pre ++ x :: post ∧ b = pre ++ y :: post ∧ x ≠ y.
Proof.
  induction 1 as [|x a b n Hs _|y a b n Hs _|x a b n Hs IH|x y a b n Hs _];
    intros Hn Hlen Hne.
  - discriminate.
  - injection Hn as ->. apply edit_script_lengths in Hs. cbn in Hlen. lia.
  - injection Hn as ->. apply edit_script_lengths in Hs. cbn in Hlen. lia.
  - destruct IH as (pre & u & v & post & -> & -> & Huv); [done|by injection Hlen|..].
    + intros ->. done.
    + exists (x :: pre), u, v, post. done.
  - injection Hn as ->. apply edit_script_zero in Hs as ->; [|done].
    exists [], x, y, b. repeat split. intros ->. done.
Qed.

Lemma lookup_away_from_substitution (pre post : list A) (x y : A) (j : nat) :
  j ≠ length pre → (pre ++ x :: post) !! j = (pre ++ y :: post) !! j.
Proof.
  intros Hj. destruct (decide (j < length pre)) as [Hlt|Hge].
  - by rewrite !lookup_app_l.
  - rewrite !lookup_app_r by lia.
    destruct (j - length pre) as [|k] eqn:Hk; [lia|done].
Qed.

Lemma lookup_at_substitution (pre post : list A) (x : A) :
  (pre ++ x :: post) !! length pre = Some x.
Proof. by rewrite list_lookup_middle. Qed.

End SingleSubstitution.

Section TyposquatFacts.
Import Js DomainReputation.
Open Scope R_scope.

Lemma identifyTyposquatTechnique_transposition (squat target : list N) :
  identifyTyposquatTechnique squat target = "transposition"%string →
  length squat = length target ∧
  ∃ i, (i + 1 < length target)%nat ∧
       squat !! i = target !! (i + 1)%nat ∧ squat !! (i + 1)%nat = target !! i.
Proof.
  unfold identifyTyposquatTechnique.
  repeat case_decide; try discriminate.
  destruct (existsb _ _) eqn:Hex; [|discriminate]. intros _.
  split; [done|].
  apply existsb_exists in Hex as (i & Hi & Htest).
  apply in_seq in Hi. apply andb_true_iff in Htest as [Hfst Hsnd].
  apply bool_decide_eq_true in Hfst, Hsnd.
  exists i. split; [lia|done].
Qed.

(** X9.  When [identifyTyposquatTechnique] is called as
    [advancedTyposquatAnalysis] calls it, on two strings at edit distance 1,
    it never answers "unknown"; it answers "insertion" or "omission" exactly
    when the squat is one character longer or shorter; and when it answers
    "transposition" no two characters are swapped: the squat and the target
    agree on the two positions, which hold the same character twice. *)
Theorem identifyTyposquatTechnique_at_distance_1 (squat target : list N) :
  Levenshtein.levenshteinDistance squat target = 1%nat →
  identifyTyposquatTechnique squat target ≠ "unknown"%string ∧
  (identifyTyposquatTechnique squat target = "insertion"%string ↔
   length squat = (length target + 1)%nat) ∧
  (identifyTyposquatTechnique squat target = "omission"%string ↔
   (length squat + 1)%nat = length target) ∧
  (identifyTyposquatTechnique squat target = "transposition"%string →
   ∃ i, (i + 1 < length target)%nat ∧
        squat !! i = target !! i ∧
        squat !! (i + 1)%nat = target !! (i + 1)%nat ∧
        target !! i = target !! (i + 1)%nat).
Proof.
  intros Hd. rewrite levenshteinDistance_correct in Hd.
  pose proof (edit_distance_bounds squat target) as (Hlo & Hhi & _).
  rewrite Hd in Hlo, Hhi.
  split; [|split; [|split]].
  - unfold identifyTyposquatTechnique. repeat case_decide; try discriminate.
    + destruct (existsb _ _); discriminate.
    + lia.
  - unfold identifyTyposquatTechnique. repeat case_decide; split; try done; try lia.
    all: destruct (existsb _ _); discriminate.
  - unfold identifyTyposquatTechnique. repeat case_decide; split; try done; try lia.
    all: destruct (existsb _ _); discriminate.
  - intros Htech.
    apply identifyTyposquatTechnique_transposition in Htech
      as (Hlen & i & Hi & H1 & H2).
    assert (squat ≠ target) as Hne.
    { intros ->. pose proof (proj2 (edit_distance_zero target target) eq_refl). lia. }
    pose proof (edit_distance_script squat target) as Hs.
    rewrite Hd in Hs.
    destruct (single_substitution _ _ _ Hs eq_refl Hlen Hne)
      as (pre & x & y & post & -> & -> & Hxy).
    assert (i ≠ length pre) as Hi1.
    { intros ->. rewrite lookup_at_substitution in H1, H2.
      rewrite (lookup_away_from_substitution pre post x y) in H2 by lia.
      congruence. }
    assert ((i + 1)%nat ≠ length pre) as Hi2.
    { intros Hp. rewrite Hp in H1, H2. rewrite lookup_at_substitution in H1, H2.
      rewrite (lookup_away_from_substitution pre post x y i) in H1 by lia.
      congruence. }
    exists i. split; [done|].
    rewrite (lookup_away_from_substitution pre post x y i) in * by done.
    rewrite (lookup_away_from_substitution pre post x y (i + 1)) in * by done.
    repeat split; done.
Qed.

Lemma identifyTyposquatTechnique_at_distance_1_witness :
  Levenshtein.levenshteinDistance (lit "googlr") (lit "google") = 1%nat ∧
  identifyTyposquatTechnique (lit "googlr") (lit "google") = "transposition"%string ∧
  identifyTyposquatTechnique (lit "googlr") (lit "google") ≠ "unknown"%string.
Proof.
  assert (Levenshtein.levenshteinDistance (lit "googlr") (lit "google") = 1%nat) as H
    by (vm_compute; reflexivity).
  split; [exact H|]. split; [vm_compute; reflexivity|].
  exact (proj1 (identifyTyposquatTechnique_at_distance_1 _ _ H)).
Defined.

End TyposquatFacts.


Section TyposquatFlagFacts.
Import Js DomainReputation.
Open Scope R_scope.

Lemma replace_all_absent (c r : N) (s : list N) :
  c ∉ s → replace_all c r s = s.
Proof.
  unfold replace_all. induction s as [|u s IH]; [done|].
  intros Hc. apply not_elem_of_cons in Hc as [Hne Hs].
  cbn [fmap list_fmap]. rewrite <- IH at 2 by done. f_equal.
  unfold unit_eqb. destruct (N.eqb_spec u c); [by subst|done].
Qed.

Lemma length_replace_all (c r : N) (s : list N) :
  length (replace_all c r s) = length s.
Proof. unfold replace_all. by rewrite length_fmap. Qed.

(** X10.  [checkCharacterSubstitution] only accepts a squat of the
    target's length, and it accepts a string as a look-alike of itself as
    soon as one of the nine characters of its table ('0', 'l', 'i', 'o',
    's', 'a', 'e', 'g', 'b') does not occur in it: replacing a character
    that is absent leaves the target as it is. *)
Theorem checkCharacterSubstitution_accepts_the_target_itself :
  (∀ squat target : list N,
     checkCharacterSubstitution squat target = true → length squat = length target) ∧
  (∀ (s : list N) (key : N),
     key ∈ (λ entry : string * list string, unit_of entry.1) <$> substitutions →
     key ∉ s → checkCharacterSubstitution s s = true).
Proof.
  split.
  - intros squat target Hcheck. unfold checkCharacterSubstitution in Hcheck.
    apply existsb_exists in Hcheck as ([original replacements] & _ & Hinner).
    apply existsb_exists in Hinner as (replacement & _ & Heq).
    apply bool_decide_eq_true in Heq. rewrite Heq. apply length_replace_all.
  - intros s key Hkey Habsent.
    apply list_elem_of_fmap in Hkey as ([original replacements] & -> & Hentry).
    unfold checkCharacterSubstitution. apply existsb_exists.
    exists (original, replacements). split; [by apply list_elem_of_In|].
    assert (∃ replacement, In replacement replacements) as [replacement Hin].
    { unfold substitutions in Hentry.
      repeat (apply elem_of_cons in Hentry as [[= -> ->]|Hentry];
              [eexists; left; reflexivity|]).
      by apply not_elem_of_nil in Hentry. }
    apply existsb_exists. exists replacement. split; [done|].
    apply bool_decide_eq_true. symmetry. by apply replace_all_absent.
Qed.

Lemma checkCharacterSubstitution_accepts_the_target_itself_witness :
  (48%N ∉ lit "paypal") ∧
  checkCharacterSubstitution (lit "paypal") (lit "paypal") = true.
Proof.
  assert (48%N ∉ lit "paypal") as Habsent.
  { apply (bool_decide_unpack _). vm_compute. exact I. }
  split; [exact Habsent|].
  apply (proj2 checkCharacterSubstitution_accepts_the_target_itself (lit "paypal") 48%N);
    [|exact Habsent].
  apply list_elem_of_In. vm_compute. tauto.
Defined.

(** The three tests of an iteration, and what it does to the flag, the
    distance and the likely target. *)
Lemma typosquatStep_fields (baseDomain : list N) (results : Typosquat.t) (target : list N) :
  let closer :=
    bool_decide (Levenshtein.levenshteinDistance baseDomain target ≤ 2)%nat &&
    match Typosquat.distance results with
    | None => true
    | Some d => bool_decide (Levenshtein.levenshteinDistance baseDomain target < d)%nat
    end in
  let lookalike := checkCharacterSubstitution baseDomain target in
  let combo := includes baseDomain target && negb (str_eqb baseDomain target) in
  let next := typosquatStep baseDomain results target in
  Typosquat.isTyposquat next
    = closer || lookalike || combo || Typosquat.isTyposquat results ∧
  Typosquat.distance next
    = (if closer then Some (Levenshtein.levenshteinDistance baseDomain target)
       else Typosquat.distance results) ∧
  Typosquat.likelyTarget next
    = (if closer || lookalike || combo then Some target
       else Typosquat.likelyTarget results).
Proof.
  cbv zeta. unfold typosquatStep. cbv zeta.
  destruct (bool_decide _ && _), (checkCharacterSubstitution baseDomain target),
    (includes baseDomain target && negb (str_eqb baseDomain target));
    cbn; repeat split; by destruct (Typosquat.isTyposquat results).
Qed.

Lemma typosquatStep_flag (baseDomain : list N) (results : Typosquat.t) (target : list N) :
  (is_Some (Typosquat.distance results) → Typosquat.isTyposquat results = true) →
  let next := typosquatStep baseDomain results target in
  (Typosquat.isTyposquat next = true ↔
   Typosquat.isTyposquat results = true ∨
   (Levenshtein.levenshteinDistance baseDomain target ≤ 2)%nat ∨
   checkCharacterSubstitution baseDomain target = true ∨
   (includes baseDomain target = true ∧ baseDomain ≠ target)) ∧
  (is_Some (Typosquat.distance next) → Typosquat.isTyposquat next = true) ∧
  (Typosquat.isTyposquat next = true → Typosquat.isTyposquat results = false →
   Typosquat.likelyTarget next = Some target) ∧
  (Typosquat.isTyposquat results = true →
   Typosquat.likelyTarget next = Some target ∨
   Typosquat.likelyTarget next = Typosquat.likelyTarget results).
Proof.
  intros Hdist. cbv zeta.
  pose proof (typosquatStep_fields baseDomain results target) as (Hflag & Hd & Ht).
  cbv zeta in Hflag, Hd, Ht. rewrite Hflag, Hd, Ht. clear Hflag Hd Ht.
  unfold str_eqb.
  set (dist := Levenshtein.levenshteinDistance baseDomain target) in *.
  destruct (checkCharacterSubstitution baseDomain target) eqn:Hsub;
    destruct (includes baseDomain target) eqn:Hinc;
    destruct (Typosquat.isTyposquat results) eqn:Hflagged;
    destruct (bool_decide (baseDomain = target)) eqn:Hsame;
    (apply bool_decide_eq_true in Hsame || apply bool_decide_eq_false in Hsame);
    destruct (bool_decide (dist ≤ 2)%nat) eqn:Hclose;
    (apply bool_decide_eq_true in Hclose || apply bool_decide_eq_false in Hclose);
    destruct (Typosquat.distance results) as [d|] eqn:Hdistance;
    try (destruct (bool_decide (dist < d)%nat) eqn:Hbetter);
    cbn [andb orb negb];
    try (exfalso; by (pose proof (Hdist ltac:(eauto)))).
  all: repeat split; intros; try done; try tauto; eauto.
  all: try (destruct_or?; destruct_and?; done).
Qed.

(** The loop of [advancedTyposquatAnalysis] over any list of brand names. *)
Lemma typosquat_fold (baseDomain : list N) (targets : list (list N)) :
  let result :=
    foldl (typosquatStep baseDomain)
      {| Typosquat.isTyposquat := false; Typosquat.likelyTarget := None;
         Typosquat.distance := None; Typosquat.technique := None;
         Typosquat.confidence := 0 |} targets in
  (Typosquat.isTyposquat result = true ↔
   ∃ target, target ∈ targets ∧
     ((Levenshtein.levenshteinDistance baseDomain target ≤ 2)%nat ∨
      checkCharacterSubstitution baseDomain target = true ∨
      (includes baseDomain target = true ∧ baseDomain ≠ target))) ∧
  (is_Some (Typosquat.distance result) → Typosquat.isTyposquat result = true) ∧
  (Typosquat.isTyposquat result = true →
   ∃ target, target ∈ targets ∧ Typosquat.likelyTarget result = Some target) ∧
  (Typosquat.isTyposquat result = false → Typosquat.likelyTarget result = None).
Proof.
  cbv zeta. induction targets as [|target targets IH] using rev_ind.
  - cbn [foldl Typosquat.isTyposquat Typosquat.distance Typosquat.likelyTarget].
    split; [|split; [|split]]; [|by intros [? [=]]|done|done].
    split; [done|]. intros (target & Hin & _). by apply not_elem_of_nil in Hin.
  - rewrite foldl_snoc.
    destruct IH as (Hflag & Hdist & Htarget & Hnone).
    set (results := foldl _ _ targets) in *.
    pose proof (typosquatStep_flag baseDomain results target Hdist)
      as (Hflag' & Hdist' & Hnew & Hold).
    cbv zeta in Hflag', Hdist', Hnew, Hold.
    pose proof (typosquatStep_fields baseDomain results target) as (_ & _ & Hlikely).
    cbv zeta in Hlikely.
    split; [|split; [|split]].
    + rewrite Hflag', Hflag. split.
      * intros [(t & Hin & Hcond)|Hcond].
        -- exists t. split; [|done]. apply elem_of_app. by left.
        -- exists target. split; [|done]. apply elem_of_app. right.
           apply list_elem_of_here.
      * intros (t & Hin & Hcond). apply elem_of_app in Hin as [Hin|Hin].
        -- left. by exists t.
        -- apply list_elem_of_singleton in Hin as ->. by right.
    + exact Hdist'.
    + intros Hnow. destruct (Typosquat.isTyposquat results) eqn:Hbefore.
      * destruct (Hold eq_refl) as [Hlikely'|Hlikely'].
        -- exists target. split; [|done]. apply elem_of_app. right.
           apply list_elem_of_here.
        -- destruct (Htarget eq_refl) as (t & Hin & Ht). exists t.
           split; [apply elem_of_app; by left|]. by rewrite Hlikely'.
      * exists target. split; [apply elem_of_app; right; apply list_elem_of_here|].
        by apply Hnew.
    + intros Hnow. rewrite Hlikely.
      assert (Typosquat.isTyposquat results = false) as Hbefore.
      { destruct (Typosquat.isTyposquat results) eqn:Hb; [|done].
        assert (Typosquat.isTyposquat (typosquatStep baseDomain results target) = true)
          as Hyes by (apply Hflag'; by left).
        congruence. }
      pose proof (typosquatStep_fields baseDomain results target) as (Hf & _ & _).
      cbv zeta in Hf. rewrite Hnow, Hbefore in Hf.
      destruct (_ || _ || _); [discriminate|]. by apply Hnone.
Qed.

(** X11.  [advancedTyposquatAnalysis] flags a domain exactly when some
    brand name of its list is within two edits of the first label, or is a
    look-alike spelling of it, or is contained in it without being it; a
    flagged result names one of the brands as its likely target, an
    unflagged one names none.  In particular a first label that is itself a
    brand name is flagged. *)
Theorem advancedTyposquatAnalysis_flags (domain : list N) :
  let baseDomain := baseLabel domain in
  let result := advancedTyposquatAnalysis domain in
  (Typosquat.isTyposquat result = true ↔
   ∃ target, target ∈ commonDomains ∧
     ((Levenshtein.levenshteinDistance baseDomain target ≤ 2)%nat ∨
      checkCharacterSubstitution baseDomain target = true ∨
      (includes baseDomain target = true ∧ baseDomain ≠ target))) ∧
  (Typosquat.isTyposquat result = true →
   ∃ target, target ∈ commonDomains ∧ Typosquat.likelyTarget result = Some target) ∧
  (Typosquat.isTyposquat result = false → Typosquat.likelyTarget result = None) ∧
  (baseDomain ∈ commonDomains → Typosquat.isTyposquat result = true).
Proof.
  cbv zeta. unfold advancedTyposquatAnalysis. cbv zeta.
  pose proof (typosquat_fold (baseLabel domain) commonDomains)
    as (Hflag & _ & Htarget & Hnone).
  cbv zeta in Hflag, Htarget, Hnone.
  split; [exact Hflag|]. split; [exact Htarget|]. split; [exact Hnone|].
  intros Hbrand. apply Hflag. exists (baseLabel domain). split; [done|]. left.
  rewrite (proj2 (proj1 (levenshteinDistance_is_zero _ _)) eq_refl). lia.
Qed.

Lemma advancedTyposquatAnalysis_flags_witness :
  baseLabel (lit "paypal.com") ∈ commonDomains ∧
  Typosquat.isTyposquat (advancedTyposquatAnalysis (lit "paypal.com")) = true.
Proof.
  assert (baseLabel (lit "paypal.com") ∈ commonDomains) as Hbrand.
  { apply list_elem_of_In. vm_compute. tauto. }
  split; [exact Hbrand|].
  exact (proj2 (proj2 (proj2 (advancedTyposquatAnalysis_flags (lit "paypal.com"))))
           Hbrand).
Defined.

End TyposquatFlagFacts.


(** ** The explanation, the cache and the entropy note of a domain *)

Section BreakdownFacts.
Import Js ServiceWorker RiskBreakdown.
Open Scope R_scope.

Lemma reputationData_computedRisk domain vtApiKey gsbApiKey vtAnswer gsbAnswer data :
  reputationData domain vtApiKey gsbApiKey vtAnswer gsbAnswer = Some data →
  data_localSignals data = buildLocalSignals domain ∧
  data_remoteSignals data = fetchRemoteSignals vtApiKey gsbApiKey vtAnswer gsbAnswer ∧
  scoreDomainRisk (data_localSignals data) (Some (data_remoteSignals data))
    = Returned (data_computedRisk data) ∧
  resolveDomainReputation domain vtApiKey gsbApiKey vtAnswer gsbAnswer
    = DomainReputation.ComputedRisk (data_computedRisk data).
Proof.
  unfold reputationData, resolveDomainReputation. case_bool_decide; [done|].
  cbv zeta. rewrite scoreDomainRisk_present. intros [= <-].
  cbn [data_localSignals data_remoteSignals data_computedRisk].
  rewrite scoreDomainRisk_present. done.
Qed.

(** X12.  The breakdown the content script shows for an answer of the
    service worker explains the answer's score: the contributions of the
    factors it lists, local and remote, add up to the computed risk, up to
    the cap of 100. *)
Theorem risk_breakdown_adds_up_to_the_score
    domain vtApiKey gsbApiKey vtAnswer gsbAnswer data :
  reputationData domain vtApiKey gsbApiKey vtAnswer gsbAnswer = Some data →
  let breakdown := createRiskBreakdown data in
  totalScore breakdown = data_computedRisk data ∧
  data_computedRisk data =
  Rmin (foldr (λ f acc, contribution f + acc) 0
          (localFactors breakdown ++ remoteFactors breakdown)) 100.
Proof.
  intros Hdata. cbv zeta. split; [done|].
  apply reputationData_computedRisk in Hdata as (_ & _ & Hscore & _).
  rewrite scoreDomainRisk_present in Hscore. injection Hscore as <-.
  f_equal. unfold createRiskBreakdown, localContribution. cbv zeta.
  cbn [localFactors remoteFactors].
  destruct (decide (typosquatLikelihood (data_localSignals data) > 0.6)),
    (decide (entropy (data_localSignals data) > 4)),
    (isPunycode (data_localSignals data)),
    (vt_flagged (vtResult (data_remoteSignals data))),
    (gsb_flagged (gsbResult (data_remoteSignals data)));
    cbn [app foldr contribution]; lra.
Qed.

Lemma risk_breakdown_adds_up_to_the_score_witness :
  ∃ data,
    reputationData (lit "paypal.com") false false (VtError "none") (GsbError "none")
      = Some data ∧
    totalScore (createRiskBreakdown data) = data_computedRisk data.
Proof.
  eexists. 
  assert (reputationData (lit "paypal.com") false false (VtError "none")
            (GsbError "none") = Some _) as H by reflexivity.
  split; [exact H|].
  exact (proj1 (risk_breakdown_adds_up_to_the_score _ _ _ _ _ _ H)).
Defined.

End BreakdownFacts.

Section CacheFacts.
Import Js DomainReputation.

(** X13.  A result [checkDomain] obtained from the service worker, or
    computed after a failed exchange, is served again from the cache, as it
    is and whatever the service worker would answer now, to every call for
    the same domain that starts less than 30 minutes after the result was
    stored; the cache is left as it is. *)
Theorem checkDomain_serves_fresh_results_from_the_cache
    (domainCache : gmap (list N) Cached) (domain : list N)
    (asked answered later answeredLater : Z) (response response' : Response) :
  bool_decide (domain = []) || str_eqb domain (lit "localhost") || is_ipv4 domain
    = false →
  (getCachedResult domainCache domain asked).1 = None →
  response ≠ NoComputedRisk →
  (later - answered < cacheExpiry)%Z →
  let '(first, domainCache1) :=
    checkDomainThroughCache domainCache domain asked answered response in
  let '(second, domainCache2) :=
    checkDomainThroughCache domainCache1 domain later answeredLater response' in
  first = checkDomain domain response ∧ second = first ∧
  domainCache2 = domainCache1.
Proof.
  intros Hremote Hmiss Hresponse Hfresh.
  unfold checkDomainThroughCache. rewrite Hremote.
  destruct (getCachedResult domainCache domain asked) as [[cached|] cache0];
    [discriminate|].
  assert (getCachedResult
            (cacheResult cache0 domain (checkDomain domain response) answered)
            domain later =
          (Some (checkDomain domain response),
           cacheResult cache0 domain (checkDomain domain response) answered))
    as Hhit.
  { unfold getCachedResult, cacheResult. rewrite lookup_insert_eq.
    cbn [cached_timestamp cached_result]. by rewrite decide_True. }
  destruct response as [computedRisk| |]; [|done|]; rewrite ?Hremote, Hhit; done.
Qed.

Lemma checkDomain_serves_fresh_results_from_the_cache_witness :
  let '(first, domainCache1) :=
    checkDomainThroughCache ∅ (lit "example.org") 0 5 (ComputedRisk 60) in
  let '(second, domainCache2) :=
    checkDomainThroughCache domainCache1 (lit "example.org") 1000 1005 SendFailed in
  first = checkDomain (lit "example.org") (ComputedRisk 60) ∧ second = first ∧
  domainCache2 = domainCache1.
Proof.
  apply checkDomain_serves_fresh_results_from_the_cache.
  - vm_compute. reflexivity.
  - unfold getCachedResult. by rewrite lookup_empty.
  - discriminate.
  - vm_compute. reflexivity.
Defined.

End CacheFacts.

Section EntropyNoteFacts.
Import Js DomainReputation.
Open Scope R_scope.

Lemma calculateEntropy_bounds (str : list N) :
  0 <= calculateEntropy str ∧
  (str ≠ [] → calculateEntropy str <= ServiceWorker.log2 (INR (length (dedupe str)))).
Proof.
  destruct (decide (str = [])) as [->|Hne].
  - unfold calculateEntropy. cbn. split; [lra|done].
  - pose proof (raw_entropy_bounds str Hne) as Hraw. cbv zeta in Hraw.
    split; [apply Hraw|]. intros _. apply Hraw.
Qed.

Lemma log2_lt_half (k n : nat) :
  (0 < k)%nat → (k * k < 2 ^ n)%nat → ServiceWorker.log2 (INR k) < INR n / 2.
Proof.
  intros Hk Hsq. pose proof ln_2_pos as Hln2. unfold ServiceWorker.log2.
  assert (0 < INR k) as HkR by (by apply lt_0_INR).
  assert (2 * ln (INR k) < INR n * ln 2) as Hln.
  { rewrite <- ln_pow by lra.
    replace (2 * ln (INR k)) with (ln (INR k * INR k))
      by (rewrite ln_mult by done; lra).
    apply ln_increasing; [by apply Rmult_lt_0_compat|].
    rewrite <- mult_INR. replace 2 with (INR 2) by (cbn; lra).
    rewrite <- pow_INR. by apply lt_INR. }
  apply (Rmult_lt_reg_r (ln 2)); [done|].
  unfold Rdiv. rewrite Rmult_assoc, Rinv_l by lra. lra.
Qed.

Lemma log2_mono (j k : nat) :
  (0 < j ≤ k)%nat → ServiceWorker.log2 (INR j) <= ServiceWorker.log2 (INR k).
Proof.
  intros [Hj Hjk]. pose proof ln_2_pos. unfold ServiceWorker.log2.
  apply Rmult_le_compat_r; [apply Rlt_le, Rinv_0_lt_compat; lra|].
  apply ln_le_compat; [by apply lt_0_INR|by apply le_INR].
Qed.

(** X14.  The entropy [calculateEntropy] computes for a first label is the
    one the service worker rounds in [domainEntropy]; it is at most the
    binary logarithm of the number of distinct characters, so that
    [analyzeEntropy] assesses a label with at most 11 distinct characters as
    low, and never assesses one with at most 22 as high. *)
Theorem analyzeEntropy_needs_many_distinct_characters (domain : list N) :
  let label := baseLabel domain in
  ServiceWorker.domainEntropy label = toFixed 2 (calculateEntropy label) ∧
  0 <= entropy_value (analyzeEntropy domain) ∧
  ((length (dedupe label) ≤ 11)%nat → assessment (analyzeEntropy domain) = low) ∧
  ((length (dedupe label) ≤ 22)%nat → assessment (analyzeEntropy domain) ≠ high).
Proof.
  cbv zeta. set (label := baseLabel domain).
  pose proof (calculateEntropy_bounds label) as [Hpos Hbound].
  assert (∀ k n : nat, (0 < n)%nat → (k * k < 2 ^ n)%nat →
                       (length (dedupe label) ≤ k)%nat →
                       calculateEntropy label < INR n / 2) as Hbelow.
  { intros k n Hn Hsq Hk. destruct (decide (label = [])) as [Hempty|Hne].
    - rewrite Hempty. unfold calculateEntropy. cbn [dedupe fmap list_fmap foldl].
      apply Rdiv_lt_0_compat; [by apply lt_0_INR|lra].
    - assert (0 < length (dedupe label))%nat as Hd
        by (destruct label; [done|cbn; lia]).
      eapply Rle_lt_trans; [by apply Hbound|].
      eapply Rle_lt_trans; [apply (log2_mono _ k); lia|].
      apply log2_lt_half; [lia|done]. }
  split; [|split; [|split]].
  - unfold ServiceWorker.domainEntropy, calculateEntropy, ServiceWorker.char_counts,
      ServiceWorker.log2.
    destruct label as [|u label']; [done|]. reflexivity.
  - unfold analyzeEntropy. cbn [entropy_value]. fold label.
    assert (IZR 0 / 10 ^ 3 <= toFixed 3 (calculateEntropy label)) as H0.
    { apply toFixed_ge; [done|]. pose proof (pow_10_pos 3). nra. }
    unfold Rdiv in H0. by rewrite Rmult_0_l in H0.
  - intros Hk. unfold analyzeEntropy. cbn [assessment]. fold label.
    pose proof (Hbelow 11%nat 7%nat ltac:(lia) ltac:(cbn; lia) Hk) as H.
    replace (INR 7 / 2) with 3.5 in H by (cbn; lra).
    rewrite !decide_False by lra. done.
  - intros Hk. unfold analyzeEntropy. cbn [assessment]. fold label.
    pose proof (Hbelow 22%nat 9%nat ltac:(lia) ltac:(cbn; lia) Hk) as H.
    replace (INR 9 / 2) with 4.5 in H by (cbn; lra).
    rewrite (decide_False (P := calculateEntropy label > 4.5)) by lra.
    by case_decide.
Qed.

End EntropyNoteFacts.


(** ** The analysis of a node by the jailbreak detector *)

Section NodeFacts.
Import Js JailbreakDetector.
Open Scope R_scope.

Lemma heuristics_score_positive (E : Engine) (text : list N) :
  suspicious (performHeuristicAnalysis E text) = true →
  0.3 <= suspicionScore (performHeuristicAnalysis E text).
Proof.
  unfold performHeuristicAnalysis. cbv zeta.
  repeat match goal with
         | |- context [decide ?P] => destruct (decide P)
         end;
    destruct (includes text (lit "###") || includes text (lit "User:")
              || includes text (lit "Assistant:"));
    cbn [suspicious suspicionScore]; intros; try discriminate; lra.
Qed.

(** The severity a matching category leaves behind. *)
Lemma raise_idem (sev s : Level) :
  let raise := λ s, if decide (0 < compareSeverity sev s)%Z then sev else s in
  raise (raise s) = raise s.
Proof.
  cbv zeta. destruct sev, s; cbn; reflexivity.
Qed.

(** The loop over the patterns of a category. *)
Lemma category_patterns_fold (E : Engine) (text : list N) (config : Category)
    (ps : list Regex) (found : list (list N)) (result : NodeAnalysis) :
  let matched := ps ≫= λ pattern, match_all E pattern text in
  let out :=
    foldl (λ (acc : list (list N) * NodeAnalysis) pattern,
      let '(categoryMatches, result) := acc in
      let matches := match_all E pattern text in
      if decide (0 < length matches)%nat then
        (categoryMatches ++ matches,
         {| source := source result;
            hits := hits result + INR (length matches);
            maxSeverity :=
              if decide (0 < compareSeverity (severity config) (maxSeverity result))%Z
              then severity config else maxSeverity result;
            nodePatterns := nodePatterns result |})
      else acc) (found, result) ps in
  out.1 = found ++ matched ∧
  source out.2 = source result ∧
  nodePatterns out.2 = nodePatterns result ∧
  hits out.2 = hits result + INR (length matched) ∧
  maxSeverity out.2 =
    if decide (matched = []) then maxSeverity result
    else if decide (0 < compareSeverity (severity config) (maxSeverity result))%Z
         then severity config else maxSeverity result.
Proof.
  cbv zeta. revert found result.
  induction ps as [|pattern ps IH]; intros found result.
  - cbn. rewrite app_nil_r, Rplus_0_r. done.
  - cbn [foldl mbind list_bind]. 
    destruct (decide (0 < length (match_all E pattern text))%nat) as [Hsome|Hnone].
    + destruct (IH (found ++ match_all E pattern text)
                  {| source := source result;
                     hits := hits result + INR (length (match_all E pattern text));
                     maxSeverity :=
                       if decide (0 < compareSeverity (severity config)
                                        (maxSeverity result))%Z
                       then severity config else maxSeverity result;
                     nodePatterns := nodePatterns result |})
        as (Hfound & Hsource & Hpatterns & Hhits & Hsev).
      rewrite Hfound, Hsource, Hpatterns, Hhits, Hsev.
      cbn [source hits maxSeverity nodePatterns].
      rewrite <- app_assoc, length_app, plus_INR.
      repeat split; [lra|].
      rewrite (decide_False (P := match_all E pattern text ++ _ = [])).
      2: { destruct (match_all E pattern text); [cbn in Hsome; lia|done]. }
      pose proof (raise_idem (severity config) (maxSeverity result)) as Hidem.
      cbv zeta in Hidem. by destruct (decide (_ = [])).
    + assert (match_all E pattern text = []) as ->
        by (destruct (match_all E pattern text); [done|cbn in Hnone; lia]).
      apply IH.
Qed.

(** What a category adds to the analysis of a node. *)
Lemma analyzeCategory_fields (E : Engine) (text : list N) (result : NodeAnalysis)
    (config : Category) :
  let matched := patterns config ≫= λ pattern, match_all E pattern text in
  let next := analyzeCategory E text result config in
  source next = source result ∧
  hits next = hits result + INR (length matched) ∧
  maxSeverity next =
    (if decide (matched = []) then maxSeverity result
     else if decide (0 < compareSeverity (severity config) (maxSeverity result))%Z
          then severity config else maxSeverity result) ∧
  nodePatterns next =
    nodePatterns result ++
    (if decide (matched = []) then []
     else [(name config, Matched (dedupe matched) (severity config) (weight config))]).
Proof.
  cbv zeta. unfold analyzeCategory.
  pose proof (category_patterns_fold E text config (patterns config) [] result)
    as (Hfound & Hsource & Hpatterns & Hhits & Hsev).
  cbv zeta in Hfound, Hsource, Hpatterns, Hhits, Hsev.
  destruct (foldl _ _ (patterns config)) as [categoryMatches result'].
  cbn [fst snd] in *. rewrite app_nil_l in Hfound. subst categoryMatches.
  destruct (patterns config ≫= λ pattern, match_all E pattern text) as [|m ms] eqn:Hm.
  - rewrite decide_False by (cbn; lia). rewrite !decide_True in * by done.
    rewrite app_nil_r. cbn in Hhits. rewrite Rplus_0_r in *. repeat split; assumption.
  - rewrite decide_True by (cbn; lia).
    rewrite !(decide_False (P := m :: ms = [])) in * by done.
    cbn [source hits maxSeverity nodePatterns]. rewrite Hpatterns.
    repeat split; assumption || reflexivity.
Qed.

(** The loop over the categories. *)
Lemma categories_fold (E : Engine) (text : list N) (table : list Category)
    (result : NodeAnalysis) :
  let next := foldl (analyzeCategory E text) result table in
  (0 <= hits result → 0 <= hits next) ∧
  (nodePatterns result = [] → hits result = 0 → maxSeverity result = low →
   (nodePatterns next = [] → hits next = 0 ∧ maxSeverity next = low) ∧
   (nodePatterns next ≠ [] → 1 <= hits next) ∧
   (∀ name ms sev w, (name, Matched ms sev w) ∈ nodePatterns next →
      (severityLevel sev ≤ severityLevel (maxSeverity next))%Z) ∧
   (maxSeverity next ≠ low →
    ∃ name ms w, (name, Matched ms (maxSeverity next) w) ∈ nodePatterns next) ∧
   (∀ entry, entry ∈ nodePatterns next → ∃ ms sev w, entry.2 = Matched ms sev w)).
Proof.
  cbv zeta. split.
  - revert result. induction table as [|config table IH]; intros result Hpos; [done|].
    cbn [foldl]. apply IH.
    pose proof (analyzeCategory_fields E text result config) as (_ & Hhits & _).
    cbv zeta in Hhits. rewrite Hhits.
    pose proof (pos_INR (length (patterns config ≫= λ p, match_all E p text))). lra.
  - intros Hempty Hzero Hlow.
    induction table as [|config table IH] using rev_ind.
    + cbn. rewrite Hempty, Hzero, Hlow. repeat split; try done.
      * intros ???? Hin. by apply not_elem_of_nil in Hin.
      * intros ? Hin. by apply not_elem_of_nil in Hin.
    + rewrite foldl_snoc.
      set (before := foldl (analyzeCategory E text) result table) in *.
      destruct IH as (Hnone & Hsome & Hmax & Hwitness & Hkind).
      pose proof (analyzeCategory_fields E text before config)
        as (_ & Hhits & Hsev & Hpatterns).
      cbv zeta in Hhits, Hsev, Hpatterns.
      set (matched := patterns config ≫= λ pattern, match_all E pattern text) in *.
      rewrite Hhits, Hsev, Hpatterns.
      assert (0 <= hits before) as Hbefore.
      { destruct (nodePatterns before) eqn:Hb.
        - destruct Hnone as [-> _]; [done|lra].
        - assert (1 <= hits before) by (by apply Hsome). lra. }
      destruct (decide (matched = [])) as [Hm|Hm].
      * rewrite Hm, app_nil_r. cbn [length INR]. rewrite Rplus_0_r. done.
      * assert (1 <= INR (length matched)) as Hlen.
        { destruct matched as [|m ms]; [done|]. cbn [length]. rewrite S_INR.
          pose proof (pos_INR (length ms)). lra. }
        split; [|split; [|split; [|split]]].
        -- intros Happ. by apply app_eq_nil in Happ as [_ [=]].
        -- intros _. lra.
        -- intros name ms sev w Hin. apply elem_of_app in Hin as [Hin|Hin].
           ++ specialize (Hmax _ _ _ _ Hin). revert Hmax.
              unfold compareSeverity.
              generalize (severity config), (maxSeverity before). intros s1 s2.
              destruct (decide (0 < severityLevel s1 - severityLevel s2)%Z);
                destruct s1, s2, sev; cbn in *; lia.
           ++ apply list_elem_of_singleton in Hin. injection Hin as -> -> -> ->.
              unfold compareSeverity.
              generalize (severity config), (maxSeverity before). intros s1 s2.
              destruct (decide (0 < severityLevel s1 - severityLevel s2)%Z);
                destruct s1, s2; cbn in *; lia.
        -- intros Hnotlow.
           destruct (decide (0 < compareSeverity (severity config) (maxSeverity before))%Z)
             as [Hraise|Hkeep].
           ++ eexists _, _, _. apply elem_of_app. right. apply list_elem_of_here.
           ++ destruct (Hwitness Hnotlow) as (name & ms & w & Hin).
              exists name, ms, w. apply elem_of_app. by left.
        -- intros entry Hin. apply elem_of_app in Hin as [Hin|Hin]; [by apply Hkind|].
           apply list_elem_of_singleton in Hin as ->. cbn. eauto.
Qed.

(** X16.  The [maxSeverity] of a node's analysis is the greatest severity
    among the categories that matched in it, and "low" when none matched:
    in particular it is "critical" exactly when a critical category
    matched. *)
Theorem analyzeNode_maxSeverity_is_the_greatest (E : Engine) (node : Node)
    (tag : string) :
  let analysis := analyzeNode E node tag in
  (∀ name ms sev w, (name, Matched ms sev w) ∈ nodePatterns analysis →
     (compareSeverity sev (maxSeverity analysis) ≤ 0)%Z) ∧
  (maxSeverity analysis ≠ low →
   ∃ name ms w, (name, Matched ms (maxSeverity analysis) w) ∈ nodePatterns analysis) ∧
  (maxSeverity analysis = critical ↔
   ∃ name ms w, (name, Matched ms critical w) ∈ nodePatterns analysis).
Proof.
  cbv zeta.
  assert ((∀ name ms sev w,
             (name, Matched ms sev w) ∈ nodePatterns (analyzeNode E node tag) →
             (severityLevel sev ≤ severityLevel (maxSeverity (analyzeNode E node tag)))%Z) ∧
          (maxSeverity (analyzeNode E node tag) ≠ low →
           ∃ name ms w, (name, Matched ms (maxSeverity (analyzeNode E node tag)) w)
                        ∈ nodePatterns (analyzeNode E node tag))) as [Hmax Hwitness].
  { unfold analyzeNode. case_bool_decide.
    - cbn. split; [|done]. intros ???? Hin. by apply not_elem_of_nil in Hin.
    - pose proof (categories_fold E (nodeText node tag) patternTable
                    {| source := tag; hits := 0; maxSeverity := low;
                       nodePatterns := [] |}) as [_ Hfold].
      cbv zeta in Hfold.
      destruct (Hfold eq_refl eq_refl eq_refl) as (_ & _ & Hmax & Hwitness & _).
      destruct (suspicious _); [|done].
      cbn [maxSeverity nodePatterns]. split.
      + intros name ms sev w Hin. apply elem_of_app in Hin as [Hin|Hin]; [by eapply Hmax|].
        by apply list_elem_of_singleton in Hin.
      + intros Hnotlow. destruct (Hwitness Hnotlow) as (name & ms & w & Hin).
        exists name, ms, w. apply elem_of_app. by left. }
  split; [|split].
  - intros name ms sev w Hin. unfold compareSeverity.
    specialize (Hmax _ _ _ _ Hin). lia.
  - exact Hwitness.
  - split.
    + intros Hcritical. rewrite <- Hcritical. apply Hwitness. by rewrite Hcritical.
    + intros (name & ms & w & Hin). specialize (Hmax _ _ _ _ Hin).
      destruct (maxSeverity (analyzeNode E node tag)); cbn in Hmax; done || lia.
Qed.

(** X17.  A node's analysis has hits exactly when it has a pattern entry,
    and then it has at least 0.3 hits; the analysis of a node without text
    is empty.  So every detection [scanPage] reports carries the pattern
    entries that explain it. *)
Theorem analyzeNode_hits_come_with_patterns (E : Engine) (node : Node) (tag : string) :
  let analysis := analyzeNode E node tag in
  0 <= hits analysis ∧
  (hits analysis > 0 ↔ nodePatterns analysis ≠ []) ∧
  (hits analysis > 0 → 0.3 <= hits analysis) ∧
  (nodeText node tag = [] →
   analysis = {| source := tag; hits := 0; maxSeverity := low; nodePatterns := [] |}) ∧
  (∀ page hostname now history,
     Forall (λ detection, nodePatterns detection ≠ [] ∧ 0.3 <= hits detection)
       (detections (results (scanPage E page hostname now history)))).
Proof.
  assert (∀ node tag,
            0 <= hits (analyzeNode E node tag) ∧
            (hits (analyzeNode E node tag) > 0 ↔
             nodePatterns (analyzeNode E node tag) ≠ []) ∧
            (hits (analyzeNode E node tag) > 0 →
             0.3 <= hits (analyzeNode E node tag))) as Hnode.
  { clear node tag. intros node tag. unfold analyzeNode. case_bool_decide.
    - cbn. split; [lra|]. split; [split; [lra|done]|lra].
    - pose proof (categories_fold E (nodeText node tag) patternTable
                    {| source := tag; hits := 0; maxSeverity := low;
                       nodePatterns := [] |}) as [Hpos Hfold].
      cbv zeta in Hpos, Hfold. cbn [hits] in Hpos. specialize (Hpos ltac:(lra)).
      destruct (Hfold eq_refl eq_refl eq_refl) as (Hnone & Hsome & _).
      set (result := foldl _ _ patternTable) in *.
      destruct (suspicious (performHeuristicAnalysis E (nodeText node tag))) eqn:Hsus.
      + pose proof (heuristics_score_positive E (nodeText node tag) Hsus) as Hscore.
        cbn [hits nodePatterns]. split; [lra|]. split; [|intros _; lra].
        split; [|intros _; lra]. intros _ Happ. by apply app_eq_nil in Happ as [_ [=]].
      + split; [done|]. split.
        * split.
          -- intros Hhits Hempty. destruct (Hnone Hempty) as [Hzero _]. lra.
          -- intros Hne. specialize (Hsome Hne). lra.
        * intros Hhits. destruct (nodePatterns result) eqn:Hp.
          -- destruct Hnone as [Hzero _]; [done|]. lra.
          -- assert (1 <= hits result) by (by apply Hsome). lra. }
  cbv zeta. destruct (Hnode node tag) as (Hpos & Hiff & Hmin).
  split; [exact Hpos|]. split; [exact Hiff|]. split; [exact Hmin|]. split.
  - intros Htext. unfold analyzeNode. by rewrite bool_decide_eq_true_2.
  - intros page hostname now history.
    destruct (scanPage_aggregate E page hostname now history) as (-> & _).
    unfold scriptFragments, handlerFragments, attributeFragments.
    rewrite !Forall_app. repeat split; apply Forall_forall; intros detection Hin.
    + apply list_elem_of_filter in Hin as [Hhits Hin].
      apply list_elem_of_fmap in Hin as (n & -> & _).
      destruct (Hnode n "script"%string) as (_ & Hiff' & Hmin'). split; [by apply Hiff'|by apply Hmin'].
    + apply list_elem_of_bind in Hin as (handler & Hin & _).
      apply list_elem_of_filter in Hin as [Hhits Hin].
      apply list_elem_of_fmap in Hin as (n & -> & _).
      destruct (Hnode n handler) as (_ & Hiff' & Hmin'). split; [by apply Hiff'|by apply Hmin'].
    + apply list_elem_of_bind in Hin as (attr & Hin & _).
      apply list_elem_of_filter in Hin as [Hhits Hin].
      apply list_elem_of_fmap in Hin as (n & -> & _).
      destruct (Hnode n attr) as (_ & Hiff' & Hmin'). split; [by apply Hiff'|by apply Hmin'].
Qed.

End NodeFacts.


(** ** More on rounding *)

Section RoundingFacts.
Import Js.
Open Scope R_scope.

(** A value at or below a multiple of [10^-d] stays there when rounded. *)
Lemma toFixed_le (d : nat) (x : R) (k : Z) :
  0 <= x → x * 10 ^ d <= IZR k → toFixed d x <= IZR k / 10 ^ d.
Proof.
  intros H0 Hk. unfold toFixed.
  destruct (decide (x < 0)) as [Hneg|_]; [lra|].
  pose proof (pow_10_pos d) as Hpos.
  pose proof (Math_round_le _ _ Hk) as Hle. apply IZR_le in Hle.
  unfold Rdiv. apply Rmult_le_compat_r; [|exact Hle].
  apply Rlt_le, Rinv_0_lt_compat, Hpos.
Qed.

End RoundingFacts.


(** ** What the AI-text analyzer can return *)

Section AnalyzerRangeFacts.
Import Js AITextAnalyzer.
Open Scope R_scope.

Lemma composite_probability (components : Components) :
  probability (calculateCompositeAIScore components) =
  Rmin (linguistic components * 0.35 + statistical components * 0.30
        + semantic components * 0.20 + structural components * 0.15) 1.
Proof.
  unfold calculateCompositeAIScore. cbn [foldl fst snd probability].
  f_equal. lra.
Qed.

(** The probability before rounding. *)
Lemma raw_probability_bound E this content :
  constructed this →
  let text := toLowerCase content in
  let aiScore :=
    calculateCompositeAIScore
      {| linguistic :=
           linguistic_score (calculateLinguisticAIScore E this text content).1;
         statistical := calculateStatisticalAIScore E text;
         semantic := calculateSemanticAIScore E text;
         structural := calculateStructuralAIScore E content |} in
  0 <= probability aiScore <= 0.46.
Proof.
  intros Hthis. cbv zeta. rewrite composite_probability.
  cbn [linguistic statistical semantic structural].
  pose proof (linguistic_score_bounds E this (toLowerCase content) content Hthis).
  pose proof (calculateStatisticalAIScore_bounds E (toLowerCase content)).
  pose proof (calculateSemanticAIScore_bounds E (toLowerCase content)).
  pose proof (calculateStructuralAIScore_bounds E content).
  rewrite Rmin_left by lra. lra.
Qed.

Lemma aiProbability_bound E this content :
  constructed this → 0 <= aiProbability (analyzeText E this content).1 <= 0.46.
Proof.
  intros Hthis.
  destruct (decide (length (toLowerCase content) < 100)%nat) as [Hshort|Hlong].
  - rewrite analyzeText_short by done. cbn. lra.
  - rewrite analyzeText_long by lia. cbv zeta. cbn [fst aiProbability].
    pose proof (raw_probability_bound E this content Hthis) as Hraw.
    cbv zeta in Hraw. destruct Hraw as [Hraw0 Hraw1].
    match type of Hraw0 with 0 <= ?p => generalize dependent p end.
    intros p Hraw0 Hraw1. split.
    + apply (toFixed_bounds 3 _ 1). lra.
    + replace 0.46 with (IZR 460 / 10 ^ 3) by (cbn; lra).
      apply toFixed_le; [lra|]. cbn. lra.
Qed.

End AnalyzerRangeFacts.

Section AnalyzerConsequences.
Import Js AITextAnalyzer.
Open Scope R_scope.

(** X18.  Whatever the text, the analyzer never reports an AI probability
    above 0.46: the four sub-scores are capped at 0.5, 0.6, 0.3 and 0.3 and
    weigh 0.35, 0.30, 0.20 and 0.15.  So the aggregator's signal
    "high_ai_probability", which asks for more than 0.7, is never counted,
    and the AI analysis contributes at most 9.2 of the 100 points. *)
Theorem aiProbability_never_reaches_the_signal_threshold
    (E : Engine) (this : Analyzer) (content : list N) :
  constructed this →
  let ai := (analyzeText E this content).1 in
  aiProbability ai <= 0.46 ∧
  ∀ llm jailbreakResult domainResult,
    let assessment := Aggregator.analyzePage ai llm jailbreakResult domainResult in
    Forall (λ signal, Aggregator.type signal ≠ Aggregator.high_ai_probability)
      (Aggregator.signals (Aggregator.independentSignals assessment)) ∧
    Aggregator.aiAnalysis (Aggregator.breakdown (Aggregator.compositeScore assessment))
      <= 9.2.
Proof.
  intros Hthis. cbv zeta.
  pose proof (aiProbability_bound E this content Hthis) as [Hp0 Hp].
  pose proof (analyzeText_bounds E this content Hthis) as Hbounds.
  cbv zeta in Hbounds. destruct Hbounds as (_ & [Hc0 Hc1] & _).
  split; [exact Hp|]. intros llm jailbreakResult domainResult. split.
  - unfold Aggregator.analyzePage. cbn [Aggregator.independentSignals].
    unfold Aggregator.countIndependentSignals.
    cbn [Aggregator.aiResult Aggregator.signals].
    rewrite (bool_decide_eq_false_2 (_ > 0.7)) by lra. cbn [andb].
    repeat match goal with
           | |- context [if ?c then _ else _] => destruct c
           | |- context [match ?c with Some _ => _ | None => _ end] => destruct c
           end;
      cbn [app]; repeat constructor; discriminate.
  - unfold Aggregator.analyzePage. cbn [Aggregator.compositeScore].
    unfold Aggregator.computeAdvancedCompositeScore. cbv zeta.
    cbn [Aggregator.breakdown Aggregator.aiAnalysis Metrics.aiProbability
         Metrics.aiConfidence].
    pose proof (Math_pow_1_5_nonneg _ Hc0) as Hpow0.
    pose proof (Math_pow_1_5_le_1 _ (conj Hc0 Hc1)) as Hpow1.
    unfold Aggregator.weights.aiProbability.
    replace 9.2 with (IZR 920 / 10 ^ 2) by (cbn; lra).
    apply toFixed_le; [nra|]. cbn. nra.
Qed.

Lemma aiProbability_never_reaches_the_signal_threshold_witness :
  constructed constructor ∧
  aiProbability (analyzeText
                   {| match_all := λ _ _, []; exec := λ _ _ _, None;
                      split := λ _ s, [s] |} constructor fiftyDottedI).1 <= 0.46.
Proof.
  assert (constructed constructor) as H by reflexivity.
  split; [exact H|].
  exact (proj1 (aiProbability_never_reaches_the_signal_threshold _ _ _ H)).
Defined.

(** X19.  For an analyzer built by the constructor, [analyzeText] returns
    the empty result exactly when the text, lowered, has fewer than 100 code
    units, that is when its code units and its U+0130 together are fewer
    than 100; on every other text the confidence it reports is at least
    0.91. *)
Theorem analyzeText_is_empty_or_confident
    (E : Engine) (this : Analyzer) (content : list N) :
  constructed this →
  let result := (analyzeText E this content).1 in
  (result = createEmptyResult ↔
   (length content + length (filter (λ u, u = 304%N) content) < 100)%nat) ∧
  (result ≠ createEmptyResult → 0.91 <= confidence result <= 1) ∧
  ((length content < 100)%nat → 304%N ∉ content →
   analyzeText E this content = (createEmptyResult, this)).
Proof.
  intros Hthis. cbv zeta. rewrite <- length_toLowerCase.
  assert ((100 ≤ length (toLowerCase content))%nat →
          0.91 <= confidence (analyzeText E this content).1 <= 1) as Hlong.
  { intros Hlen. split; [by apply confidence_of_long_text|].
    pose proof (analyzeText_bounds E this content Hthis) as Hbounds.
    cbv zeta in Hbounds. apply Hbounds. }
  split; [|split].
  - split.
    + intros Hempty.
      destruct (decide (length (toLowerCase content) < 100)%nat) as [|Hge]; [done|].
      specialize (Hlong ltac:(lia)). rewrite Hempty in Hlong. cbn in Hlong. lra.
    + intros Hshort. by rewrite analyzeText_short.
  - intros Hne. apply Hlong.
    destruct (decide (length (toLowerCase content) < 100)%nat) as [Hshort|]; [|lia].
    exfalso. apply Hne. by rewrite analyzeText_short.
  - intros Hshort Hplain. by apply analyzeText_short_plain.
Qed.

Lemma analyzeText_is_empty_or_confident_witness :
  constructed constructor ∧
  ((analyzeText {| match_all := λ _ _, []; exec := λ _ _ _, None;
                   split := λ _ s, [s] |} constructor (lit "short")).1
   = createEmptyResult ↔
   (length (lit "short") + length (filter (λ u, u = 304%N) (lit "short")) < 100)%nat).
Proof.
  assert (constructed constructor) as H by reflexivity.
  split; [exact H|].
  exact (proj1 (analyzeText_is_empty_or_confident _ _ (lit "short") H)).
Defined.

Lemma generateWarningLevel_low_score (aiScore urgency : R) (persuasion : list string)
    (manipulation : list Technique.t) :
  aiScore <= 0.6 →
  generateWarningLevel aiScore urgency persuasion manipulation =
  generateWarningLevel 0 urgency persuasion manipulation.
Proof.
  intros Hscore. unfold generateWarningLevel. cbv zeta.
  rewrite !(bool_decide_eq_false_2 (aiScore > _)) by lra.
  rewrite !(bool_decide_eq_false_2 (0 > _)) by lra.
  reflexivity.
Qed.

(** X20.  The recommendation of [analyzeText] never depends on the AI
    score: the score stays below the 0.6 and 0.7 that [generateWarningLevel]
    asks for, so that the level is "high" exactly when a manipulation
    technique of high severity comes with an urgency above 0.7, and
    otherwise "medium" exactly when the urgency is above 0.5 or more than
    two persuasion flags are raised. *)
Theorem recommendation_ignores_the_ai_score
    (E : Engine) (this : Analyzer) (content : list N) :
  constructed this → (100 ≤ length (toLowerCase content))%nat →
  let text := toLowerCase content in
  let urgency := urgency_score (measureUrgencyTactics E text content) in
  let flags := persuasion_flags (detectPersuasionPatterns text content) in
  let manipulation := detectManipulationTechniques E text content in
  let level := recommendation (analyzeText E this content).1 in
  level = generateWarningLevel 0 urgency flags manipulation ∧
  (level = high ↔
   (∃ technique, technique ∈ manipulation ∧ Technique.severity technique = high) ∧
   urgency > 0.7) ∧
  (level = medium ↔
   level ≠ high ∧ (urgency > 0.5 ∨ (2 < length flags)%nat)).
Proof.
  intros Hthis Hlong. cbv zeta.
  rewrite analyzeText_long by done. cbv zeta. cbn [fst recommendation].
  pose proof (raw_probability_bound E this content Hthis) as Hraw.
  cbv zeta in Hraw.
  rewrite generateWarningLevel_low_score by lra.
  split; [reflexivity|].
  unfold generateWarningLevel. cbv zeta.
  rewrite !(bool_decide_eq_false_2 (0 > _)) by lra. cbn [andb]. rewrite !orb_false_r.
  set (urgency := urgency_score _). set (flags := persuasion_flags _).
  set (manipulation := detectManipulationTechniques _ _ _).
  assert (existsb (λ m, bool_decide (Technique.severity m = high)) manipulation = true ↔
          ∃ technique, technique ∈ manipulation ∧ Technique.severity technique = high)
    as Hex.
  { rewrite existsb_exists. split.
    - intros (m & Hin & Hm). exists m. split; [by apply list_elem_of_In|].
      by apply bool_decide_eq_true in Hm.
    - intros (m & Hin & Hm). exists m. split; [by apply list_elem_of_In|].
      by apply bool_decide_eq_true. }
  destruct (existsb _ manipulation) eqn:Hhigh;
    destruct (bool_decide (urgency > 0.7)) eqn:Hcrit;
    destruct (bool_decide (urgency > 0.5)) eqn:Hurg;
    destruct (bool_decide (2 < length flags)%nat) eqn:Hflags;
    try apply bool_decide_eq_true in Hcrit; try apply bool_decide_eq_false in Hcrit;
    try apply bool_decide_eq_true in Hurg; try apply bool_decide_eq_false in Hurg;
    try apply bool_decide_eq_true in Hflags; try apply bool_decide_eq_false in Hflags;
    cbn [andb orb]; split; split; intros; destruct_and?; try done; try lra;
    try (split; [by apply Hex|lra]);
    try (split; [done|by (left; lra) || by right]);
    try (split; [done|]; (by left) || by right);
    try (destruct_or?; (lra || lia));
    try (exfalso; assert (false = true) by (by apply Hex); discriminate).
Qed.

Lemma recommendation_ignores_the_ai_score_witness :
  constructed constructor ∧ (100 ≤ length (toLowerCase fiftyDottedI))%nat ∧
  recommendation
    (analyzeText {| match_all := λ _ _, []; exec := λ _ _ _, None;
                    split := λ _ s, [s] |} constructor fiftyDottedI).1
  = generateWarningLevel 0
      (urgency_score
         (measureUrgencyTactics
            {| match_all := λ _ _, []; exec := λ _ _ _, None; split := λ _ s, [s] |}
            (toLowerCase fiftyDottedI) fiftyDottedI))
      (persuasion_flags
         (detectPersuasionPatterns (toLowerCase fiftyDottedI) fiftyDottedI))
      (detectManipulationTechniques
         {| match_all := λ _ _, []; exec := λ _ _ _, None; split := λ _ s, [s] |}
         (toLowerCase fiftyDottedI) fiftyDottedI).
Proof.
  assert (constructed constructor) as H by reflexivity.
  assert (100 ≤ length (toLowerCase fiftyDottedI))%nat as Hlen by (vm_compute; lia).
  split; [exact H|]. split; [exact Hlen|].
  exact (proj1 (recommendation_ignores_the_ai_score _ _ _ H Hlen)).
Defined.

End AnalyzerConsequences.


(** ** What the fingerprinter can return *)

Section FingerprinterFacts.
Import Js LLMFingerprinter.
Open Scope R_scope.

Lemma insert_by_score_head (x : string * R) (sorted : list (string * R)) :
  ∃ top rest,
    insert_by_score x sorted = top :: rest ∧
    (top = x ∨ top ∈ sorted) ∧ x.2 <= top.2 ∧
    (∀ y ys, sorted = y :: ys → y.2 <= top.2).
Proof.
  destruct sorted as [|y ys]; cbn [insert_by_score].
  - exists x, []. repeat split; [by left|lra|done].
  - case_decide as Hge.
    + exists x, (y :: ys). repeat split; [by left|lra|]. intros ? ? [= <- <-]. lra.
    + exists y, (insert_by_score x ys).
      repeat split; [right; apply list_elem_of_here|lra|]. intros ? ? [= <- <-]. lra.
Qed.

(** The first entry after sorting has the highest score. *)
Lemma sort_by_score_head (entries : list (string * R)) :
  match sort_by_score entries with
  | [] => entries = []
  | top :: _ => top ∈ entries ∧ ∀ entry, entry ∈ entries → entry.2 <= top.2
  end.
Proof.
  induction entries as [|x entries IH]; [done|].
  unfold sort_by_score in *. cbn [foldr].
  destruct (insert_by_score_head x (foldr insert_by_score [] entries))
    as (top & rest & -> & Htop & Hx & Hhead).
  destruct (foldr insert_by_score [] entries) as [|y ys] eqn:Hsorted.
  - subst entries. destruct Htop as [->|Hin]; [|by apply not_elem_of_nil in Hin].
    split; [apply list_elem_of_here|].
    intros entry Hin. apply list_elem_of_singleton in Hin as ->. lra.
  - destruct IH as [Hy Hmax]. specialize (Hhead y ys eq_refl). split.
    + destruct Htop as [->|Hin]; [apply list_elem_of_here|].
      apply list_elem_of_further.
      apply elem_of_cons in Hin as [->|Hin]; [done|].
      (* an entry of the sorted tail is an entry of the list *)
      clear -Hin Hsorted.
      assert (∀ (l : list (string * R)) e, e ∈ foldr insert_by_score [] l → e ∈ l)
        as Hsub.
      { induction l as [|z l IHl]; intros e He; [done|]. cbn [foldr] in He.
        assert (∀ s, e ∈ insert_by_score z s → e = z ∨ e ∈ s) as Hins.
        { induction s as [|u s IHs]; cbn [insert_by_score]; intros Hes.
          - apply list_elem_of_singleton in Hes. by left.
          - case_decide.
            + apply elem_of_cons in Hes as [->|Hes]; [by left|by right].
            + apply elem_of_cons in Hes as [->|Hes]; [right; apply list_elem_of_here|].
              destruct (IHs Hes) as [->|Hs]; [by left|].
              right. by apply list_elem_of_further. }
        destruct (Hins _ He) as [->|Hl]; [apply list_elem_of_here|].
        apply list_elem_of_further. by apply IHl. }
      apply Hsub. rewrite Hsorted. by apply list_elem_of_further.
    + intros entry Hin. apply elem_of_cons in Hin as [->|Hin]; [done|].
      specialize (Hmax entry Hin). lra.
Qed.

(** X21.  [identifyLikelyModel] names the model type whose signature score
    is the highest, with twice that score, capped at 1, as its confidence;
    it names none exactly when no score exceeds 0.15. *)
Theorem identifyLikelyModel_names_the_highest_score (signatures : list (string * R)) :
  (∀ model, identifyLikelyModel signatures = Some model →
     ∃ topScore,
       (type model, topScore) ∈ signatures ∧ topScore > 0.15 ∧
       (∀ entry, entry ∈ signatures → entry.2 <= topScore) ∧
       model_confidence model = toFixed 3 (Rmin (topScore * 2) 1)) ∧
  (identifyLikelyModel signatures = None ↔
   ∀ entry, entry ∈ signatures → entry.2 <= 0.15).
Proof.
  pose proof (sort_by_score_head signatures) as Hhead.
  unfold identifyLikelyModel.
  destruct (sort_by_score signatures) as [|[topModel topScore] rest].
  - subst signatures. split; [discriminate|]. split; [|done].
    intros _ entry Hin. by apply not_elem_of_nil in Hin.
  - destruct Hhead as [Hin Hmax]. cbn [snd] in Hmax. split.
    + intros model. case_decide as Htop; [|discriminate]. intros [= <-].
      cbn [type model_confidence]. exists topScore. done.
    + case_decide as Htop.
      * split; [discriminate|]. intros Hall. specialize (Hall _ Hin). cbn in Hall. lra.
      * split; [|done]. intros _ entry Hentry. specialize (Hmax _ Hentry). lra.
Qed.

Lemma calculateContextMultiplier_le (text : list N) :
  calculateContextMultiplier text <= 1.5.
Proof.
  unfold calculateContextMultiplier, contextMultipliers. cbn [foldl].
  repeat match goal with |- context [existsb ?f ?l] => destruct (existsb f l) end;
    repeat apply Rmax_lub; lra.
Qed.

(** X22.  The risk factors of the fingerprinter are at most five, each of
    high or medium severity and never critical, so that the critical
    condition of [deriveEnhancedRiskLevel] that asks for two critical risk
    factors never holds; the context multiplier lies between 1 and 1.5; and
    a content of fewer than 30 code units gets the empty result. *)
Theorem fingerprinter_risk_factors_are_never_critical
    (E : Engine) (this : Fingerprinter) (content : list N) :
  let result := (detectAIPhishing E this content).1 in
  Forall (λ factor, RiskFactor.severity factor = high ∨
                    RiskFactor.severity factor = medium) (riskFactors result) ∧
  (length (riskFactors result) ≤ 5)%nat ∧
  (∀ aiResult domainResult jailbreakHits,
     Aggregator.criticalConditions aiResult result domainResult jailbreakHits !! 4%nat
     = Some false) ∧
  1 <= contextMultiplier result <= 1.5 ∧
  ((length content < 30)%nat →
   detectAIPhishing E this content = (createEmptyResult, this)).
Proof.
  cbv zeta.
  assert (Forall (λ factor, RiskFactor.severity factor = high ∨
                            RiskFactor.severity factor = medium)
            (riskFactors (detectAIPhishing E this content).1) ∧
          (length (riskFactors (detectAIPhishing E this content).1) ≤ 5)%nat)
    as [Hsev Hlen].
  { unfold detectAIPhishing.
    destruct (bool_decide (content = []) || bool_decide (length content < 30)%nat).
    - cbn. split; [constructor|lia].
    - cbv zeta. cbn [fst riskFactors]. unfold identifyRiskFactors. cbv zeta.
      repeat match goal with
             | |- context [if ?c then _ else _] => destruct c
             end;
        cbn [app length]; (split; [repeat constructor; by (left + right)|lia]). }
  split; [exact Hsev|]. split; [exact Hlen|]. split; [|split].
  - intros aiResult domainResult jailbreakHits.
    unfold Aggregator.criticalConditions. cbn [lookup list_lookup]. f_equal.
    apply bool_decide_eq_false_2.
    assert (filter (λ rf, RiskFactor.severity rf = critical)
              (riskFactors (detectAIPhishing E this content).1) = []) as ->;
      [|cbn; lia].
    clear Hlen. induction Hsev as [|factor factors Hfactor _ IH]; [done|].
    rewrite filter_cons_False; [exact IH|].
    intros Hcritical. destruct Hfactor as [H|H]; rewrite H in Hcritical; discriminate.
  - unfold detectAIPhishing.
    destruct (bool_decide (content = []) || bool_decide (length content < 30)%nat).
    + cbn. lra.
    + cbv zeta. cbn [fst contextMultiplier].
      pose proof (calculateContextMultiplier_ge_1 (toLowerCase content)) as H1.
      pose proof (calculateContextMultiplier_le (toLowerCase content)) as H2.
      generalize dependent (calculateContextMultiplier (toLowerCase content)).
      intros multiplier H1 H2. split.
      * assert (IZR 100 / 10 ^ 2 <= toFixed 2 multiplier) as Hge.
        { apply toFixed_ge; [lra|]. cbn. lra. }
        cbn in Hge. lra.
      * assert (toFixed 2 multiplier <= IZR 150 / 10 ^ 2) as Hle.
        { apply toFixed_le; [lra|]. cbn. lra. }
        cbn in Hle. lra.
  - intros Hshort. unfold detectAIPhishing.
    rewrite (bool_decide_eq_true_2 (length content < 30)%nat) by done.
    by rewrite orb_true_r.
Qed.

End FingerprinterFacts.


(** ** What the aggregator makes of the detector results *)

Section AggregatorFacts.
Import Js Aggregator.
Open Scope R_scope.

(** X23.  [scanPage] returns the number of hits, not its results, so the
    aggregator never sees the count of critical hits: in [analyzePage] the
    jailbreak contribution is [min(hits * 2.5, 12)], at most 12 points,
    whatever the scan found; the multiplier 1.8 for critical hits is never
    applied. *)
Theorem jailbreak_contribution_is_never_multiplied
    (E : Engine) (page : JailbreakDetector.Page) (hostname : list N) (now : Z)
    (history : gmap (list N) (list JailbreakDetector.HistoryEntry))
    (aiResult : AITextAnalyzer.Result) (llmResult : LLMFingerprinter.Result)
    (domainResult : option DomainReputation.DomainResult) :
  let scan := JailbreakDetector.scanPage E page hostname now history in
  let assessment :=
    analyzePage aiResult llmResult (JailbreakDetector.returned scan) domainResult in
  JailbreakDetector.returned scan
    = JailbreakDetector.totalHits (JailbreakDetector.results scan) ∧
  jailbreakAttempts (breakdown (compositeScore assessment))
    = toFixed 2 (Rmin (JailbreakDetector.totalHits (JailbreakDetector.results scan)
                       * 2.5) 12) ∧
  0 <= jailbreakAttempts (breakdown (compositeScore assessment)) <= 12.
Proof.
  cbv zeta.
  assert (JailbreakDetector.returned (JailbreakDetector.scanPage E page hostname now history)
          = JailbreakDetector.totalHits
              (JailbreakDetector.results
                 (JailbreakDetector.scanPage E page hostname now history))) as Hreturned.
  { unfold JailbreakDetector.scanPage.
    destruct (JailbreakDetector.updateDetectionHistory _ _ _ _). reflexivity. }
  pose proof (scanPage_bounds E page hostname now history) as [_ Hhits].
  cbv zeta in Hhits. rewrite Hreturned in *.
  set (hits := JailbreakDetector.totalHits _) in *.
  assert (jailbreakAttempts
            (breakdown (compositeScore (analyzePage aiResult llmResult hits domainResult)))
          = toFixed 2 (Rmin (hits * 2.5) 12)) as Hcontribution.
  { unfold analyzePage. cbn [compositeScore].
    unfold computeAdvancedCompositeScore. cbv zeta.
    cbn [breakdown jailbreakAttempts Metrics.jailbreakHits Metrics.jailbreakCritical].
    unfold weights.jailbreakBase.
    rewrite (decide_False (P := (0 < 0)%nat)) by lia.
    case_decide as Hpos; [by rewrite Rmult_1_r|].
    assert (hits = 0) as -> by lra. rewrite Rmult_0_l, Rmin_left by lra. done. }
  split; [done|]. split; [exact Hcontribution|].
  rewrite Hcontribution. apply (toFixed_bounds 2 _ 12).
  split; [apply Rmin_glb; lra|apply Rmin_r].
Qed.

(** X24.  [countIndependentSignals] counts at most six signals, and in
    [analyzePage] two of them read the same number: the domain's risk score
    is both the "domain_risk" (above 60) and the "credential_risk" (above
    70).  A risk score above 70 alone therefore makes two signals, and the
    credential signal never comes without the domain signal. *)
Theorem domain_risk_is_counted_twice
    (ai : AITextAnalyzer.Result) (llm : LLMFingerprinter.Result)
    (hits : R) (dom : option DomainReputation.DomainResult) :
  let found := independentSignals
                 (analyzePage ai llm hits dom) in
  count found = length (signals found) ∧
  (count found ≤ 6)%nat ∧
  (credential_risk ∈ type <$> signals found → domain_risk ∈ type <$> signals found) ∧
  (∀ d, dom = Some d → DomainReputation.riskScore d > 70 →
        (2 ≤ count found)%nat ∧ credential_risk ∈ type <$> signals found).
Proof.
  cbv zeta. unfold analyzePage. cbn [independentSignals].
  unfold countIndependentSignals.
  cbn [aiResult llmResult domainResult jailbreakHits urgencyScore
       credentialRisk count signals].
  destruct dom as [d|]; cbn [fmap option_fmap option_map default from_option].
  - unfold Datatypes.id.
    destruct (bool_decide (AITextAnalyzer.aiProbability ai > 0.7)
              && bool_decide (AITextAnalyzer.confidence ai > 0.6)),
      (decide (AITextAnalyzer.urgencyScore ai > 0.6)),
      (decide (DomainReputation.riskScore d > 60)),
      (decide (hits >= 2)),
      (bool_decide (LLMFingerprinter.score llm > 0.6)
       && bool_decide (0 < length (LLMFingerprinter.riskFactors llm))%nat),
      (decide (DomainReputation.riskScore d > 70));
      try lra; cbn [app length fmap list_fmap type];
      (split; [reflexivity|]); (split; [lia|]);
      (split; [intros Hin; repeat (apply elem_of_cons in Hin as [Hin|Hin];
                                   [try discriminate|]);
               try (by apply not_elem_of_nil in Hin);
               repeat (first [apply list_elem_of_here|apply list_elem_of_further])|]);
      intros d' [= <-] Hrisk; try lra;
      (split; [lia|]);
      repeat (first [apply list_elem_of_here|apply list_elem_of_further]).
  - rewrite (decide_False (P := 0 > 70)) by lra.
    destruct (bool_decide (AITextAnalyzer.aiProbability ai > 0.7)
              && bool_decide (AITextAnalyzer.confidence ai > 0.6)),
      (decide (AITextAnalyzer.urgencyScore ai > 0.6)),
      (decide (hits >= 2)),
      (bool_decide (LLMFingerprinter.score llm > 0.6)
       && bool_decide (0 < length (LLMFingerprinter.riskFactors llm))%nat);
      cbn [app length fmap list_fmap type];
      (split; [reflexivity|]); (split; [lia|]);
      (split; [intros Hin; repeat (apply elem_of_cons in Hin as [Hin|Hin];
                                   [try discriminate|]);
               by apply not_elem_of_nil in Hin|]);
      intros d' [=].
Qed.

(** X25.  The risk level of [analyzePage] is "high" exactly when a
    critical condition holds or the total reaches 80, and it is never
    "critical".  The high-risk toast is shown exactly when the total reaches
    80 with at least two signals -- a critical condition alone never shows
    it -- and the medium-risk toast exactly when no critical condition
    holds, the total is at least 60 and below 80, and there are at least two
    signals. *)
Theorem risk_toasts_follow_the_total_and_the_signals
    (ai : AITextAnalyzer.Result) (llm : LLMFingerprinter.Result)
    (hits : R) (dom : option DomainReputation.DomainResult) :
  let a := analyzePage ai llm hits dom in
  let anyCritical :=
    existsb (λ condition, condition)
      (criticalConditions ai llm dom hits) in
  (riskLevel a = high ↔ anyCritical = true ∨ total (compositeScore a) >= 80) ∧
  (riskLevel a = medium ↔
   anyCritical = false ∧ 50 <= total (compositeScore a) < 80) ∧
  riskLevel a ≠ critical ∧
  (riskToast a =
   if bool_decide (total (compositeScore a) >= 80)
      && bool_decide (2 ≤ count (independentSignals a))%nat
   then Some (HighRiskWarning (count (independentSignals a))
                (Math_round (total (compositeScore a))))
   else if negb anyCritical
           && bool_decide (60 <= total (compositeScore a))
           && bool_decide (total (compositeScore a) < 80)
           && bool_decide (2 ≤ count (independentSignals a))%nat
   then Some (MediumRiskInfo (count (independentSignals a))
                (Math_round (total (compositeScore a))))
   else None).
Proof.
  cbv zeta. unfold analyzePage.
  cbn [riskLevel riskToast compositeScore independentSignals].
  set (score := computeAdvancedCompositeScore _).
  set (found := countIndependentSignals _).
  unfold deriveEnhancedRiskLevel. cbv zeta.
  destruct (existsb (λ condition, condition)
              (criticalConditions ai llm dom hits))
    eqn:Hcritical.
  - cbn [negb andb].
    rewrite (bool_decide_eq_true_2 (high = high)) by done.
    rewrite (bool_decide_eq_false_2 (high = medium)) by done. cbn [andb].
    repeat split; try done; try tauto; try (intros [? ?]; discriminate).
  - destruct (decide (total score >= 80)) as [H80|H80].
    + rewrite (bool_decide_eq_true_2 (high = high)) by done.
      rewrite (bool_decide_eq_true_2 (total score >= 80)) by done.
      rewrite (bool_decide_eq_false_2 (total score < 80)) by lra.
      cbn [negb andb]. rewrite !andb_false_r.
      repeat split; try done; try tauto; try (intros [? ?]; lra).
    + rewrite (bool_decide_eq_false_2 (total score >= 80)) by done.
      rewrite (bool_decide_eq_true_2 (total score < 80)) by lra.
      cbn [negb andb]. rewrite andb_true_r.
      destruct (decide (total score >= 50)) as [H50|H50].
      * rewrite (bool_decide_eq_false_2 (medium = high)) by done.
        rewrite (bool_decide_eq_true_2 (medium = medium)) by done. cbn [andb].
        repeat split; try done; try (intros [?|?]; (discriminate || lra)); try lra.
        destruct (decide (total score >= 60)) as [H60|H60].
        -- rewrite (bool_decide_eq_true_2 (total score >= 60)) by done.
           by rewrite (bool_decide_eq_true_2 (60 <= total score)) by lra.
        -- rewrite (bool_decide_eq_false_2 (total score >= 60)) by done.
           by rewrite (bool_decide_eq_false_2 (60 <= total score)) by lra.
      * assert ((if decide (total score >= 30) then low else low) = low) as ->
          by (by case_decide).
        rewrite (bool_decide_eq_false_2 (low = high)) by done.
        rewrite (bool_decide_eq_false_2 (low = medium)) by done. cbn [andb].
        rewrite (bool_decide_eq_false_2 (60 <= total score)) by lra. cbn [andb].
        repeat split; try done; try (intros [?|?]; (discriminate || lra));
          try (intros [? [? ?]]; lra).
Qed.

End AggregatorFacts.


(** ** The toasts *)

Section NotifierFacts.
Import Js ThreatNotifier.

Lemma show_toasts (this : t) text kind delay checked recorded cleaned :
  let shown := show this text kind delay checked recorded cleaned in
  shown = this ∨
  (text ≠ [] ∧ isDuplicate this text checked = false ∧
   (length (toasts this) < maxActiveToasts)%nat ∧
   recentMessages shown =
     filter (λ entry : list N * Z, ¬ (cleaned - entry.2 > messageDebounceTime)%Z)
       (<[trim (toLowerCase text) := recorded]> (recentMessages this)) ∧
   ∃ toast, toasts shown = toasts this ++ [toast] ∧ message toast = text).
Proof.
  cbv zeta. unfold show.
  case_bool_decide as Htext; [by left|].
  destruct (isDuplicate this text checked) eqn:Hdup; [by left|].
  case_bool_decide as Hfull; [by left|].
  right. cbv zeta. cbn. repeat split; [done|lia|]. eexists. split; reflexivity.
Qed.

(** A message that was recorded stays recorded as long as the clock has not
    moved 5 seconds past its time. *)
Lemma step_keeps_recent_message (this : t) (event : Event) (key : list N)
    (since until : Z) :
  (until - since < 5000)%Z →
  Forall (λ time, (since ≤ time ≤ until)%Z) (clockReadings event) →
  (∃ lastShown, recentMessages this !! key = Some lastShown ∧ (since ≤ lastShown)%Z) →
  ∃ lastShown,
    recentMessages (step this event) !! key = Some lastShown ∧ (since ≤ lastShown)%Z.
Proof.
  intros Hsoon Hclock (lastShown & Hlookup & Hsince).
  assert (∀ text kind delay checked recorded cleaned,
            (since ≤ recorded ≤ until)%Z → (since ≤ cleaned ≤ until)%Z →
            ∃ lastShown,
              recentMessages (show this text kind delay checked recorded cleaned) !! key
                = Some lastShown ∧ (since ≤ lastShown)%Z) as Hshow.
  { intros text kind delay checked recorded cleaned Hrecorded Hcleaned.
    destruct (show_toasts this text kind delay checked recorded cleaned)
      as [->|(_ & _ & _ & -> & _)]; [by exists lastShown|].
    destruct (decide (trim (toLowerCase text) = key)) as [<-|Hother].
    - exists recorded. split; [|lia]. apply map_lookup_filter_Some.
      split; [apply lookup_insert_eq|]. cbn. unfold messageDebounceTime. lia.
    - exists lastShown. split; [|done]. apply map_lookup_filter_Some.
      split; [by rewrite lookup_insert_ne|]. cbn. unfold messageDebounceTime. lia. }
  destruct event as [text checked recorded cleaned|text checked recorded cleaned|index];
    cbn [step clockReadings] in *.
  - apply Forall_cons in Hclock as [_ Hclock].
    apply Forall_cons in Hclock as [Hrecorded Hclock].
    apply Forall_cons in Hclock as [Hcleaned _]. by apply Hshow.
  - apply Forall_cons in Hclock as [_ Hclock].
    apply Forall_cons in Hclock as [Hrecorded Hclock].
    apply Forall_cons in Hclock as [Hcleaned _]. by apply Hshow.
  - by exists lastShown.
Qed.

(** X26.  The notifier never holds more than two toasts at a time, and it
    does not repeat itself: once a message has been shown, a message with
    the same text, whatever its case and the white space around it, is
    dropped when it comes less than 5 seconds later, whatever was shown or
    removed in between; after a toast is shown, no recorded time is more
    than 5 seconds old. *)
Theorem notifier_limits_and_debounces_its_toasts :
  (∀ events : list Event,
     (length (toasts (foldl step constructor events)) ≤ 2)%nat) ∧
  (∀ this text kind delay checked recorded cleaned (events : list Event)
     text' kind' delay' checked' recorded' cleaned',
     let shown := show this text kind delay checked recorded cleaned in
     let current := foldl step shown events in
     toasts shown ≠ toasts this →
     trim (toLowerCase text') = trim (toLowerCase text) →
     (recorded ≤ cleaned ≤ checked')%Z →
     Forall (λ event,
       Forall (λ time, (recorded ≤ time ≤ checked')%Z) (clockReadings event)) events →
     (checked' - recorded < 5000)%Z →
     show current text' kind' delay' checked' recorded' cleaned' = current) ∧
  (∀ this text kind delay checked recorded cleaned,
     let shown := show this text kind delay checked recorded cleaned in
     toasts shown ≠ toasts this →
     map_Forall (λ (_ : list N) (lastShown : Z), (cleaned - lastShown ≤ 5000)%Z)
       (recentMessages shown)).
Proof.
  split; [|split].
  - intros events. induction events as [|event events IH] using rev_ind; [cbn; lia|].
    rewrite foldl_snoc. set (this := foldl step constructor events) in *.
    clearbody this.
    assert (∀ text kind delay checked recorded cleaned,
              (length (toasts (show this text kind delay checked recorded cleaned)) ≤ 2)%nat)
      as Hshow.
    { intros. destruct (show_toasts this text kind delay checked recorded cleaned)
        as [->|(_ & _ & Hroom & _ & toast & -> & _)]; [done|].
      rewrite length_app. unfold maxActiveToasts in Hroom.
      change (length [toast]) with 1%nat. lia. }
    destruct event as [text checked recorded cleaned|text checked recorded cleaned|index];
      cbn [step]; [apply Hshow|apply Hshow|].
    unfold removeToast. cbn [toasts].
    rewrite delete_take_drop, length_app, length_take, length_drop. lia.
  - intros this text kind delay checked recorded cleaned events
      text' kind' delay' checked' recorded' cleaned'. cbv zeta.
    intros Hshown Hkey Hcleaned Hclock Hsoon.
    destruct (show_toasts this text kind delay checked recorded cleaned)
      as [Hsame|(_ & _ & _ & Hrecent & _)]; [by rewrite Hsame in Hshown|].
    cbv zeta in Hrecent.
    set (shown := show this text kind delay checked recorded cleaned) in *.
    assert (∃ lastShown,
              recentMessages (foldl step shown events) !! trim (toLowerCase text)
                = Some lastShown ∧ (recorded ≤ lastShown)%Z)
      as (lastShown & Hlookup & Hsince).
    { clearbody shown. clear Hshown.
      induction events as [|event events IH] using rev_ind.
      - exists recorded. split; [|lia]. cbn [foldl]. rewrite Hrecent.
        apply map_lookup_filter_Some. split; [apply lookup_insert_eq|].
        cbn. unfold messageDebounceTime. lia.
      - apply Forall_app in Hclock as [Hclock Hevent].
        apply Forall_cons in Hevent as [Hevent _].
        rewrite foldl_snoc.
        by apply (step_keeps_recent_message _ _ _ recorded checked'); [| |apply IH]. }
    unfold show at 1. case_bool_decide; [done|].
    assert (isDuplicate (foldl step shown events) text' checked' = true) as ->; [|done].
    unfold isDuplicate. rewrite Hkey, Hlookup.
    apply bool_decide_eq_true. unfold messageDebounceTime. lia.
  - intros this text kind delay checked recorded cleaned. cbv zeta. intros Hshown.
    destruct (show_toasts this text kind delay checked recorded cleaned)
      as [Hsame|(_ & _ & _ & Hrecent & _)]; [by rewrite Hsame in Hshown|].
    cbv zeta in Hrecent. rewrite Hrecent.
    intros key lastShown Hlookup.
    apply map_lookup_filter_Some in Hlookup as [_ Hfresh]. cbn in Hfresh.
    unfold messageDebounceTime in Hfresh. lia.
Qed.

Lemma notifier_limits_and_debounces_its_toasts_witness :
  let shown := show constructor (lit "Alert") "warn" 8000 0 0 0 in
  toasts shown ≠ toasts constructor ∧
  show (foldl step shown [Remove 0]) (lit " ALERT ") "info" 5000 100 100 100
  = foldl step shown [Remove 0].
Proof.
  cbv zeta.
  assert (toasts (show constructor (lit "Alert") "warn" 8000 0 0 0) ≠ toasts constructor)
    as Hshown by (vm_compute; discriminate).
  split; [exact Hshown|].
  apply (proj1 (proj2 notifier_limits_and_debounces_its_toasts)
           constructor (lit "Alert") "warn"%string 8000%Z 0%Z 0%Z 0%Z [Remove 0]
           (lit " ALERT ") "info"%string 5000%Z 100%Z 100%Z 100%Z Hshown).
  - vm_compute. reflexivity.
  - lia.
  - repeat constructor.
  - lia.
Defined.

End NotifierFacts.

(** ** The credential guard *)

Section CredentialGuardFacts.
Import Js CredentialGuard.
Open Scope R_scope.

Lemma Math_round_mono (x y : R) : x <= y → (Math_round x ≤ Math_round y)%Z.
Proof.
  intros Hxy. unfold Math_round.
  pose proof (Math_floor_spec (x + / 2)) as [Hx _].
  pose proof (Math_floor_spec (y + / 2)) as [_ Hy].
  assert (IZR (Math_floor (x + / 2)) < IZR (Math_floor (y + / 2) + 1)) as Hlt.
  { rewrite plus_IZR. lra. }
  apply lt_IZR in Hlt. lia.
Qed.

Lemma composite_risk_raw (this : CredentialGuard.t) (domainRisk : R)
    (formAnalysis : FormAnalysis) (isDynamic : bool) :
  ∃ extra, 0 <= extra <= 115 ∧
    (suspiciousFlags formAnalysis = [] → suspiciousBehaviors this = [] →
     isDynamic = false → extra = 0) ∧
    ∀ risk, calculateCompositeRisk this risk formAnalysis isDynamic
            = Rmin (IZR (Math_round (risk * 0.6 + extra))) 100.
Proof.
  unfold calculateCompositeRisk. cbv zeta.
  exists ((if has (suspiciousFlags formAnalysis) "insecure_submission" then 25 else 0)
          + (if has (suspiciousFlags formAnalysis) "cross_domain_submission"
             then 15 else 0)
          + (if has (suspiciousFlags formAnalysis) "hidden_form" then 20 else 0)
          + (if has (suspiciousFlags formAnalysis) "credential_only_form"
             then 10 else 0)
          + (if has (suspiciousFlags formAnalysis) "suspicious_hidden_field"
             then 10 else 0)
          + (if isDynamic then 15 else 0)
          + (if has (suspiciousBehaviors this) "formless_credential_field"
             then 12 else 0)
          + (if has (suspiciousBehaviors this) "rapid_field_interaction"
             then 8 else 0)).
  split; [|split].
  - repeat match goal with |- context [if ?c then _ else _] => destruct c end; lra.
  - intros -> -> ->. unfold has.
    rewrite !bool_decide_eq_false_2 by apply not_elem_of_nil. lra.
  - intros risk.
    repeat match goal with |- context [if ?c then _ else _] => destruct c end;
      apply (f_equal (λ r, Rmin (IZR (Math_round r)) 100)); lra.
Qed.

(** X27.  The composite risk of a form is a whole number between 0 and
    100 that never decreases when the domain's risk score grows.  For a
    form without suspicious flags, not injected dynamically, and without
    suspicious behaviour on the page, it is the rounded 60% of the domain's
    score, at most 60, so that the form warning follows the domain's score
    alone: critical from 80, a warning from 70, none below. *)
Theorem composite_form_risk_follows_the_domain
    (this : CredentialGuard.t) (formAnalysis : FormAnalysis) (isDynamic : bool) :
  (∀ domainRisk, 0 <= domainRisk →
     0 <= calculateCompositeRisk this domainRisk formAnalysis isDynamic <= 100 ∧
     ∃ n : Z, calculateCompositeRisk this domainRisk formAnalysis isDynamic = IZR n) ∧
  (∀ lower higher, lower <= higher →
     calculateCompositeRisk this lower formAnalysis isDynamic
     <= calculateCompositeRisk this higher formAnalysis isDynamic) ∧
  (suspiciousFlags formAnalysis = [] → suspiciousBehaviors this = [] →
   isDynamic = false →
   ∀ domainRisk, 0 <= domainRisk <= 100 →
     let risk := calculateCompositeRisk this domainRisk formAnalysis isDynamic in
     risk = IZR (Math_round (domainRisk * 0.6)) ∧ risk <= 60 ∧
     formWarning risk domainRisk =
       if bool_decide (domainRisk >= 80) then Some (CriticalRisk risk)
       else if bool_decide (domainRisk >= 70) then Some (PotentialRisk risk)
       else None).
Proof.
  destruct (composite_risk_raw this 0 formAnalysis isDynamic)
    as (extra & [Hextra0 Hextra1] & Hbenign & Hrisk).
  split; [|split].
  - intros domainRisk Hpos. rewrite Hrisk.
    assert (0 ≤ Math_round (domainRisk * 0.6 + extra))%Z as Hround
      by (apply Math_round_nonneg; lra).
    apply IZR_le in Hround. split.
    + split; [apply Rmin_glb; lra|apply Rmin_r].
    + destruct (Rle_dec (IZR (Math_round (domainRisk * 0.6 + extra))) 100).
      * eexists. by rewrite Rmin_left.
      * exists 100%Z. rewrite Rmin_right; lra.
  - intros lower higher Hle. rewrite !Hrisk.
    apply Rle_min_compat_r. apply IZR_le, Math_round_mono. lra.
  - intros Hflags Hbehaviors Hdynamic domainRisk [Hlow Hhigh]. cbv zeta.
    rewrite Hrisk, (Hbenign Hflags Hbehaviors Hdynamic), Rplus_0_r.
    assert (Math_round (domainRisk * 0.6) ≤ 60)%Z as Hround
      by (apply Math_round_le; lra).
    apply IZR_le in Hround.
    rewrite Rmin_left by lra.
    split; [done|]. split; [done|].
    unfold formWarning.
    rewrite !(bool_decide_eq_false_2 (IZR _ >= _)) by lra.
    reflexivity.
Qed.

Lemma composite_form_risk_follows_the_domain_witness :
  (0 <= 50) ∧
  0 <= calculateCompositeRisk {| suspiciousBehaviors := [] |} 50
         {| suspiciousFlags := ["hidden_form"%string] |} true <= 100.
Proof.
  assert (0 <= 50) as H by lra.
  split; [exact H|].
  exact (proj1 (proj1 (composite_form_risk_follows_the_domain
                         {| suspiciousBehaviors := [] |}
                         {| suspiciousFlags := ["hidden_form"%string] |} true)
                  50 H)).
Defined.

End CredentialGuardFacts.
